(** * Template filling and conversion pipeline of [bot.py]

    A shallow embedding of [fill_docx_and_convert] (bot.py, lines 40-147):
    the two placeholder patterns it builds for every key, the way [re.sub]
    applies them to the text of a part, the walk over the unpacked container,
    the repacking, and the call of the external renderer.

    Text is a list of Unicode code points, as a Python [str] is. *)

From Stdlib Require Import String Ascii List NArith ZArith Bool Lia Arith.
From Stdlib.Strings Require Import Byte.
Import ListNotations.

(** ** Text *)

Definition text := list N.

(** A Rocq string literal read as text (one code point per character). *)
Fixpoint str (s : string) : text :=
  match s with
  | EmptyString => []
  | String a s' => N_of_ascii a :: str s'
  end.

Definition BACKSLASH : N := 92.
Definition LBRACE : N := 123.
Definition RBRACE : N := 125.
Definition LT : N := 60.
Definition GT : N := 62.
Definition SLASH : N := 47.

Definition text_eqb (a b : text) : bool :=
  if list_eq_dec N.eq_dec a b then true else false.

(** ** Exceptions

    The exceptions that leave the function.  [ReError] is [re.error];
    [OSError] stands for the I/O errors of the file system and of [zipfile],
    told apart by a label. *)
Inductive exn : Type :=
| ReError
| IndexError
| UnicodeEncodeError
| BadZipFile
| OSError (label : N)
| FileNotFoundError
| RuntimeError (returncode : Z).

(** [f] applied to what a call returned; an exception stays as it is. *)
Definition on_result {A B : Type} (f : A -> B) (r : exn + A) : exn + B :=
  match r with
  | inl e => inl e
  | inr a => inr (f a)
  end.

(** What [re.sub] makes of the name in a group reference [\g<name>] of the
    replacement, for a pattern without groups: [inr tt] when the name stands
    for group 0, the whole match, and the exception that is raised
    otherwise.  The releases of the interpreter differ in it (up to 3.11 the
    name is read with [int], which takes a sign, blanks, underscores and
    the digits of other scripts; from 3.12 on only ASCII digits are a
    number), so it is a parameter here; [Interpreter.cpython311] below is the
    interpreter of release 3.11. *)
Record release : Type := Release { group_index : text -> exn + unit }.

(** ** The case tables of the interpreter

    [re.IGNORECASE] on [str] compares characters through the simple
    lower-case mapping of the Unicode database ([_sre.unicode_tolower]),
    asks [_sre.unicode_iscased] whether a literal of the pattern has a case
    at all, and adds the characters of [re._casefix._EXTRA_CASES] to it.
    These are tables of the interpreter, not of [bot.py]; they are given
    here as they are in CPython 3.11 (Unicode 14.0.0). *)

Module Unicode.

Local Open Scope N_scope.

(** Rows [(first, last, step, low)]: the code points [first],
    [first + step], ... up to [last] have the lower-case forms [low],
    [low + step], ...; every other code point is its own lower-case form. *)
Definition lower_rows : list (N * N * N * N) :=
  [(65, 90, 1, 97); (192, 214, 1, 224); (216, 222, 1, 248);
   (256, 302, 2, 257); (304, 304, 1, 105); (306, 310, 2, 307);
   (313, 327, 2, 314); (330, 374, 2, 331); (376, 376, 1, 255);
   (377, 381, 2, 378); (385, 385, 1, 595); (386, 388, 2, 387);
   (390, 390, 1, 596); (391, 391, 1, 392); (393, 394, 1, 598);
   (395, 395, 1, 396); (398, 398, 1, 477); (399, 399, 1, 601);
   (400, 400, 1, 603); (401, 401, 1, 402); (403, 403, 1, 608);
   (404, 404, 1, 611); (406, 406, 1, 617); (407, 407, 1, 616);
   (408, 408, 1, 409); (412, 412, 1, 623); (413, 413, 1, 626);
   (415, 415, 1, 629); (416, 420, 2, 417); (422, 422, 1, 640);
   (423, 423, 1, 424); (425, 425, 1, 643); (428, 428, 1, 429);
   (430, 430, 1, 648); (431, 431, 1, 432); (433, 434, 1, 650);
   (435, 437, 2, 436); (439, 439, 1, 658); (440, 440, 1, 441);
   (444, 444, 1, 445); (452, 452, 1, 454); (453, 453, 1, 454);
   (455, 455, 1, 457); (456, 456, 1, 457); (458, 458, 1, 460);
   (459, 475, 2, 460); (478, 494, 2, 479); (497, 497, 1, 499);
   (498, 500, 2, 499); (502, 502, 1, 405); (503, 503, 1, 447);
   (504, 542, 2, 505); (544, 544, 1, 414); (546, 562, 2, 547);
   (570, 570, 1, 11365); (571, 571, 1, 572); (573, 573, 1, 410);
   (574, 574, 1, 11366); (577, 577, 1, 578); (579, 579, 1, 384);
   (580, 580, 1, 649); (581, 581, 1, 652); (582, 590, 2, 583);
   (880, 882, 2, 881); (886, 886, 1, 887); (895, 895, 1, 1011);
   (902, 902, 1, 940); (904, 906, 1, 941); (908, 908, 1, 972);
   (910, 911, 1, 973); (913, 929, 1, 945); (931, 939, 1, 963);
   (975, 975, 1, 983); (984, 1006, 2, 985); (1012, 1012, 1, 952);
   (1015, 1015, 1, 1016); (1017, 1017, 1, 1010); (1018, 1018, 1, 1019);
   (1021, 1023, 1, 891); (1024, 1039, 1, 1104); (1040, 1071, 1, 1072);
   (1120, 1152, 2, 1121); (1162, 1214, 2, 1163); (1216, 1216, 1, 1231);
   (1217, 1229, 2, 1218); (1232, 1326, 2, 1233); (1329, 1366, 1, 1377);
   (4256, 4293, 1, 11520); (4295, 4295, 1, 11559); (4301, 4301, 1, 11565);
   (5024, 5103, 1, 43888); (5104, 5109, 1, 5112); (7312, 7354, 1, 4304);
   (7357, 7359, 1, 4349); (7680, 7828, 2, 7681); (7838, 7838, 1, 223);
   (7840, 7934, 2, 7841); (7944, 7951, 1, 7936); (7960, 7965, 1, 7952);
   (7976, 7983, 1, 7968); (7992, 7999, 1, 7984); (8008, 8013, 1, 8000);
   (8025, 8031, 2, 8017); (8040, 8047, 1, 8032); (8072, 8079, 1, 8064);
   (8088, 8095, 1, 8080); (8104, 8111, 1, 8096); (8120, 8121, 1, 8112);
   (8122, 8123, 1, 8048); (8124, 8124, 1, 8115); (8136, 8139, 1, 8050);
   (8140, 8140, 1, 8131); (8152, 8153, 1, 8144); (8154, 8155, 1, 8054);
   (8168, 8169, 1, 8160); (8170, 8171, 1, 8058); (8172, 8172, 1, 8165);
   (8184, 8185, 1, 8056); (8186, 8187, 1, 8060); (8188, 8188, 1, 8179);
   (8486, 8486, 1, 969); (8490, 8490, 1, 107); (8491, 8491, 1, 229);
   (8498, 8498, 1, 8526); (8544, 8559, 1, 8560); (8579, 8579, 1, 8580);
   (9398, 9423, 1, 9424); (11264, 11311, 1, 11312); (11360, 11360, 1, 11361);
   (11362, 11362, 1, 619); (11363, 11363, 1, 7549); (11364, 11364, 1, 637);
   (11367, 11371, 2, 11368); (11373, 11373, 1, 593); (11374, 11374, 1, 625);
   (11375, 11375, 1, 592); (11376, 11376, 1, 594); (11378, 11378, 1, 11379);
   (11381, 11381, 1, 11382); (11390, 11391, 1, 575); (11392, 11490, 2, 11393);
   (11499, 11501, 2, 11500); (11506, 11506, 1, 11507); (42560, 42604, 2, 42561);
   (42624, 42650, 2, 42625); (42786, 42798, 2, 42787); (42802, 42862, 2, 42803);
   (42873, 42875, 2, 42874); (42877, 42877, 1, 7545); (42878, 42886, 2, 42879);
   (42891, 42891, 1, 42892); (42893, 42893, 1, 613); (42896, 42898, 2, 42897);
   (42902, 42920, 2, 42903); (42922, 42922, 1, 614); (42923, 42923, 1, 604);
   (42924, 42924, 1, 609); (42925, 42925, 1, 620); (42926, 42926, 1, 618);
   (42928, 42928, 1, 670); (42929, 42929, 1, 647); (42930, 42930, 1, 669);
   (42931, 42931, 1, 43859); (42932, 42946, 2, 42933); (42948, 42948, 1, 42900);
   (42949, 42949, 1, 642); (42950, 42950, 1, 7566); (42951, 42953, 2, 42952);
   (42960, 42960, 1, 42961); (42966, 42968, 2, 42967); (42997, 42997, 1, 42998);
   (65313, 65338, 1, 65345); (66560, 66599, 1, 66600); (66736, 66771, 1, 66776);
   (66928, 66938, 1, 66967); (66940, 66954, 1, 66979); (66956, 66962, 1, 66995);
   (66964, 66965, 1, 67003); (68736, 68786, 1, 68800); (71840, 71871, 1, 71872);
   (93760, 93791, 1, 93792); (125184, 125217, 1, 125218)].

Fixpoint lookup_lower (rows : list (N * N * N * N)) (c : N) : N :=
  match rows with
  | [] => c
  | (first, last, step, low) :: rows' =>
      if (first <=? c) && (c <=? last) && ((c - first) mod step =? 0)
      then low + (c - first)
      else lookup_lower rows' c
  end.

(** [_sre.unicode_tolower] *)
Definition tolower (c : N) : N := lookup_lower lower_rows c.

(** Rows [(first, last)] of the code points whose lower-case or upper-case
    form is another code point. *)
Definition cased_rows : list (N * N) :=
  [(65, 90); (97, 122); (181, 181); (192, 214); (216, 246);
   (248, 311); (313, 396); (398, 410); (412, 425); (428, 441);
   (444, 445); (447, 447); (452, 544); (546, 563); (570, 596);
   (598, 599); (601, 601); (603, 604); (608, 609); (611, 611);
   (613, 614); (616, 620); (623, 623); (625, 626); (629, 629);
   (637, 637); (640, 640); (642, 643); (647, 652); (658, 658);
   (669, 670); (837, 837); (880, 883); (886, 887); (891, 893);
   (895, 895); (902, 902); (904, 906); (908, 908); (910, 929);
   (931, 977); (981, 1013); (1015, 1019); (1021, 1153); (1162, 1327);
   (1329, 1366); (1377, 1415); (4256, 4293); (4295, 4295); (4301, 4301);
   (4304, 4346); (4349, 4351); (5024, 5109); (5112, 5117); (7296, 7304);
   (7312, 7354); (7357, 7359); (7545, 7545); (7549, 7549); (7566, 7566);
   (7680, 7835); (7838, 7838); (7840, 7957); (7960, 7965); (7968, 8005);
   (8008, 8013); (8016, 8023); (8025, 8025); (8027, 8027); (8029, 8029);
   (8031, 8061); (8064, 8116); (8118, 8124); (8126, 8126); (8130, 8132);
   (8134, 8140); (8144, 8147); (8150, 8155); (8160, 8172); (8178, 8180);
   (8182, 8188); (8486, 8486); (8490, 8491); (8498, 8498); (8526, 8526);
   (8544, 8575); (8579, 8580); (9398, 9449); (11264, 11376); (11378, 11379);
   (11381, 11382); (11390, 11491); (11499, 11502); (11506, 11507); (11520, 11557);
   (11559, 11559); (11565, 11565); (42560, 42605); (42624, 42651); (42786, 42799);
   (42802, 42863); (42873, 42887); (42891, 42893); (42896, 42900); (42902, 42926);
   (42928, 42954); (42960, 42961); (42966, 42969); (42997, 42998); (43859, 43859);
   (43888, 43967); (64256, 64262); (64275, 64279); (65313, 65338); (65345, 65370);
   (66560, 66639); (66736, 66771); (66776, 66811); (66928, 66938); (66940, 66954);
   (66956, 66962); (66964, 66965); (66967, 66977); (66979, 66993); (66995, 67001);
   (67003, 67004); (68736, 68786); (68800, 68850); (71840, 71903); (93760, 93823);
   (125184, 125251)].

Definition in_rows (rows : list (N * N)) (c : N) : bool :=
  existsb (fun row => (fst row <=? c) && (c <=? snd row)) rows.

(** [_sre.unicode_iscased] *)
Definition iscased (c : N) : bool := in_rows cased_rows c.

(** [_EXTRA_CASES]: for a lower-case character, the other lower-case
    characters that have the same upper-case form. *)
Definition extra_rows : list (N * list N) :=
  [(105, [305]);
   (115, [383]);
   (181, [956]);
   (305, [105]);
   (383, [115]);
   (837, [953; 8126]);
   (912, [8147]);
   (944, [8163]);
   (946, [976]);
   (949, [1013]);
   (952, [977]);
   (953, [837; 8126]);
   (954, [1008]);
   (956, [181]);
   (960, [982]);
   (961, [1009]);
   (962, [963]);
   (963, [962]);
   (966, [981]);
   (976, [946]);
   (977, [952]);
   (981, [966]);
   (982, [960]);
   (1008, [954]);
   (1009, [961]);
   (1013, [949]);
   (1074, [7296]);
   (1076, [7297]);
   (1086, [7298]);
   (1089, [7299]);
   (1090, [7300; 7301]);
   (1098, [7302]);
   (1123, [7303]);
   (7296, [1074]);
   (7297, [1076]);
   (7298, [1086]);
   (7299, [1089]);
   (7300, [1090; 7301]);
   (7301, [1090; 7300]);
   (7302, [1098]);
   (7303, [1123]);
   (7304, [42571]);
   (7777, [7835]);
   (7835, [7777]);
   (8126, [837; 953]);
   (8147, [912]);
   (8163, [944]);
   (42571, [7304]);
   (64261, [64262]);
   (64262, [64261])].

Fixpoint lookup_extra (rows : list (N * list N)) (lo : N) : list N :=
  match rows with
  | [] => []
  | (k, others) :: rows' => if k =? lo then others else lookup_extra rows' lo
  end.

Definition extra_cases (lo : N) : list N := lookup_extra extra_rows lo.

(** The code points of a row, and of the two tables. *)
Fixpoint upto (n : nat) (first step : N) : list N :=
  match n with
  | O => []
  | S n' => first :: upto n' (first + step) step
  end.

Definition span (first last step : N) : list N :=
  upto (S (N.to_nat ((last - first) / step))) first step.

Definition lower_points : list N :=
  flat_map (fun row => match row with
                       | (first, last, step, _) => span first last step
                       end) lower_rows.

Definition cased_points : list N :=
  flat_map (fun row => span (fst row) (snd row) 1) cased_rows.

End Unicode.

(** ** The pattern language (Python's [re] module)

    [re.escape], the tokenizer and parser of patterns, and the backtracking
    matcher, for the fragment of the pattern language that the two patterns
    of the source are written in. *)

Module Re.

Local Open Scope N_scope.

(** [re.escape]: [_special_chars_map] puts a backslash before each of
    [()[]{}?*+-|^$\.&~#], space, tab, newline, CR, VT and FF. *)
Definition special_chars : text :=
  str "()[]{}?*+-|^$\.&~# " ++ [9; 10; 13; 11; 12].

Definition is_special (c : N) : bool := existsb (N.eqb c) special_chars.

Definition escape (pattern : text) : text :=
  flat_map (fun c => if is_special c then [BACKSLASH; c] else [c]) pattern.

(** The tokenizer of patterns and of replacement templates: a backslash
    and the character after it are one token; a backslash that ends the
    source is the error "bad escape (end of pattern)". *)
Inductive token : Type :=
| TChar (c : N)
| TEsc (c : N).

Fixpoint tokenize (p : text) : option (list token) :=
  match p with
  | [] => Some []
  | c :: p' =>
      if (c =? BACKSLASH)%N then
        match p' with
        | [] => None
        | d :: p'' => option_map (cons (TEsc d)) (tokenize p'')
        end
      else option_map (cons (TChar c)) (tokenize p')
  end.

(** Parsed patterns.  Every literal is matched under [re.IGNORECASE]. *)
Inductive regex : Type :=
| Eps
| Lit (c : N)                 (* LITERAL c *)
| NotLit (c : N)              (* NOT_LITERAL c, written [^c] *)
| Space                       (* CATEGORY_SPACE, written \s *)
| Cat (r1 r2 : regex)         (* one item after the other *)
| Star (r : regex)            (* MAX_REPEAT 0 MAXREPEAT, written r* *)
| Plus (r : regex)            (* MAX_REPEAT 1 MAXREPEAT, written r+ *)
| Opt (r : regex).            (* MAX_REPEAT 0 1, written r? *)

(** The items of a sequence, first to last. *)
Definition seq_of (items : list regex) : regex := fold_right Cat Eps items.

Fixpoint nullable (r : regex) : bool :=
  match r with
  | Eps => true
  | Lit _ | NotLit _ | Space => false
  | Cat r1 r2 => nullable r1 && nullable r2
  | Star _ => true
  | Plus r => nullable r
  | Opt _ => true
  end.

Definition is_ascii_alnum (c : N) : bool :=
  ((48 <=? c) && (c <=? 57) || (65 <=? c) && (c <=? 90)
   || (97 <=? c) && (c <=? 122))%N.

(** [_escape]: [\s] is the whitespace category; a backslash before a
    character that is no ASCII letter or digit is that character.  The other
    escapes of letters and digits (categories, anchors, back-references,
    numeric escapes, and the ones that are errors) are outside the fragment. *)
Definition escape_item (c : N) : option regex :=
  if (c =? 115)%N then Some Space
  else if is_ascii_alnum c then None
  else Some (Lit c).

Definition is_repeat (r : regex) : bool :=
  match r with
  | Star _ | Plus _ | Opt _ => true
  | _ => false
  end.

(** Quantifier applied to the last item parsed.  "nothing to repeat" and
    "multiple repeat" are errors; lazy and possessive quantifiers and
    repetitions of an item that can match the empty string are outside the
    fragment. *)
Definition quantify (q : regex -> regex) (needs_progress : bool)
    (cur : list regex) : option (list regex) :=
  match cur with
  | [] => None
  | r :: cur' =>
      if is_repeat r then None
      else if needs_progress && nullable r then None
      else Some (q r :: cur')
  end.

(** [_parse] on the token list.  [cur] holds the items of the sequence being
    read, last first; [stack] the sequences around it, one per group that is
    still open.  Of the special characters [.\[{()*+?^$|] the fragment has
    the non-capturing group [(?:...)], the negated one-character set [[^c]]
    and the greedy quantifiers [*], [+] and [?]. *)
Fixpoint parse (ts : list token) (cur : list regex)
    (stack : list (list regex)) : option regex :=
  match ts with
  | [] =>
      match stack with
      | [] => Some (seq_of (rev cur))
      | _ :: _ => None
      end
  | TEsc c :: ts' =>
      match escape_item c with
      | Some r => parse ts' (r :: cur) stack
      | None => None
      end
  | TChar c :: ts' =>
      if (c =? 40)%N then                                   (* ( *)
        match ts' with
        | TChar q :: TChar k :: ts'' =>
            if ((q =? 63) && (k =? 58))%N                   (* ?: *)
            then parse ts'' [] (cur :: stack)
            else None
        | _ => None
        end
      else if (c =? 41)%N then                              (* ) *)
        match stack with
        | outer :: stack' => parse ts' (seq_of (rev cur) :: outer) stack'
        | [] => None
        end
      else if (c =? 91)%N then                              (* [ *)
        match ts' with
        | TChar h :: TChar x :: TChar e :: ts'' =>
            if ((h =? 94) && (e =? 93)
                && negb (x =? 93) && negb (x =? 91))%N      (* [^x] *)
            then parse ts'' (NotLit x :: cur) stack
            else None
        | _ => None
        end
      else if (c =? 42)%N then                              (* * *)
        match quantify Star true cur with
        | Some cur' => parse ts' cur' stack
        | None => None
        end
      else if (c =? 43)%N then                              (* + *)
        match quantify Plus true cur with
        | Some cur' => parse ts' cur' stack
        | None => None
        end
      else if (c =? 63)%N then                              (* ? *)
        match quantify Opt false cur with
        | Some cur' => parse ts' cur' stack
        | None => None
        end
      else if ((c =? 46) || (c =? 123) || (c =? 94)
               || (c =? 36) || (c =? 124))%N then None      (* . { ^ $ | *)
      else parse ts' (Lit c :: cur) stack
  end.

(** [re.compile(pattern, re.IGNORECASE)]; [None] when the pattern is in error
    or outside the fragment. *)
Definition compile (pattern : text) : option regex :=
  match tokenize pattern with
  | Some ts => parse ts [] []
  | None => None
  end.

(** *** Matching *)

Definition ascii_lower (c : N) : N :=
  if ((65 <=? c) && (c <=? 90))%N then (c + 32)%N else c.

Definition is_ascii_letter (c : N) : bool :=
  ((65 <=? c) && (c <=? 90) || (97 <=? c) && (c <=? 122))%N.

(** The characters a literal [c] of the pattern matches under
    [re.IGNORECASE] (the compiler's [_compile], and the matcher's
    [LITERAL_UNI_IGNORE] and [IN_UNI_IGNORE]).  A literal without case is
    compared as it is.  For a literal with case the character of the text is
    put in lower case and compared with the lower case of the literal and
    with the extra cases of that: [i] also matches U+0130 and U+0131, [s]
    U+017F, [k] U+212A. *)
Definition lit_ignore (c t : N) : bool :=
  if Unicode.iscased c then
    let lo := Unicode.tolower c in
    (Unicode.tolower t =? lo)
    || existsb (N.eqb (Unicode.tolower t)) (Unicode.extra_cases lo)
  else (t =? c).

(** [\s] on [str]: the characters for which [str.isspace] holds. *)
Definition is_space (t : N) : bool :=
  ((9 <=? t) && (t <=? 13) || (28 <=? t) && (t <=? 32)
   || (t =? 133) || (t =? 160) || (t =? 5760)
   || (8192 <=? t) && (t <=? 8202)
   || (t =? 8232) || (t =? 8233) || (t =? 8239) || (t =? 8287)
   || (t =? 12288))%N.

Definition shorter (s s' : text) : bool := (length s' <? length s)%nat.

(** Greedy repetition of [step]: as many rounds as possible first, each round
    moving forward in the text, then fewer. *)
Fixpoint star (step : text -> list text) (fuel : nat) (s : text) : list text :=
  match fuel with
  | O => [s]
  | S fuel' => flat_map (star step fuel') (filter (shorter s) (step s)) ++ [s]
  end.

(** The backtracking matcher as a list of successes: every way [r] matches a
    prefix of [s], given by the text that is left, in the order in which the
    engine tries them.  The engine takes the first. *)
Fixpoint matches (r : regex) (s : text) : list text :=
  match r with
  | Eps => [s]
  | Lit c =>
      match s with
      | t :: s' => if lit_ignore c t then [s'] else []
      | [] => []
      end
  | NotLit c =>
      match s with
      | t :: s' => if lit_ignore c t then [] else [s']
      | [] => []
      end
  | Space =>
      match s with
      | t :: s' => if is_space t then [s'] else []
      | [] => []
      end
  | Cat r1 r2 => flat_map (matches r2) (matches r1 s)
  | Star r => star (matches r) (length s) s
  | Plus r =>
      flat_map (fun s' => star (matches r) (length s') s') (matches r s)
  | Opt r => matches r s ++ [s]
  end.

(** [re.fullmatch(pattern, s, re.IGNORECASE)] finds a match: some attempt
    uses up all of [s]. *)
Definition is_nil (s : text) : bool :=
  match s with
  | [] => true
  | _ :: _ => false
  end.

Definition fullmatch_regex (r : regex) (s : text) : bool :=
  existsb is_nil (matches r s).

(** The first success. *)
Definition match_here (r : regex) (s : text) : option text :=
  hd_error (matches r s).

(** *** Replacement templates *)

Inductive titem : Type :=
| TLit (c : N)
| TGroup0.

(** The tokens of a template: a character, or a backslash and the character
    after it.  [TkEnd] is a backslash that ends the template. *)
Inductive ttoken : Type :=
| TkChar (c : N)
| TkEsc (c : N)
| TkEnd.

Fixpoint ttokens (p : text) : list ttoken :=
  match p with
  | [] => []
  | c :: p' =>
      if c =? BACKSLASH then
        match p' with
        | [] => [TkEnd]
        | d :: p'' => TkEsc d :: ttokens p''
        end
      else TkChar c :: ttokens p'
  end.

(** The tokenizer reads one token ahead: when a token is taken the one after
    it is read, and this is where "bad escape (end of pattern)" is raised
    for a backslash that ends the template. *)
Definition read_ahead_fails (ts : list ttoken) : bool :=
  match ts with
  | TkEnd :: _ => true
  | _ => false
  end.

(** The parser is outside a group reference, or inside the name of one,
    with the characters read so far, last first. *)
Inductive tstate : Type :=
| Normal
| InName (name : text).

Definition is_oct (c : N) : bool := (48 <=? c) && (c <=? 55).
Definition is_digit (c : N) : bool := (48 <=? c) && (c <=? 57).
Definition digit (c : N) : N := c - 48.

(** [ESCAPES] of the parser: a, b, f, n, r, t, v and the backslash. *)
Definition escapes (c : N) : option N :=
  if c =? 97 then Some 7 else if c =? 98 then Some 8
  else if c =? 102 then Some 12 else if c =? 110 then Some 10
  else if c =? 114 then Some 13 else if c =? 116 then Some 9
  else if c =? 118 then Some 11 else if c =? 92 then Some 92
  else None.

Definition tcons (it : titem) (r : exn + list titem) : exn + list titem :=
  match r with
  | inl e => inl e
  | inr tpl => inr (it :: tpl)
  end.

(** [parse_template] for a pattern without groups ([state.groups] is 0).
    [\g<name>] is a reference to the group [name], settled by the release;
    [\0] starts an octal escape of up to three digits; [\1] to [\9] are
    octal escapes when three octal digits follow one another and
    "invalid group reference" otherwise; a backslash before an ASCII letter
    outside [ESCAPES] is "bad escape"; before any other character the
    backslash stays. *)
Fixpoint parse_tokens (py : release) (ts : list ttoken) (st : tstate)
    : exn + list titem :=
  match ts with
  | [] =>
      match st with
      | Normal => inr []
      | InName _ => inl ReError            (* missing >, unterminated name *)
      end
  | t :: ts1 =>
      if read_ahead_fails ts1 then inl ReError
      else
        match st with
        | InName name =>
            match t with
            | TkChar c =>
                if c =? GT then
                  match name with
                  | [] => inl ReError                 (* missing group name *)
                  | _ :: _ =>
                      match group_index py (rev name) with
                      | inl e => inl e
                      | inr _ => tcons TGroup0 (parse_tokens py ts1 Normal)
                      end
                  end
                else parse_tokens py ts1 (InName (c :: name))
            | TkEsc d => parse_tokens py ts1 (InName (d :: BACKSLASH :: name))
            | TkEnd => inl ReError
            end
        | Normal =>
            match t with
            | TkEnd => inl ReError
            | TkChar c => tcons (TLit c) (parse_tokens py ts1 Normal)
            | TkEsc d =>
                if d =? 103 then                              (* \g *)
                  match ts1 with
                  | TkChar l :: ts2 =>
                      if l =? LT then
                        if read_ahead_fails ts2 then inl ReError
                        else parse_tokens py ts2 (InName [])
                      else inl ReError                        (* missing < *)
                  | _ => inl ReError
                  end
                else if d =? 48 then                          (* \0 *)
                  match ts1 with
                  | TkChar o1 :: ts2 =>
                      if is_oct o1 then
                        if read_ahead_fails ts2 then inl ReError
                        else
                          match ts2 with
                          | TkChar o2 :: ts3 =>
                              if is_oct o2 then
                                if read_ahead_fails ts3 then inl ReError
                                else
                                  tcons
                                    (TLit (N.land (digit o1 * 8 + digit o2) 255))
                                    (parse_tokens py ts3 Normal)
                              else tcons (TLit (digit o1))
                                     (parse_tokens py ts2 Normal)
                          | _ => tcons (TLit (digit o1))
                                   (parse_tokens py ts2 Normal)
                          end
                      else tcons (TLit 0) (parse_tokens py ts1 Normal)
                  | _ => tcons (TLit 0) (parse_tokens py ts1 Normal)
                  end
                else if is_digit d then                       (* \1 .. \9 *)
                  match ts1 with
                  | TkChar d2 :: TkChar d3 :: ts3 =>
                      if is_oct d && is_oct d2 && is_oct d3 then
                        if read_ahead_fails ts3 then inl ReError
                        else
                          let v := digit d * 64 + digit d2 * 8 + digit d3 in
                          if v <=? 255
                          then tcons (TLit v) (parse_tokens py ts3 Normal)
                          else inl ReError
                      else inl ReError          (* invalid group reference *)
                  | _ => inl ReError
                  end
                else
                  match escapes d with
                  | Some e => tcons (TLit e) (parse_tokens py ts1 Normal)
                  | None =>
                      if is_ascii_letter d then inl ReError     (* bad escape *)
                      else tcons (TLit BACKSLASH)
                             (tcons (TLit d) (parse_tokens py ts1 Normal))
                  end
            end
        end
  end.

Definition parse_template (py : release) (repl : text) : exn + list titem :=
  parse_tokens py (ttokens repl) Normal.

(** [expand_template]: the literals as they are, group 0 as the text that
    matched. *)
Definition expand (tpl : list titem) (matched : text) : text :=
  flat_map (fun it => match it with TLit c => [c] | TGroup0 => matched end) tpl.

(** *** Substitution *)

(** The text [s] with what matched before [rest] cut out of its front. *)
Definition consumed (s rest : text) : nat := (length s - length rest)%nat.

(** [pattern.sub(repl, s)]: from left to right, the leftmost match at each
    position is replaced and the search goes on after it.  [skip] counts the
    characters that are still inside the match that was just replaced.  An
    empty match is replaced too, after which a match at the same position has
    to be longer (the engine's [must_advance]). *)
Fixpoint scan (r : regex) (tpl : list titem) (s : text) (skip : nat) : text :=
  match s with
  | [] =>
      match skip, match_here r [] with
      | O, Some _ => expand tpl []
      | _, _ => []
      end
  | c :: s' =>
      match skip with
      | S skip' => scan r tpl s' skip'
      | O =>
          match matches r s with
          | [] => c :: scan r tpl s' 0
          | rest :: others =>
              match consumed s rest with
              | S n => expand tpl (firstn (S n) s) ++ scan r tpl s' n
              | O =>
                  expand tpl [] ++
                  match find (shorter s) others with
                  | Some rest' =>
                      expand tpl (firstn (consumed s rest') s)
                      ++ scan r tpl s' (pred (consumed s rest'))
                  | None => c :: scan r tpl s' 0
                  end
              end
          end
      end
  end.

(** [re.sub(pattern, repl, s, flags=re.IGNORECASE)].  The template is
    compiled before the search starts, so a template in error raises whether
    or not the pattern occurs in [s]. *)
Definition sub (py : release) (pattern repl s : text) : exn + text :=
  match compile pattern with
  | None => inl ReError
  | Some r =>
      match parse_template py repl with
      | inl e => inl e
      | inr tpl => inr (scan r tpl s 0)
      end
  end.

End Re.

(** ** The two patterns of the source (bot.py, lines 84-103) *)

Definition pattern_double (key : text) : text :=
  str "\{\{\s*"
  ++ str "(?:<\/?[^>]+>)*\s*"
  ++ Re.escape key
  ++ str "\s*(?:<\/?[^>]+>)*\s*"
  ++ str "\}\}".

Definition pattern_single (key : text) : text :=
  str "\{\s*"
  ++ str "(?:<\/?[^>]+>)*\s*"
  ++ Re.escape key
  ++ str "\s*(?:<\/?[^>]+>)*\s*"
  ++ str "\}\}".

(** [re.fullmatch(pattern, s, flags=re.IGNORECASE) is not None] *)
Definition fullmatch (pattern s : text) : bool :=
  match Re.compile pattern with
  | Some r => Re.fullmatch_regex r s
  | None => false
  end.

(** The loop over [data.items()] (bot.py, lines 82-103): the keys in the
    order of the dict, for each key the pattern with two opening braces and
    then the one with a single brace, each on the text the previous call
    returned.  An exception of a call ends the loop. *)
Fixpoint substitute (py : release) (data : list (text * text)) (xml : text)
    : exn + text :=
  match data with
  | [] => inr xml
  | (key, value) :: data' =>
      match Re.sub py (pattern_double key) value xml with
      | inl e => inl e
      | inr xml1 =>
          match Re.sub py (pattern_single key) value xml1 with
          | inl e => inl e
          | inr xml2 => substitute py data' xml2
          end
      end
  end.

(** ** The interpreter of release 3.11

    How CPython 3.11 settles the name of a group reference: a name that is
    an identifier is looked up among the named groups of the pattern, which
    has none ([IndexError]); any other name is read as a number with [int],
    and is group 0 when that number is 0 ([re.error] otherwise).  The tables
    are those of Unicode 14.0.0. *)

Module Interpreter.

Local Open Scope N_scope.

(** The code points that can begin an identifier (XID_Start and the
    underscore), and those that can go on in one (XID_Continue). *)
Definition xid_start_rows : list (N * N) :=
  [(65, 90); (95, 95); (97, 122); (170, 170); (181, 181);
   (186, 186); (192, 214); (216, 246); (248, 705); (710, 721);
   (736, 740); (748, 748); (750, 750); (880, 884); (886, 887);
   (891, 893); (895, 895); (902, 902); (904, 906); (908, 908);
   (910, 929); (931, 1013); (1015, 1153); (1162, 1327); (1329, 1366);
   (1369, 1369); (1376, 1416); (1488, 1514); (1519, 1522); (1568, 1610);
   (1646, 1647); (1649, 1747); (1749, 1749); (1765, 1766); (1774, 1775);
   (1786, 1788); (1791, 1791); (1808, 1808); (1810, 1839); (1869, 1957);
   (1969, 1969); (1994, 2026); (2036, 2037); (2042, 2042); (2048, 2069);
   (2074, 2074); (2084, 2084); (2088, 2088); (2112, 2136); (2144, 2154);
   (2160, 2183); (2185, 2190); (2208, 2249); (2308, 2361); (2365, 2365);
   (2384, 2384); (2392, 2401); (2417, 2432); (2437, 2444); (2447, 2448);
   (2451, 2472); (2474, 2480); (2482, 2482); (2486, 2489); (2493, 2493);
   (2510, 2510); (2524, 2525); (2527, 2529); (2544, 2545); (2556, 2556);
   (2565, 2570); (2575, 2576); (2579, 2600); (2602, 2608); (2610, 2611);
   (2613, 2614); (2616, 2617); (2649, 2652); (2654, 2654); (2674, 2676);
   (2693, 2701); (2703, 2705); (2707, 2728); (2730, 2736); (2738, 2739);
   (2741, 2745); (2749, 2749); (2768, 2768); (2784, 2785); (2809, 2809);
   (2821, 2828); (2831, 2832); (2835, 2856); (2858, 2864); (2866, 2867);
   (2869, 2873); (2877, 2877); (2908, 2909); (2911, 2913); (2929, 2929);
   (2947, 2947); (2949, 2954); (2958, 2960); (2962, 2965); (2969, 2970);
   (2972, 2972); (2974, 2975); (2979, 2980); (2984, 2986); (2990, 3001);
   (3024, 3024); (3077, 3084); (3086, 3088); (3090, 3112); (3114, 3129);
   (3133, 3133); (3160, 3162); (3165, 3165); (3168, 3169); (3200, 3200);
   (3205, 3212); (3214, 3216); (3218, 3240); (3242, 3251); (3253, 3257);
   (3261, 3261); (3293, 3294); (3296, 3297); (3313, 3314); (3332, 3340);
   (3342, 3344); (3346, 3386); (3389, 3389); (3406, 3406); (3412, 3414);
   (3423, 3425); (3450, 3455); (3461, 3478); (3482, 3505); (3507, 3515);
   (3517, 3517); (3520, 3526); (3585, 3632); (3634, 3634); (3648, 3654);
   (3713, 3714); (3716, 3716); (3718, 3722); (3724, 3747); (3749, 3749);
   (3751, 3760); (3762, 3762); (3773, 3773); (3776, 3780); (3782, 3782);
   (3804, 3807); (3840, 3840); (3904, 3911); (3913, 3948); (3976, 3980);
   (4096, 4138); (4159, 4159); (4176, 4181); (4186, 4189); (4193, 4193);
   (4197, 4198); (4206, 4208); (4213, 4225); (4238, 4238); (4256, 4293);
   (4295, 4295); (4301, 4301); (4304, 4346); (4348, 4680); (4682, 4685);
   (4688, 4694); (4696, 4696); (4698, 4701); (4704, 4744); (4746, 4749);
   (4752, 4784); (4786, 4789); (4792, 4798); (4800, 4800); (4802, 4805);
   (4808, 4822); (4824, 4880); (4882, 4885); (4888, 4954); (4992, 5007);
   (5024, 5109); (5112, 5117); (5121, 5740); (5743, 5759); (5761, 5786);
   (5792, 5866); (5870, 5880); (5888, 5905); (5919, 5937); (5952, 5969);
   (5984, 5996); (5998, 6000); (6016, 6067); (6103, 6103); (6108, 6108);
   (6176, 6264); (6272, 6312); (6314, 6314); (6320, 6389); (6400, 6430);
   (6480, 6509); (6512, 6516); (6528, 6571); (6576, 6601); (6656, 6678);
   (6688, 6740); (6823, 6823); (6917, 6963); (6981, 6988); (7043, 7072);
   (7086, 7087); (7098, 7141); (7168, 7203); (7245, 7247); (7258, 7293);
   (7296, 7304); (7312, 7354); (7357, 7359); (7401, 7404); (7406, 7411);
   (7413, 7414); (7418, 7418); (7424, 7615); (7680, 7957); (7960, 7965);
   (7968, 8005); (8008, 8013); (8016, 8023); (8025, 8025); (8027, 8027);
   (8029, 8029); (8031, 8061); (8064, 8116); (8118, 8124); (8126, 8126);
   (8130, 8132); (8134, 8140); (8144, 8147); (8150, 8155); (8160, 8172);
   (8178, 8180); (8182, 8188); (8305, 8305); (8319, 8319); (8336, 8348);
   (8450, 8450); (8455, 8455); (8458, 8467); (8469, 8469); (8472, 8477);
   (8484, 8484); (8486, 8486); (8488, 8488); (8490, 8505); (8508, 8511);
   (8517, 8521); (8526, 8526); (8544, 8584); (11264, 11492); (11499, 11502);
   (11506, 11507); (11520, 11557); (11559, 11559); (11565, 11565); (11568, 11623);
   (11631, 11631); (11648, 11670); (11680, 11686); (11688, 11694); (11696, 11702);
   (11704, 11710); (11712, 11718); (11720, 11726); (11728, 11734); (11736, 11742);
   (12293, 12295); (12321, 12329); (12337, 12341); (12344, 12348); (12353, 12438);
   (12445, 12447); (12449, 12538); (12540, 12543); (12549, 12591); (12593, 12686);
   (12704, 12735); (12784, 12799); (13312, 19903); (19968, 42124); (42192, 42237);
   (42240, 42508); (42512, 42527); (42538, 42539); (42560, 42606); (42623, 42653);
   (42656, 42735); (42775, 42783); (42786, 42888); (42891, 42954); (42960, 42961);
   (42963, 42963); (42965, 42969); (42994, 43009); (43011, 43013); (43015, 43018);
   (43020, 43042); (43072, 43123); (43138, 43187); (43250, 43255); (43259, 43259);
   (43261, 43262); (43274, 43301); (43312, 43334); (43360, 43388); (43396, 43442);
   (43471, 43471); (43488, 43492); (43494, 43503); (43514, 43518); (43520, 43560);
   (43584, 43586); (43588, 43595); (43616, 43638); (43642, 43642); (43646, 43695);
   (43697, 43697); (43701, 43702); (43705, 43709); (43712, 43712); (43714, 43714);
   (43739, 43741); (43744, 43754); (43762, 43764); (43777, 43782); (43785, 43790);
   (43793, 43798); (43808, 43814); (43816, 43822); (43824, 43866); (43868, 43881);
   (43888, 44002); (44032, 55203); (55216, 55238); (55243, 55291); (63744, 64109);
   (64112, 64217); (64256, 64262); (64275, 64279); (64285, 64285); (64287, 64296);
   (64298, 64310); (64312, 64316); (64318, 64318); (64320, 64321); (64323, 64324);
   (64326, 64433); (64467, 64605); (64612, 64829); (64848, 64911); (64914, 64967);
   (65008, 65017); (65137, 65137); (65139, 65139); (65143, 65143); (65145, 65145);
   (65147, 65147); (65149, 65149); (65151, 65276); (65313, 65338); (65345, 65370);
   (65382, 65437); (65440, 65470); (65474, 65479); (65482, 65487); (65490, 65495);
   (65498, 65500); (65536, 65547); (65549, 65574); (65576, 65594); (65596, 65597);
   (65599, 65613); (65616, 65629); (65664, 65786); (65856, 65908); (66176, 66204);
   (66208, 66256); (66304, 66335); (66349, 66378); (66384, 66421); (66432, 66461);
   (66464, 66499); (66504, 66511); (66513, 66517); (66560, 66717); (66736, 66771);
   (66776, 66811); (66816, 66855); (66864, 66915); (66928, 66938); (66940, 66954);
   (66956, 66962); (66964, 66965); (66967, 66977); (66979, 66993); (66995, 67001);
   (67003, 67004); (67072, 67382); (67392, 67413); (67424, 67431); (67456, 67461);
   (67463, 67504); (67506, 67514); (67584, 67589); (67592, 67592); (67594, 67637);
   (67639, 67640); (67644, 67644); (67647, 67669); (67680, 67702); (67712, 67742);
   (67808, 67826); (67828, 67829); (67840, 67861); (67872, 67897); (67968, 68023);
   (68030, 68031); (68096, 68096); (68112, 68115); (68117, 68119); (68121, 68149);
   (68192, 68220); (68224, 68252); (68288, 68295); (68297, 68324); (68352, 68405);
   (68416, 68437); (68448, 68466); (68480, 68497); (68608, 68680); (68736, 68786);
   (68800, 68850); (68864, 68899); (69248, 69289); (69296, 69297); (69376, 69404);
   (69415, 69415); (69424, 69445); (69488, 69505); (69552, 69572); (69600, 69622);
   (69635, 69687); (69745, 69746); (69749, 69749); (69763, 69807); (69840, 69864);
   (69891, 69926); (69956, 69956); (69959, 69959); (69968, 70002); (70006, 70006);
   (70019, 70066); (70081, 70084); (70106, 70106); (70108, 70108); (70144, 70161);
   (70163, 70187); (70272, 70278); (70280, 70280); (70282, 70285); (70287, 70301);
   (70303, 70312); (70320, 70366); (70405, 70412); (70415, 70416); (70419, 70440);
   (70442, 70448); (70450, 70451); (70453, 70457); (70461, 70461); (70480, 70480);
   (70493, 70497); (70656, 70708); (70727, 70730); (70751, 70753); (70784, 70831);
   (70852, 70853); (70855, 70855); (71040, 71086); (71128, 71131); (71168, 71215);
   (71236, 71236); (71296, 71338); (71352, 71352); (71424, 71450); (71488, 71494);
   (71680, 71723); (71840, 71903); (71935, 71942); (71945, 71945); (71948, 71955);
   (71957, 71958); (71960, 71983); (71999, 71999); (72001, 72001); (72096, 72103);
   (72106, 72144); (72161, 72161); (72163, 72163); (72192, 72192); (72203, 72242);
   (72250, 72250); (72272, 72272); (72284, 72329); (72349, 72349); (72368, 72440);
   (72704, 72712); (72714, 72750); (72768, 72768); (72818, 72847); (72960, 72966);
   (72968, 72969); (72971, 73008); (73030, 73030); (73056, 73061); (73063, 73064);
   (73066, 73097); (73112, 73112); (73440, 73458); (73648, 73648); (73728, 74649);
   (74752, 74862); (74880, 75075); (77712, 77808); (77824, 78894); (82944, 83526);
   (92160, 92728); (92736, 92766); (92784, 92862); (92880, 92909); (92928, 92975);
   (92992, 92995); (93027, 93047); (93053, 93071); (93760, 93823); (93952, 94026);
   (94032, 94032); (94099, 94111); (94176, 94177); (94179, 94179); (94208, 100343);
   (100352, 101589); (101632, 101640); (110576, 110579); (110581, 110587); (110589, 110590);
   (110592, 110882); (110928, 110930); (110948, 110951); (110960, 111355); (113664, 113770);
   (113776, 113788); (113792, 113800); (113808, 113817); (119808, 119892); (119894, 119964);
   (119966, 119967); (119970, 119970); (119973, 119974); (119977, 119980); (119982, 119993);
   (119995, 119995); (119997, 120003); (120005, 120069); (120071, 120074); (120077, 120084);
   (120086, 120092); (120094, 120121); (120123, 120126); (120128, 120132); (120134, 120134);
   (120138, 120144); (120146, 120485); (120488, 120512); (120514, 120538); (120540, 120570);
   (120572, 120596); (120598, 120628); (120630, 120654); (120656, 120686); (120688, 120712);
   (120714, 120744); (120746, 120770); (120772, 120779); (122624, 122654); (123136, 123180);
   (123191, 123197); (123214, 123214); (123536, 123565); (123584, 123627); (124896, 124902);
   (124904, 124907); (124909, 124910); (124912, 124926); (124928, 125124); (125184, 125251);
   (125259, 125259); (126464, 126467); (126469, 126495); (126497, 126498); (126500, 126500);
   (126503, 126503); (126505, 126514); (126516, 126519); (126521, 126521); (126523, 126523);
   (126530, 126530); (126535, 126535); (126537, 126537); (126539, 126539); (126541, 126543);
   (126545, 126546); (126548, 126548); (126551, 126551); (126553, 126553); (126555, 126555);
   (126557, 126557); (126559, 126559); (126561, 126562); (126564, 126564); (126567, 126570);
   (126572, 126578); (126580, 126583); (126585, 126588); (126590, 126590); (126592, 126601);
   (126603, 126619); (126625, 126627); (126629, 126633); (126635, 126651); (131072, 173791);
   (173824, 177976); (177984, 178205); (178208, 183969); (183984, 191456); (194560, 195101);
   (196608, 201546)].

Definition xid_continue_rows : list (N * N) :=
  [(48, 57); (65, 90); (95, 95); (97, 122); (170, 170);
   (181, 181); (183, 183); (186, 186); (192, 214); (216, 246);
   (248, 705); (710, 721); (736, 740); (748, 748); (750, 750);
   (768, 884); (886, 887); (891, 893); (895, 895); (902, 906);
   (908, 908); (910, 929); (931, 1013); (1015, 1153); (1155, 1159);
   (1162, 1327); (1329, 1366); (1369, 1369); (1376, 1416); (1425, 1469);
   (1471, 1471); (1473, 1474); (1476, 1477); (1479, 1479); (1488, 1514);
   (1519, 1522); (1552, 1562); (1568, 1641); (1646, 1747); (1749, 1756);
   (1759, 1768); (1770, 1788); (1791, 1791); (1808, 1866); (1869, 1969);
   (1984, 2037); (2042, 2042); (2045, 2045); (2048, 2093); (2112, 2139);
   (2144, 2154); (2160, 2183); (2185, 2190); (2200, 2273); (2275, 2403);
   (2406, 2415); (2417, 2435); (2437, 2444); (2447, 2448); (2451, 2472);
   (2474, 2480); (2482, 2482); (2486, 2489); (2492, 2500); (2503, 2504);
   (2507, 2510); (2519, 2519); (2524, 2525); (2527, 2531); (2534, 2545);
   (2556, 2556); (2558, 2558); (2561, 2563); (2565, 2570); (2575, 2576);
   (2579, 2600); (2602, 2608); (2610, 2611); (2613, 2614); (2616, 2617);
   (2620, 2620); (2622, 2626); (2631, 2632); (2635, 2637); (2641, 2641);
   (2649, 2652); (2654, 2654); (2662, 2677); (2689, 2691); (2693, 2701);
   (2703, 2705); (2707, 2728); (2730, 2736); (2738, 2739); (2741, 2745);
   (2748, 2757); (2759, 2761); (2763, 2765); (2768, 2768); (2784, 2787);
   (2790, 2799); (2809, 2815); (2817, 2819); (2821, 2828); (2831, 2832);
   (2835, 2856); (2858, 2864); (2866, 2867); (2869, 2873); (2876, 2884);
   (2887, 2888); (2891, 2893); (2901, 2903); (2908, 2909); (2911, 2915);
   (2918, 2927); (2929, 2929); (2946, 2947); (2949, 2954); (2958, 2960);
   (2962, 2965); (2969, 2970); (2972, 2972); (2974, 2975); (2979, 2980);
   (2984, 2986); (2990, 3001); (3006, 3010); (3014, 3016); (3018, 3021);
   (3024, 3024); (3031, 3031); (3046, 3055); (3072, 3084); (3086, 3088);
   (3090, 3112); (3114, 3129); (3132, 3140); (3142, 3144); (3146, 3149);
   (3157, 3158); (3160, 3162); (3165, 3165); (3168, 3171); (3174, 3183);
   (3200, 3203); (3205, 3212); (3214, 3216); (3218, 3240); (3242, 3251);
   (3253, 3257); (3260, 3268); (3270, 3272); (3274, 3277); (3285, 3286);
   (3293, 3294); (3296, 3299); (3302, 3311); (3313, 3314); (3328, 3340);
   (3342, 3344); (3346, 3396); (3398, 3400); (3402, 3406); (3412, 3415);
   (3423, 3427); (3430, 3439); (3450, 3455); (3457, 3459); (3461, 3478);
   (3482, 3505); (3507, 3515); (3517, 3517); (3520, 3526); (3530, 3530);
   (3535, 3540); (3542, 3542); (3544, 3551); (3558, 3567); (3570, 3571);
   (3585, 3642); (3648, 3662); (3664, 3673); (3713, 3714); (3716, 3716);
   (3718, 3722); (3724, 3747); (3749, 3749); (3751, 3773); (3776, 3780);
   (3782, 3782); (3784, 3789); (3792, 3801); (3804, 3807); (3840, 3840);
   (3864, 3865); (3872, 3881); (3893, 3893); (3895, 3895); (3897, 3897);
   (3902, 3911); (3913, 3948); (3953, 3972); (3974, 3991); (3993, 4028);
   (4038, 4038); (4096, 4169); (4176, 4253); (4256, 4293); (4295, 4295);
   (4301, 4301); (4304, 4346); (4348, 4680); (4682, 4685); (4688, 4694);
   (4696, 4696); (4698, 4701); (4704, 4744); (4746, 4749); (4752, 4784);
   (4786, 4789); (4792, 4798); (4800, 4800); (4802, 4805); (4808, 4822);
   (4824, 4880); (4882, 4885); (4888, 4954); (4957, 4959); (4969, 4977);
   (4992, 5007); (5024, 5109); (5112, 5117); (5121, 5740); (5743, 5759);
   (5761, 5786); (5792, 5866); (5870, 5880); (5888, 5909); (5919, 5940);
   (5952, 5971); (5984, 5996); (5998, 6000); (6002, 6003); (6016, 6099);
   (6103, 6103); (6108, 6109); (6112, 6121); (6155, 6157); (6159, 6169);
   (6176, 6264); (6272, 6314); (6320, 6389); (6400, 6430); (6432, 6443);
   (6448, 6459); (6470, 6509); (6512, 6516); (6528, 6571); (6576, 6601);
   (6608, 6618); (6656, 6683); (6688, 6750); (6752, 6780); (6783, 6793);
   (6800, 6809); (6823, 6823); (6832, 6845); (6847, 6862); (6912, 6988);
   (6992, 7001); (7019, 7027); (7040, 7155); (7168, 7223); (7232, 7241);
   (7245, 7293); (7296, 7304); (7312, 7354); (7357, 7359); (7376, 7378);
   (7380, 7418); (7424, 7957); (7960, 7965); (7968, 8005); (8008, 8013);
   (8016, 8023); (8025, 8025); (8027, 8027); (8029, 8029); (8031, 8061);
   (8064, 8116); (8118, 8124); (8126, 8126); (8130, 8132); (8134, 8140);
   (8144, 8147); (8150, 8155); (8160, 8172); (8178, 8180); (8182, 8188);
   (8255, 8256); (8276, 8276); (8305, 8305); (8319, 8319); (8336, 8348);
   (8400, 8412); (8417, 8417); (8421, 8432); (8450, 8450); (8455, 8455);
   (8458, 8467); (8469, 8469); (8472, 8477); (8484, 8484); (8486, 8486);
   (8488, 8488); (8490, 8505); (8508, 8511); (8517, 8521); (8526, 8526);
   (8544, 8584); (11264, 11492); (11499, 11507); (11520, 11557); (11559, 11559);
   (11565, 11565); (11568, 11623); (11631, 11631); (11647, 11670); (11680, 11686);
   (11688, 11694); (11696, 11702); (11704, 11710); (11712, 11718); (11720, 11726);
   (11728, 11734); (11736, 11742); (11744, 11775); (12293, 12295); (12321, 12335);
   (12337, 12341); (12344, 12348); (12353, 12438); (12441, 12442); (12445, 12447);
   (12449, 12538); (12540, 12543); (12549, 12591); (12593, 12686); (12704, 12735);
   (12784, 12799); (13312, 19903); (19968, 42124); (42192, 42237); (42240, 42508);
   (42512, 42539); (42560, 42607); (42612, 42621); (42623, 42737); (42775, 42783);
   (42786, 42888); (42891, 42954); (42960, 42961); (42963, 42963); (42965, 42969);
   (42994, 43047); (43052, 43052); (43072, 43123); (43136, 43205); (43216, 43225);
   (43232, 43255); (43259, 43259); (43261, 43309); (43312, 43347); (43360, 43388);
   (43392, 43456); (43471, 43481); (43488, 43518); (43520, 43574); (43584, 43597);
   (43600, 43609); (43616, 43638); (43642, 43714); (43739, 43741); (43744, 43759);
   (43762, 43766); (43777, 43782); (43785, 43790); (43793, 43798); (43808, 43814);
   (43816, 43822); (43824, 43866); (43868, 43881); (43888, 44010); (44012, 44013);
   (44016, 44025); (44032, 55203); (55216, 55238); (55243, 55291); (63744, 64109);
   (64112, 64217); (64256, 64262); (64275, 64279); (64285, 64296); (64298, 64310);
   (64312, 64316); (64318, 64318); (64320, 64321); (64323, 64324); (64326, 64433);
   (64467, 64605); (64612, 64829); (64848, 64911); (64914, 64967); (65008, 65017);
   (65024, 65039); (65056, 65071); (65075, 65076); (65101, 65103); (65137, 65137);
   (65139, 65139); (65143, 65143); (65145, 65145); (65147, 65147); (65149, 65149);
   (65151, 65276); (65296, 65305); (65313, 65338); (65343, 65343); (65345, 65370);
   (65382, 65470); (65474, 65479); (65482, 65487); (65490, 65495); (65498, 65500);
   (65536, 65547); (65549, 65574); (65576, 65594); (65596, 65597); (65599, 65613);
   (65616, 65629); (65664, 65786); (65856, 65908); (66045, 66045); (66176, 66204);
   (66208, 66256); (66272, 66272); (66304, 66335); (66349, 66378); (66384, 66426);
   (66432, 66461); (66464, 66499); (66504, 66511); (66513, 66517); (66560, 66717);
   (66720, 66729); (66736, 66771); (66776, 66811); (66816, 66855); (66864, 66915);
   (66928, 66938); (66940, 66954); (66956, 66962); (66964, 66965); (66967, 66977);
   (66979, 66993); (66995, 67001); (67003, 67004); (67072, 67382); (67392, 67413);
   (67424, 67431); (67456, 67461); (67463, 67504); (67506, 67514); (67584, 67589);
   (67592, 67592); (67594, 67637); (67639, 67640); (67644, 67644); (67647, 67669);
   (67680, 67702); (67712, 67742); (67808, 67826); (67828, 67829); (67840, 67861);
   (67872, 67897); (67968, 68023); (68030, 68031); (68096, 68099); (68101, 68102);
   (68108, 68115); (68117, 68119); (68121, 68149); (68152, 68154); (68159, 68159);
   (68192, 68220); (68224, 68252); (68288, 68295); (68297, 68326); (68352, 68405);
   (68416, 68437); (68448, 68466); (68480, 68497); (68608, 68680); (68736, 68786);
   (68800, 68850); (68864, 68903); (68912, 68921); (69248, 69289); (69291, 69292);
   (69296, 69297); (69376, 69404); (69415, 69415); (69424, 69456); (69488, 69509);
   (69552, 69572); (69600, 69622); (69632, 69702); (69734, 69749); (69759, 69818);
   (69826, 69826); (69840, 69864); (69872, 69881); (69888, 69940); (69942, 69951);
   (69956, 69959); (69968, 70003); (70006, 70006); (70016, 70084); (70089, 70092);
   (70094, 70106); (70108, 70108); (70144, 70161); (70163, 70199); (70206, 70206);
   (70272, 70278); (70280, 70280); (70282, 70285); (70287, 70301); (70303, 70312);
   (70320, 70378); (70384, 70393); (70400, 70403); (70405, 70412); (70415, 70416);
   (70419, 70440); (70442, 70448); (70450, 70451); (70453, 70457); (70459, 70468);
   (70471, 70472); (70475, 70477); (70480, 70480); (70487, 70487); (70493, 70499);
   (70502, 70508); (70512, 70516); (70656, 70730); (70736, 70745); (70750, 70753);
   (70784, 70853); (70855, 70855); (70864, 70873); (71040, 71093); (71096, 71104);
   (71128, 71133); (71168, 71232); (71236, 71236); (71248, 71257); (71296, 71352);
   (71360, 71369); (71424, 71450); (71453, 71467); (71472, 71481); (71488, 71494);
   (71680, 71738); (71840, 71913); (71935, 71942); (71945, 71945); (71948, 71955);
   (71957, 71958); (71960, 71989); (71991, 71992); (71995, 72003); (72016, 72025);
   (72096, 72103); (72106, 72151); (72154, 72161); (72163, 72164); (72192, 72254);
   (72263, 72263); (72272, 72345); (72349, 72349); (72368, 72440); (72704, 72712);
   (72714, 72758); (72760, 72768); (72784, 72793); (72818, 72847); (72850, 72871);
   (72873, 72886); (72960, 72966); (72968, 72969); (72971, 73014); (73018, 73018);
   (73020, 73021); (73023, 73031); (73040, 73049); (73056, 73061); (73063, 73064);
   (73066, 73102); (73104, 73105); (73107, 73112); (73120, 73129); (73440, 73462);
   (73648, 73648); (73728, 74649); (74752, 74862); (74880, 75075); (77712, 77808);
   (77824, 78894); (82944, 83526); (92160, 92728); (92736, 92766); (92768, 92777);
   (92784, 92862); (92864, 92873); (92880, 92909); (92912, 92916); (92928, 92982);
   (92992, 92995); (93008, 93017); (93027, 93047); (93053, 93071); (93760, 93823);
   (93952, 94026); (94031, 94087); (94095, 94111); (94176, 94177); (94179, 94180);
   (94192, 94193); (94208, 100343); (100352, 101589); (101632, 101640); (110576, 110579);
   (110581, 110587); (110589, 110590); (110592, 110882); (110928, 110930); (110948, 110951);
   (110960, 111355); (113664, 113770); (113776, 113788); (113792, 113800); (113808, 113817);
   (113821, 113822); (118528, 118573); (118576, 118598); (119141, 119145); (119149, 119154);
   (119163, 119170); (119173, 119179); (119210, 119213); (119362, 119364); (119808, 119892);
   (119894, 119964); (119966, 119967); (119970, 119970); (119973, 119974); (119977, 119980);
   (119982, 119993); (119995, 119995); (119997, 120003); (120005, 120069); (120071, 120074);
   (120077, 120084); (120086, 120092); (120094, 120121); (120123, 120126); (120128, 120132);
   (120134, 120134); (120138, 120144); (120146, 120485); (120488, 120512); (120514, 120538);
   (120540, 120570); (120572, 120596); (120598, 120628); (120630, 120654); (120656, 120686);
   (120688, 120712); (120714, 120744); (120746, 120770); (120772, 120779); (120782, 120831);
   (121344, 121398); (121403, 121452); (121461, 121461); (121476, 121476); (121499, 121503);
   (121505, 121519); (122624, 122654); (122880, 122886); (122888, 122904); (122907, 122913);
   (122915, 122916); (122918, 122922); (123136, 123180); (123184, 123197); (123200, 123209);
   (123214, 123214); (123536, 123566); (123584, 123641); (124896, 124902); (124904, 124907);
   (124909, 124910); (124912, 124926); (124928, 125124); (125136, 125142); (125184, 125259);
   (125264, 125273); (126464, 126467); (126469, 126495); (126497, 126498); (126500, 126500);
   (126503, 126503); (126505, 126514); (126516, 126519); (126521, 126521); (126523, 126523);
   (126530, 126530); (126535, 126535); (126537, 126537); (126539, 126539); (126541, 126543);
   (126545, 126546); (126548, 126548); (126551, 126551); (126553, 126553); (126555, 126555);
   (126557, 126557); (126559, 126559); (126561, 126562); (126564, 126564); (126567, 126570);
   (126572, 126578); (126580, 126583); (126585, 126588); (126590, 126590); (126592, 126601);
   (126603, 126619); (126625, 126627); (126629, 126633); (126635, 126651); (130032, 130041);
   (131072, 173791); (173824, 177976); (177984, 178205); (178208, 183969); (183984, 191456);
   (194560, 195101); (196608, 201546); (917760, 917999)].

(** [str.isidentifier] *)
Definition is_identifier (name : text) : bool :=
  match name with
  | [] => false
  | c :: rest =>
      Unicode.in_rows xid_start_rows c
      && forallb (Unicode.in_rows xid_continue_rows) rest
  end.

(** The runs of decimal digits of the scripts, each from its zero on. *)
Definition digit_rows : list (N * N) :=
  [(48, 57); (1632, 1641); (1776, 1785); (1984, 1993); (2406, 2415);
   (2534, 2543); (2662, 2671); (2790, 2799); (2918, 2927); (3046, 3055);
   (3174, 3183); (3302, 3311); (3430, 3439); (3558, 3567); (3664, 3673);
   (3792, 3801); (3872, 3881); (4160, 4169); (4240, 4249); (6112, 6121);
   (6160, 6169); (6470, 6479); (6608, 6617); (6784, 6793); (6800, 6809);
   (6992, 7001); (7088, 7097); (7232, 7241); (7248, 7257); (42528, 42537);
   (43216, 43225); (43264, 43273); (43472, 43481); (43504, 43513); (43600, 43609);
   (44016, 44025); (65296, 65305); (66720, 66729); (68912, 68921); (69734, 69743);
   (69872, 69881); (69942, 69951); (70096, 70105); (70384, 70393); (70736, 70745);
   (70864, 70873); (71248, 71257); (71360, 71369); (71472, 71481); (71904, 71913);
   (72016, 72025); (72784, 72793); (73040, 73049); (73120, 73129); (92768, 92777);
   (92864, 92873); (93008, 93017); (120782, 120831); (123200, 123209); (123632, 123641);
   (125264, 125273); (130032, 130041)].

(** [Py_UNICODE_TODECIMAL] *)
Definition decimal (c : N) : option N :=
  match find (fun row => (fst row <=? c) && (c <=? snd row)) digit_rows with
  | Some row => Some ((c - fst row) mod 10)
  | None => None
  end.

(** What [int] makes of a character of a [str] before it reads the number:
    a blank outside ASCII is a space, a decimal digit is its ASCII digit, and
    any other character outside ASCII is one that no number has. *)
Definition to_ascii (c : N) : N :=
  if c <? 127 then c
  else if Re.is_space c then 32
  else match decimal c with
       | Some v => 48 + v
       | None => 63
       end.

(** [Py_ISSPACE] *)
Definition is_c_space (c : N) : bool := (c =? 32) || (9 <=? c) && (c <=? 13).

Fixpoint lstrip (s : text) : text :=
  match s with
  | c :: s' => if is_c_space c then lstrip s' else s
  | [] => []
  end.

Definition unsign (s : text) : text :=
  match s with
  | c :: s' => if (c =? 43) || (c =? 45) then s' else s
  | [] => []
  end.

(** The digits of the number, with single underscores between them: how many
    they are, whether all of them are 0, and what follows them.  [None] when
    an underscore stands first, last or next to another. *)
Fixpoint digits (s : text) (after_underscore : bool)
    : option (nat * bool * text) :=
  match s with
  | c :: s' =>
      if Re.is_digit c then
        match digits s' false with
        | Some (n, zero, rest) => Some (S n, (c =? 48) && zero, rest)
        | None => None
        end
      else if c =? 95 then
        if after_underscore then None else digits s' true
      else if after_underscore then None else Some (O, true, s)
  | [] => if after_underscore then None else Some (O, true, [])
  end.

(** [int(name) == 0]: blanks, a sign, at least one digit and at most 4300
    (the default of [sys.get_int_max_str_digits]), all 0, blanks.  Reading a
    text without digits, or with more than 4300, raises [ValueError]. *)
Definition int_is_zero (name : text) : bool :=
  match digits (unsign (lstrip (map to_ascii name))) true with
  | Some (n, zero, rest) =>
      zero && (n <=? 4300)%nat && forallb is_c_space rest
  | None => false
  end.

Definition cpython311 : release :=
  Release (fun name =>
             if is_identifier name then inl IndexError
             else if int_is_zero name then inr tt
             else inl ReError).

End Interpreter.

(** ** Files as text: [open(path, mode, encoding='utf-8')] *)

Module Codec.

Local Open Scope N_scope.

Definition bytes := list byte.

Definition is_cont (b : N) : bool := (128 <=? b) && (b <=? 191).
Definition is_surrogate (cp : N) : bool := (55296 <=? cp) && (cp <=? 57343).

(** Strict UTF-8: no stray or missing continuation byte, no overlong form,
    no surrogate, nothing above U+10FFFF. *)
Fixpoint utf8_decode (bs : list N) : option text :=
  match bs with
  | [] => Some []
  | b0 :: r0 =>
      if b0 <? 128 then option_map (cons b0) (utf8_decode r0)
      else if (194 <=? b0) && (b0 <=? 223) then
        match r0 with
        | b1 :: r1 =>
            if is_cont b1
            then option_map (cons ((b0 - 192) * 64 + (b1 - 128))) (utf8_decode r1)
            else None
        | _ => None
        end
      else if (224 <=? b0) && (b0 <=? 239) then
        match r0 with
        | b1 :: b2 :: r2 =>
            let cp := (b0 - 224) * 4096 + (b1 - 128) * 64 + (b2 - 128) in
            if is_cont b1 && is_cont b2 && (2048 <=? cp) && negb (is_surrogate cp)
            then option_map (cons cp) (utf8_decode r2)
            else None
        | _ => None
        end
      else if (240 <=? b0) && (b0 <=? 244) then
        match r0 with
        | b1 :: b2 :: b3 :: r3 =>
            let cp := (b0 - 240) * 262144 + (b1 - 128) * 4096
                      + (b2 - 128) * 64 + (b3 - 128) in
            if is_cont b1 && is_cont b2 && is_cont b3
               && (65536 <=? cp) && (cp <=? 1114111)
            then option_map (cons cp) (utf8_decode r3)
            else None
        | _ => None
        end
      else None
  end.

Definition utf8_encode_char (cp : N) : option (list N) :=
  if cp <? 128 then Some [cp]
  else if cp <? 2048 then Some [192 + cp / 64; 128 + cp mod 64]
  else if cp <? 65536 then
    if is_surrogate cp then None
    else Some [224 + cp / 4096; 128 + (cp / 64) mod 64; 128 + cp mod 64]
  else if cp <=? 1114111 then
    Some [240 + cp / 262144; 128 + (cp / 4096) mod 64;
          128 + (cp / 64) mod 64; 128 + cp mod 64]
  else None.

Fixpoint utf8_encode (t : text) : option (list N) :=
  match t with
  | [] => Some []
  | cp :: t' =>
      match utf8_encode_char cp, utf8_encode t' with
      | Some b, Some bs => Some (b ++ bs)
      | _, _ => None
      end
  end.

(** Reading in text mode translates CR LF and a lone CR to LF. *)
Fixpoint universal_newlines (t : text) : text :=
  match t with
  | [] => []
  | c :: t' =>
      if c =? 13 then
        match t' with
        | d :: t'' =>
            if d =? 10 then 10 :: universal_newlines t''
            else 10 :: universal_newlines t'
        | [] => [10]
        end
      else c :: universal_newlines t'
  end.

Definition byte_of_N (n : N) : byte :=
  match Byte.of_N n with
  | Some b => b
  | None => x00
  end.

(** [f.read()] of a file opened with [encoding='utf-8']; [None] is
    [UnicodeDecodeError]. *)
Definition read_text (content : bytes) : option text :=
  option_map universal_newlines (utf8_decode (map Byte.to_N content)).

(** What [f.write(t)] puts in a file opened with ['w'] and
    [encoding='utf-8'] (line separator LF); [None] is [UnicodeEncodeError]. *)
Definition write_text (t : text) : option bytes :=
  option_map (map byte_of_N) (utf8_encode t).

End Codec.

(** ** [os.path] (POSIX) *)

Module OsPath.

Local Open Scope Z_scope.

Definition SEP : N := 47.
Definition EXTSEP : N := 46.

(** [p.rfind(c)]: the index of the last [c] in [p], or -1. *)
Fixpoint rfind (c : N) (p : text) : Z :=
  match p with
  | [] => -1
  | x :: p' =>
      let r := rfind c p' in
      if 0 <=? r then r + 1
      else if (x =? c)%N then 0
      else -1
  end.

(** [p[i:j]] for indices that are not negative. *)
Definition slice (p : text) (i j : Z) : text :=
  firstn (Z.to_nat j - Z.to_nat i) (skipn (Z.to_nat i) p).

(** [genericpath._splitext]: the extension starts at the last dot of the last
    component, if a character that is no dot stands before it there. *)
Definition splitext (p : text) : text * text :=
  let sepIndex := rfind SEP p in
  let dotIndex := rfind EXTSEP p in
  if (sepIndex <? dotIndex)
     && existsb (fun c => negb (c =? EXTSEP)%N) (slice p (sepIndex + 1) dotIndex)
  then (firstn (Z.to_nat dotIndex) p, skipn (Z.to_nat dotIndex) p)
  else (p, []).

Fixpoint rstrip (c : N) (p : text) : text :=
  match p with
  | [] => []
  | x :: p' =>
      match rstrip c p' with
      | [] => if (x =? c)%N then [] else [x]
      | r => x :: r
      end
  end.

(** [posixpath.dirname]. *)
Definition dirname (p : text) : text :=
  let head := firstn (Z.to_nat (rfind SEP p + 1)) p in
  if forallb (N.eqb SEP) head then head else rstrip SEP head.

End OsPath.

(** ** The pipeline: [fill_docx_and_convert] *)

Definition path := list text.

(** A file of the unpacked container: its path below the temporary
    directory, component by component, and its bytes. *)
Record entry : Type := Entry { relpath : path; content : Codec.bytes }.

Record completed_process : Type :=
  Completed { returncode : Z; stdout : text; stderr : text }.

(** What the function does to the world outside, in the order it does it. *)
Inductive event : Type :=
| EvRemove (p : text)                         (* os.remove(p) done *)
| EvMkdtemp (dir : text)
| EvExtract (archive dir : text)
| EvWritePart (p : path) (b : Codec.bytes)    (* a part written back *)
| EvZipOpen (p : text)
| EvZipWrite (p : path) (b : Codec.bytes)     (* zout.write(fullpath, relpath) *)
| EvRmtree (dir : text)                       (* shutil.rmtree(dir) called *)
| EvRun (args : list text)                    (* subprocess.run(args) called *)
| EvLogInfo (msg : text)
| EvLogError (e : exn).

(** The world the function runs in: the interpreter, the files that are
    there when the function is called, and what each call to the operating
    system answers.  [None] and [inr] are the calls that succeed.  The
    renderer is given the files that are there when it is started and
    answers with the files that are there when it has ended. *)
Record world : Type := World {
  python : release;
  files : list text;
  os_remove : text -> option exn;
  mkdtemp : exn + text;
  extractall : text -> exn + list entry;
  open_read : path -> option exn;
  open_write : path -> option exn;
  zip_open : text -> option exn;
  zip_write : path -> option exn;
  rmtree : text -> option exn;
  run : list text -> list text -> exn + (completed_process * list text)
}.

(** [os.path.exists(p)] among the files [fs]. *)
Definition there (fs : list text) (p : text) : bool := existsb (text_eqb p) fs.

(** The files [fs] after [p] has been removed. *)
Definition without (p : text) (fs : list text) : list text :=
  filter (fun q => negb (text_eqb p q)) fs.

(** Computations that log events and may raise. *)
Definition M (A : Type) : Type := (list event * (exn + A))%type.

Definition ret {A} (a : A) : M A := ([], inr a).
Definition raise {A} (e : exn) : M A := ([], inl e).
Definition emit (ev : event) : M unit := ([ev], inr tt).

Definition bind {A B} (m : M A) (k : A -> M B) : M B :=
  match m with
  | (evs, inl e) => (evs, inl e)
  | (evs, inr a) => let '(evs', r) := k a in (evs ++ evs', r)
  end.

Notation "x <- m ;; k" := (bind m (fun x => k))
  (at level 61, m at next level, right associativity).
Notation "m ;;; k" := (bind m (fun _ => k))
  (at level 61, right associativity).

(** [try: body  except Exception: pass] *)
Definition try_pass (body : M unit) : M unit :=
  match body with
  | (evs, _) => (evs, inr tt)
  end.

(** The same for a body that hands on what it made, with [otherwise] for
    what is there when the body raised. *)
Definition try_or {A} (otherwise : A) (body : M A) : M A :=
  match body with
  | (evs, inl _) => (evs, inr otherwise)
  | (evs, inr a) => (evs, inr a)
  end.

(** [try: body  finally: cleanup].  An exception of [cleanup] replaces the
    outcome of [body]. *)
Definition try_finally {A} (body : M A) (cleanup : M unit) : M A :=
  let '(evs, r) := body in
  match cleanup with
  | (evs', inl e) => (evs ++ evs', inl e)
  | (evs', inr _) => (evs ++ evs', r)
  end.

Fixpoint mapM {A B} (f : A -> M B) (l : list A) : M (list B) :=
  match l with
  | [] => ret []
  | a :: l' => b <- f a ;; bs <- mapM f l' ;; ret (b :: bs)
  end.

Definition events {A} (m : M A) : list event := fst m.
Definition result {A} (m : M A) : exn + A := snd m.

Definition call (answer : option exn) : M unit :=
  match answer with
  | Some e => raise e
  | None => ret tt
  end.

Section Pipeline.

Variable w : world.

(** Lines 50-54 and 56-60: an old file of that name is removed, and whatever
    goes wrong with that is ignored.  The files that are there afterwards are
    handed on. *)
Definition remove_if_exists (fs : list text) (p : text) : M (list text) :=
  try_or fs
    (if there fs p
     then call (os_remove w p) ;;; emit (EvRemove p) ;;; ret (without p fs)
     else ret fs).

(** Line 72, [fname.lower().endswith('.xml')]: no character outside ASCII
    has [.], [x], [m] or [l] last in its lower case. *)
Definition ends_with_xml (fname : text) : bool :=
  text_eqb (map Re.ascii_lower (skipn (length fname - 4) fname)) (str ".xml")
  && (4 <=? length fname)%nat.

(** The files [os.walk(word_dir)] reaches: those below [word/]. *)
Definition in_word_dir (p : path) : bool :=
  match p with
  | d :: _ :: _ => text_eqb d (str "word")
  | _ => false
  end.

(** The body of the loop of lines 70-107 for one file of the tree.  Only
    opening and reading are inside the [try]: an exception of [re.sub]
    leaves the loop. *)
Definition process_part (data : list (text * text)) (e : entry) : M entry :=
  if in_word_dir (relpath e) && ends_with_xml (last (relpath e) []) then
    match open_read w (relpath e), Codec.read_text (content e) with
    | None, Some xml =>
        match substitute (python w) data xml with
        | inl ex => raise ex
        | inr new_xml =>
            if text_eqb new_xml xml then ret e
            else
              call (open_write w (relpath e)) ;;;
              match Codec.write_text new_xml with
              | None => raise UnicodeEncodeError
              | Some b =>
                  emit (EvWritePart (relpath e) b) ;;;
                  ret (Entry (relpath e) b)
              end
        end
    | _, _ => ret e                 (* except Exception: continue *)
    end
  else ret e.

(** Lines 110-115: every file of the tree goes into the new archive under
    its relative path. *)
Definition repack (output_docx : text) (tree : list entry) : M unit :=
  call (zip_open w output_docx) ;;;
  emit (EvZipOpen output_docx) ;;;
  mapM (fun e => call (zip_write w (relpath e)) ;;;
                 emit (EvZipWrite (relpath e) (content e))) tree ;;;
  ret tt.

Definition libreoffice_args (output_docx : text) : list text :=
  [str "libreoffice"; str "--headless"; str "--convert-to"; str "pdf";
   str "--outdir"; OsPath.dirname output_docx; output_docx].

(** Lines 122-145, with the files [fs] that are there when the renderer is
    started.  The message of the [RuntimeError] has the return code in it and
    nothing else of the process. *)
Definition convert (fs : list text) (output_docx output_pdf : text) : M unit :=
  emit (EvRun (libreoffice_args output_docx)) ;;;
  match run w (libreoffice_args output_docx) fs with
  | inl FileNotFoundError =>
      emit (EvLogError FileNotFoundError) ;;; raise FileNotFoundError
  | inl e => raise e
  | inr (proc, fs') =>
      emit (EvLogInfo (stdout proc)) ;;;
      emit (EvLogInfo (stderr proc)) ;;;
      if negb (returncode proc =? 0)%Z || negb (there fs' output_pdf)
      then emit (EvLogError (RuntimeError (returncode proc))) ;;;
           raise (RuntimeError (returncode proc))
      else ret tt
  end.

(** Lines 65-115, the body of the [try], with the files [fs] that are there
    when it starts: unpack, substitute in the parts, pack again.  An archive
    that is not there cannot be opened. *)
Definition unpack_substitute_repack (fs : list text)
    (input_docx output_docx tempdir : text) (data : list (text * text))
    : M unit :=
  tree <- (if there fs input_docx then
             match extractall w input_docx with
             | inl e => raise e
             | inr tree => emit (EvExtract input_docx tempdir) ;;; ret tree
             end
           else raise FileNotFoundError) ;;
  tree' <- mapM (process_part data) tree ;;
  repack output_docx tree'.

Definition fill_docx_and_convert (input_docx output_docx : text)
    (data : list (text * text)) : M (text * text) :=
  fs1 <- remove_if_exists (files w) output_docx ;;
  let output_pdf := fst (OsPath.splitext output_docx) ++ str ".pdf" in
  fs2 <- remove_if_exists fs1 output_pdf ;;
  tempdir <- match mkdtemp w with
             | inl e => raise e
             | inr d => emit (EvMkdtemp d) ;;; ret d
             end ;;
  try_finally
    (unpack_substitute_repack fs2 input_docx output_docx tempdir data)
    (emit (EvRmtree tempdir) ;;; call (rmtree w tempdir)) ;;;
  convert (output_docx :: fs2) output_docx output_pdf ;;;
  ret (output_docx, output_pdf).

End Pipeline.

(** The files that are there after lines 50-54 or 56-60 for the path [p]. *)
Definition cleared (w : world) (fs : list text) (p : text) : list text :=
  if there fs p then
    match os_remove w p with
    | None => without p fs
    | Some _ => fs
    end
  else fs.

(** Line 55: the path of the converted file. *)
Definition pdf_path (output_docx : text) : text :=
  fst (OsPath.splitext output_docx) ++ str ".pdf".

(** The files that are there when the [try] of line 64 starts. *)
Definition before_unpack (w : world) (output_docx : text) : list text :=
  cleared w (cleared w (files w) output_docx) (pdf_path output_docx).

(** ** Observations on a run *)

Definition is_rmtree (ev : event) : bool :=
  match ev with
  | EvRmtree _ => true
  | _ => false
  end.

Definition is_run (ev : event) : bool :=
  match ev with
  | EvRun _ => true
  | _ => false
  end.

(** The calls of [shutil.rmtree] in a run. *)
Definition rmtree_calls (evs : list event) : list event := filter is_rmtree evs.

(** ** Sample runs *)

Module Sample.

Definition template : text := str "/srv/bot/MDO.docx".
Definition out_docx : text := str "/tmp/tmpk3xq.docx".
Definition out_pdf : text := str "/tmp/tmpk3xq.pdf".
Definition scratch : text := str "/tmp/tmp8l2n".

(** A small container: a part with two placeholders, a part that is no
    UTF-8 though its name ends in [.xml], and a part outside [word/]. *)
Definition document_xml : entry :=
  Entry [str "word"; str "document.xml"]
        (list_byte_of_string "<w:t>{{NAME}}</w:t><w:t>{{ date }}</w:t>").

Definition blob_xml : entry :=
  Entry [str "word"; str "embeddings"; str "blob.XML"] [xff; xfe; x00; x41].

Definition content_types : entry :=
  Entry [str "[Content_Types].xml"]
        (list_byte_of_string "<Types>{{NAME}}</Types>").

Definition files : list entry := [document_xml; blob_xml; content_types].

(** A part that reads as text and has no placeholder. *)
Definition styles_xml : entry :=
  Entry [str "word"; str "styles.xml"]
        (list_byte_of_string "<w:styles><w:style w:styleId='a'/></w:styles>").


Definition data : list (text * text) :=
  [(str "NAME", str "MV TEST"); (str "DATE", str "28-MAY-2025")].

(** The renderer writes the converted file and ends with status 0. *)
Definition renders (args fs : list text)
    : exn + (completed_process * list text) :=
  inr (Completed 0 [] [], out_pdf :: fs).

(** Every call succeeds; old output files are there and are removed. *)
Definition calm : world :=
  World Interpreter.cpython311 [template; out_docx; out_pdf]
        (fun _ => None) (inr scratch) (fun _ => inr files)
        (fun _ => None) (fun _ => None) (fun _ => None) (fun _ => None)
        (fun _ => None) renders.

(** The archive cannot be read, and the scratch directory cannot be
    removed. *)
Definition bad_archive_bad_cleanup : world :=
  World Interpreter.cpython311 [template]
        (fun _ => None) (inr scratch) (fun _ => inl BadZipFile)
        (fun _ => None) (fun _ => None) (fun _ => None) (fun _ => None)
        (fun _ => Some (OSError 39)) renders.

(** The old output files cannot be removed. *)
Definition stuck_outputs : world :=
  World Interpreter.cpython311 [template; out_docx; out_pdf]
        (fun _ => Some (OSError 13)) (inr scratch) (fun _ => inr files)
        (fun _ => None) (fun _ => None) (fun _ => None) (fun _ => None)
        (fun _ => None) renders.

(** The output archive cannot be created. *)
Definition no_destination : world :=
  World Interpreter.cpython311 [template]
        (fun _ => None) (inr scratch) (fun _ => inr files)
        (fun _ => None) (fun _ => None) (fun _ => Some (OSError 13))
        (fun _ => None) (fun _ => None) renders.

(** The renderer runs and fails, with the diagnostics given, and writes
    nothing. *)
Definition renderer_fails (out err : text) : world :=
  World Interpreter.cpython311 [template]
        (fun _ => None) (inr scratch) (fun _ => inr files)
        (fun _ => None) (fun _ => None) (fun _ => None) (fun _ => None)
        (fun _ => None) (fun _ fs => inr (Completed 1 out err, fs)).

(** The renderer is not installed. *)
Definition renderer_missing : world :=
  World Interpreter.cpython311 [template]
        (fun _ => None) (inr scratch) (fun _ => inr files)
        (fun _ => None) (fun _ => None) (fun _ => None) (fun _ => None)
        (fun _ => None) (fun _ _ => inl FileNotFoundError).

End Sample.

(** ** Specification-side notions *)

Module ReSpec.
Import Re.

(** The words a pattern matches, without the order of the attempts. *)
Fixpoint lang (r : regex) (m : text) : Prop :=
  match r with
  | Eps => m = []
  | Lit c => exists t, m = [t] /\ lit_ignore c t = true
  | NotLit c => exists t, m = [t] /\ lit_ignore c t = false
  | Space => exists t, m = [t] /\ is_space t = true
  | Cat r1 r2 => exists m1 m2, m = m1 ++ m2 /\ lang r1 m1 /\ lang r2 m2
  | Star r =>
      exists ms, m = concat ms /\ Forall (fun x => x <> [] /\ lang r x) ms
  | Plus r =>
      exists m1 ms, m = m1 ++ concat ms /\ lang r m1
                    /\ Forall (fun x => x <> [] /\ lang r x) ms
  | Opt r => m = [] \/ lang r m
  end.

(** The parsed form of [<\/?[^>]+>]. *)
Definition tag_regex : regex :=
  seq_of [Lit LT; Opt (Lit SLASH); Plus (NotLit GT); Lit GT].

(** The parsed form of [\s*(?:<\/?[^>]+>)*\s*]. *)
Definition gap_items : list regex :=
  [Star Space; Star tag_regex; Star Space].

(** A pattern of the source with the key as a run of literals. *)
Definition placeholder_regex (opening : list regex) (key : text) : regex :=
  seq_of (opening ++ gap_items ++ map Lit key ++ gap_items
          ++ [Lit RBRACE; Lit RBRACE]).

(** A markup-tag fragment: [<], one or more characters other than [>], [>]. *)
Definition is_tag (t : text) : Prop :=
  exists body, t = LT :: body ++ [GT] /\ body <> []
               /\ Forall (fun c => c <> GT) body.

Definition is_blank (ws : text) : Prop :=
  Forall (fun c => is_space c = true) ws.

(** What may stand between a delimiter and the key: whitespace, tag
    fragments one after the other, whitespace. *)
Definition is_gap (g : text) : Prop :=
  exists w1 tags w2, g = w1 ++ concat tags ++ w2
                     /\ is_blank w1 /\ Forall is_tag tags /\ is_blank w2.

(** The character [t] is the character [c] up to letter case: the same
    character, or, when [c] is a letter with case, a character with the same
    lower-case form, or with a lower-case form that shares its upper-case
    form (as the long s does with [s]). *)
Definition same_letter (c t : N) : Prop :=
  t = c
  \/ (Unicode.iscased c = true
      /\ (Unicode.tolower t = Unicode.tolower c
          \/ In (Unicode.tolower t)
                (Unicode.extra_cases (Unicode.tolower c)))).

(** The key as it is written in the text, in any letter case. *)
Definition same_key (key written : text) : Prop :=
  Forall2 same_letter key written.

Definition placeholder (opening key s : text) : Prop :=
  exists g1 written g2,
    s = opening ++ g1 ++ written ++ g2 ++ [RBRACE; RBRACE]
    /\ is_gap g1 /\ same_key key written /\ is_gap g2.

(** The value has no backslash, so that the template is the value itself. *)
Definition backslash_free (value : text) : bool :=
  forallb (fun c => negb (c =? BACKSLASH)%N) value.

Definition brace_free (s : text) : bool :=
  forallb (fun c => negb (c =? LBRACE)%N) s.

(** The key begins with a character that is neither whitespace nor [<]:
    where it starts in the text cannot be taken for a part of the gap. *)
Definition plain_key (key : text) : bool :=
  match key with
  | [] => false
  | c :: _ => negb (is_space c) && negb (c =? LT)%N
  end.

(** Texts before which a gap cannot go on: they begin with a character that
    is neither whitespace nor [<]. *)
Definition stops (x : text) : Prop :=
  exists c y, x = c :: y /\ is_space c = false /\ c <> LT.

Definition no_space_head (x : text) : Prop :=
  match x with
  | [] => True
  | c :: _ => is_space c = false
  end.

Definition no_lt_head (x : text) : Prop :=
  match x with
  | [] => True
  | c :: _ => c <> LT
  end.

Definition delimited_form : text -> text -> Prop :=
  placeholder [LBRACE; LBRACE].

Definition degraded_form : text -> text -> Prop :=
  placeholder [LBRACE].

(** The key written in another letter case, by the lower-case forms of its
    characters. *)
Definition same_lower (key written : text) : Prop :=
  map Unicode.tolower written = map Unicode.tolower key.

(** [out] is [s] with the words of [P] replaced, found from left to right:
    where a word of [P] begins, one such word [p] gives way to [f p] and the
    search goes on after it; where none begins, the character stays. *)
Inductive replaced (P : text -> Prop) (f : text -> text)
    : text -> text -> Prop :=
| replaced_end : replaced P f [] []
| replaced_here (p rest out : text) :
    p <> [] -> P p -> replaced P f rest out ->
    replaced P f (p ++ rest) (f p ++ out)
| replaced_next (c : N) (s out : text) :
    (forall p rest, c :: s = p ++ rest -> ~ P p) ->
    replaced P f s out ->
    replaced P f (c :: s) (c :: out).

End ReSpec.

(** ** Further notions for the properties of the substitution *)

Module SubSpec.
Import Re.

(** The value is a replacement template [re.sub] accepts. *)
Definition valid_template (py : release) (value : text) : bool :=
  match parse_template py value with
  | inr _ => true
  | inl _ => false
  end.

(** The exception of the first value, in the order of the map, that is no
    template [re.sub] accepts. *)
Fixpoint template_error (py : release) (data : list (text * text))
    : option exn :=
  match data with
  | [] => None
  | (_, value) :: data' =>
      match parse_template py value with
      | inl e => Some e
      | inr _ => template_error py data'
      end
  end.

(** A word without whitespace, [<] or braces, as the keys of the front end
    are. *)
Definition plain_char (c : N) : bool :=
  negb (is_space c) && negb (c =? LT)%N
  && negb (c =? LBRACE)%N && negb (c =? RBRACE)%N.

Definition plain_word (w : text) : bool := forallb plain_char w.

(** The placeholder with two braces and no gap, as the templates write it. *)
Definition braced (written : text) : text :=
  [LBRACE; LBRACE] ++ written ++ [RBRACE; RBRACE].

(** Each segment's text followed by what stands in its hole, and [last] at
    the end. *)
Fixpoint interleave (segments : list (text * text)) (last : text) : text :=
  match segments with
  | [] => last
  | (before, hole) :: rest => before ++ hole ++ interleave rest last
  end.

End SubSpec.

(** ** Further observations on a run *)


Definition is_zip_open (ev : event) : bool :=
  match ev with
  | EvZipOpen _ => true
  | _ => false
  end.

Definition is_write_part (ev : event) : bool :=
  match ev with
  | EvWritePart _ _ => true
  | _ => false
  end.

(** The files the loop of lines 70-80 opens: below [word/], with a name that
    ends in [.xml] in any letter case. *)
Definition scanned (e : entry) : bool :=
  in_word_dir (relpath e) && ends_with_xml (last (relpath e) []).


(** The temporary directory cannot be made. *)
Definition no_scratch : world :=
  World Interpreter.cpython311 [Sample.template; Sample.out_docx]
        (fun _ => None) (inl (OSError 28))
        (fun _ => inr Sample.files) (fun _ => None) (fun _ => None)
        (fun _ => None) (fun _ => None) (fun _ => None) Sample.renders.

(** ** The callers: the end of [mdo_sulph] and [hfo_sulph]

    Lines 332-374 and 514-556 are the same but for the name of the template
    and the text of one log line: with the data collected, they make a
    temporary file, fill the template, send the converted file and remove
    the two files. *)

Module FrontEnd.

Inductive message : Type :=
| MsgCreateFailed          (* the notice of line 344 *)
| MsgSendFailed            (* the notice of line 357 *)
| MsgWhatNext.             (* the question of lines 370-373 *)

(** What the handler returns: [ConversationHandler.END] or [ASK_AGAIN]. *)
Inductive next_state : Type :=
| END
| ASK_AGAIN.

Inductive hevent : Type :=
| HTempFile (p : text)          (* NamedTemporaryFile made p *)
| HFill (ev : event)            (* an event of fill_docx_and_convert *)
| HLogError (e : exn)
| HReplyText (m : message)      (* reply_text called *)
| HReplyDocument (p : text)     (* lines 353-354 entered for p *)
| HRemove (p : text).           (* os.remove(p) called *)

(** What the calls of the chat and of [tempfile] answer. *)
Record chat : Type := Chat {
  named_temporary_file : exn + text;
  reply_text : message -> option exn;
  reply_document : text -> option exn
}.

Definition HM (A : Type) : Type := (list hevent * (exn + A))%type.

Definition hret {A} (a : A) : HM A := ([], inr a).
Definition hraise {A} (e : exn) : HM A := ([], inl e).
Definition hemit (ev : hevent) : HM unit := ([ev], inr tt).

Definition hbind {A B} (m : HM A) (k : A -> HM B) : HM B :=
  match m with
  | (evs, inl e) => (evs, inl e)
  | (evs, inr a) => let '(evs', r) := k a in (evs ++ evs', r)
  end.

Notation "x <-- m ;; k" := (hbind m (fun x => k))
  (at level 61, m at next level, right associativity).
Notation "m ;;;; k" := (hbind m (fun _ => k))
  (at level 61, right associativity).

Definition hcall (answer : option exn) : HM unit :=
  match answer with
  | Some e => hraise e
  | None => hret tt
  end.

(** [try: body  except: pass] *)
Definition htry_pass (body : HM unit) : HM unit :=
  match body with
  | (evs, _) => (evs, inr tt)
  end.

(** [try: body  except Exception as e: handler(e)] *)
Definition htry_except (body : HM unit) (handler : exn -> HM unit) : HM unit :=
  match body with
  | (evs, inl e) => let '(evs', r) := handler e in (evs ++ evs', r)
  | (evs, inr u) => (evs, inr u)
  end.

(** [try: body  finally: cleanup] *)
Definition htry_finally {A} (body : HM A) (cleanup : HM unit) : HM A :=
  let '(evs, r) := body in
  match cleanup with
  | (evs', inl e) => (evs ++ evs', inl e)
  | (evs', inr _) => (evs ++ evs', r)
  end.

(** The events of the pipeline, as events of the handler. *)
Definition lift {A} (m : M A) : HM A := (map HFill (fst m), snd m).

Definition hevents {A} (m : HM A) : list hevent := fst m.
Definition hresult {A} (m : HM A) : exn + A := snd m.

Definition remove_quietly (w : world) (p : text) : HM unit :=
  htry_pass (hemit (HRemove p) ;;;; hcall (os_remove w p)).

Definition generate_and_send (c : chat) (w : world) (tmpl_docx : text)
    (data : list (text * text)) : HM next_state :=
  out_docx <-- match named_temporary_file c with
               | inl e => hraise e
               | inr p => hemit (HTempFile p) ;;;; hret p
               end ;;
  let filled := lift (fill_docx_and_convert w tmpl_docx out_docx data) in
  match hresult filled with
  | inl e =>
      (hevents filled, inr tt) ;;;;
      hemit (HLogError e) ;;;;
      hemit (HReplyText MsgCreateFailed) ;;;;
      hcall (reply_text c MsgCreateFailed) ;;;;
      remove_quietly w out_docx ;;;;
      hret END
  | inr (tmp_docx, tmp_pdf) =>
      (hevents filled, inr tt) ;;;;
      htry_finally
        (htry_except
           (hemit (HReplyDocument tmp_pdf) ;;;;
            hcall (reply_document c tmp_pdf))
           (fun e =>
              hemit (HLogError e) ;;;;
              hemit (HReplyText MsgSendFailed) ;;;;
              hcall (reply_text c MsgSendFailed)))
        (remove_quietly w tmp_pdf ;;;; remove_quietly w tmp_docx) ;;;;
      hemit (HReplyText MsgWhatNext) ;;;;
      hcall (reply_text c MsgWhatNext) ;;;;
      hret ASK_AGAIN
  end.

(** The paths [os.remove] was called on by the handler itself. *)
Definition removals (evs : list hevent) : list text :=
  flat_map (fun ev => match ev with HRemove p => [p] | _ => [] end) evs.

(** The files the handler set out to send: lines 353-354 were entered for
    them.  Opening the file and [reply_document] answer together, through
    [reply_document] of the chat. *)
Definition sent (evs : list hevent) : list text :=
  flat_map (fun ev => match ev with HReplyDocument p => [p] | _ => [] end) evs.

(** A chat in which everything works, and one in which no text gets
    through. *)
Definition obliging : chat :=
  Chat (inr Sample.out_docx) (fun _ => None) (fun _ => None).

Definition mute : chat :=
  Chat (inr Sample.out_docx) (fun _ => Some (OSError 110)) (fun _ => None).

End FrontEnd.

(** * Properties *)

(** ** The case tables *)

Module UnicodeFacts.
Import Unicode.

Local Open Scope N_scope.

Lemma in_upto (step : N) (n : nat) (first : N) (k : nat) :
  (k < n)%nat -> In (first + N.of_nat k * step) (upto n first step).
Proof.
  revert first k. induction n as [|n IH]; intros first k Hk; [lia|].
  destruct k as [|k]; cbn [upto].
  - left. cbn. lia.
  - right. replace (first + N.of_nat (S k) * step)
      with (first + step + N.of_nat k * step) by lia.
    apply IH. lia.
Qed.

Lemma in_span (first last step c : N) :
  0 < step -> first <= c -> c <= last -> (c - first) mod step = 0 ->
  In c (span first last step).
Proof.
  intros Hs Hf Hl Hm. unfold span.
  pose proof (N.div_mod (c - first) step ltac:(lia)) as Hd.
  rewrite Hm, N.add_0_r in Hd.
  replace c with (first + N.of_nat (N.to_nat ((c - first) / step)) * step)
    by (rewrite N2Nat.id; lia).
  apply in_upto.
  assert ((c - first) / step <= (last - first) / step)
    by (apply N.Div0.div_le_mono; lia).
  lia.
Qed.

Lemma lookup_lower_points (rows : list (N * N * N * N)) (c : N) :
  Forall (fun row => 0 < snd (fst row)) rows ->
  lookup_lower rows c <> c ->
  In c (flat_map (fun row => match row with
                             | (first, last, step, _) => span first last step
                             end) rows).
Proof.
  intros Hrows. induction Hrows as [|[[[first last] step] low] rows Hs _ IH];
    cbn [lookup_lower flat_map]; intros H; [congruence|].
  apply in_or_app.
  destruct ((first <=? c) && (c <=? last) && ((c - first) mod step =? 0))
    eqn:E.
  - left. apply andb_prop in E. destruct E as [E E3].
    apply andb_prop in E. destruct E as [E1 E2].
    apply N.leb_le in E1, E2. apply N.eqb_eq in E3.
    now apply in_span.
  - right. now apply IH.
Qed.

(** A code point that is not its own lower-case form is in the table. *)
Lemma tolower_points (c : N) : tolower c <> c -> In c lower_points.
Proof.
  apply lookup_lower_points.
  apply Forall_forall. intros row Hrow.
  assert (H : forallb (fun row => 0 <? snd (fst row)) lower_rows = true)
    by (vm_compute; reflexivity).
  rewrite forallb_forall in H. apply N.ltb_lt. now apply H.
Qed.

Lemma iscased_points (c : N) : iscased c = true -> In c cased_points.
Proof.
  unfold iscased, in_rows, cased_points. intros H.
  apply existsb_exists in H. destruct H as (row & Hrow & H).
  apply andb_prop in H. destruct H as [H1 H2].
  apply N.leb_le in H1, H2.
  apply in_flat_map. exists row. split; [exact Hrow|].
  apply in_span; try lia. now rewrite N.mod_1_r.
Qed.

(** What holds of every code point of a table holds of every code point
    with case. *)
Lemma cased_all (P : N -> bool) :
  forallb P cased_points = true -> forall c, iscased c = true -> P c = true.
Proof.
  intros H c Hc. rewrite forallb_forall in H. apply H.
  now apply iscased_points.
Qed.

Lemma lower_all (P : N -> bool) :
  forallb P lower_points = true -> forall c, tolower c <> c -> P c = true.
Proof.
  intros H c Hc. rewrite forallb_forall in H. apply H.
  now apply tolower_points.
Qed.

Lemma tolower_cased (c : N) : tolower c <> c -> iscased c = true.
Proof. apply (lower_all iscased). vm_compute. reflexivity. Qed.

Lemma cased_tolower (c : N) : iscased c = true -> iscased (tolower c) = true.
Proof.
  apply (cased_all (fun c => iscased (tolower c))). vm_compute. reflexivity.
Qed.

Lemma extra_cased (lo x : N) : In x (extra_cases lo) -> iscased x = true.
Proof.
  assert (H : forallb (fun row => forallb iscased (snd row)) extra_rows = true)
    by (vm_compute; reflexivity).
  unfold extra_cases. revert H.
  induction extra_rows as [|[k others] rows IH]; cbn [forallb lookup_extra snd];
    intros H Hx; [contradiction|].
  apply andb_prop in H. destruct H as [H1 H2].
  destruct (k =? lo).
  - rewrite forallb_forall in H1. now apply H1.
  - now apply IH.
Qed.

(** On ASCII the tables are the ASCII letters. *)
Lemma ascii_all (P : N -> bool) :
  forallb P (upto 128 0 1) = true -> forall c, c < 128 -> P c = true.
Proof.
  intros H c Hc. rewrite forallb_forall in H. apply H.
  replace c with (0 + N.of_nat (N.to_nat c) * 1) by lia.
  apply in_upto. lia.
Qed.

Lemma tolower_ascii (c : N) : c < 128 -> tolower c = Re.ascii_lower c.
Proof.
  intros H. apply N.eqb_eq. revert c H.
  apply (ascii_all (fun c => tolower c =? Re.ascii_lower c)).
  vm_compute. reflexivity.
Qed.

Lemma iscased_ascii (c : N) : c < 128 -> iscased c = Re.is_ascii_letter c.
Proof.
  intros H. apply eqb_prop. revert c H.
  apply (ascii_all (fun c => Bool.eqb (iscased c) (Re.is_ascii_letter c))).
  vm_compute. reflexivity.
Qed.

(** The only characters outside ASCII with a lower-case form in ASCII are
    the dotted capital I (U+0130) and the Kelvin sign (U+212A). *)
Lemma tolower_into_ascii (t : N) :
  tolower t < 128 -> t < 128 \/ t = 304 \/ t = 8490.
Proof.
  intros H. destruct (N.eq_dec (tolower t) t) as [E|E]; [left; lia|].
  assert (Hp : ((128 <=? tolower t) || (t <? 128) || (t =? 304) || (t =? 8490))
               = true).
  { clear H. revert t E.
    apply (lower_all (fun t => (128 <=? tolower t) || (t <? 128)
                               || (t =? 304) || (t =? 8490))).
    vm_compute. reflexivity. }
  repeat (apply orb_prop in Hp; destruct Hp as [Hp|Hp]).
  - apply N.leb_le in Hp. lia.
  - apply N.ltb_lt in Hp. now left.
  - apply N.eqb_eq in Hp. right. now left.
  - apply N.eqb_eq in Hp. right. now right.
Qed.

(** No character with case is whitespace or one of the characters the
    patterns are written with. *)
Lemma cased_not_space (c : N) : iscased c = true -> Re.is_space c = false.
Proof.
  intros H. apply negb_true_iff. revert c H.
  apply (cased_all (fun c => negb (Re.is_space c))). vm_compute. reflexivity.
Qed.

Lemma cased_not_special (c : N) :
  iscased c = true ->
  Re.is_special c = false /\ c <> LT /\ c <> GT /\ c <> SLASH.
Proof.
  intros H.
  assert (Hp : negb (Re.is_special c) && negb (c =? LT) && negb (c =? GT)
               && negb (c =? SLASH) = true).
  { revert c H.
    apply (cased_all (fun c => negb (Re.is_special c) && negb (c =? LT)
                               && negb (c =? GT) && negb (c =? SLASH))).
    vm_compute. reflexivity. }
  repeat (apply andb_prop in Hp; destruct Hp as [Hp ?]).
  repeat match goal with
         | H : negb _ = true |- _ => apply negb_true_iff in H
         | H : (_ =? _) = false |- _ => apply N.eqb_neq in H
         end.
  auto.
Qed.

End UnicodeFacts.


(** ** What the matcher accepts *)

Module ReFacts.
Import Re ReSpec.

Lemma shorter_app (m rest : text) :
  shorter (m ++ rest) rest = true <-> m <> [].
Proof.
  unfold shorter. rewrite Nat.ltb_lt, length_app.
  destruct m; simpl; split; intros; try congruence; lia.
Qed.

Lemma app_same_length_nil (m rest : text) : m ++ rest = rest -> m = [].
Proof.
  intros H. apply (f_equal (@length N)) in H. rewrite length_app in H.
  destruct m; [reflexivity | simpl in H; lia].
Qed.

Section Star.

Variable step : text -> list text.
Variable P : text -> Prop.
Hypothesis step_spec :
  forall s rest, In rest (step s) <-> exists m, s = m ++ rest /\ P m.

Lemma star_spec (fuel : nat) :
  forall s rest, (length s <= fuel)%nat ->
    (In rest (star step fuel s) <->
     exists ms, s = concat ms ++ rest /\ Forall (fun x => x <> [] /\ P x) ms).
Proof.
  induction fuel as [|fuel IH]; intros s rest Hlen; simpl.
  - destruct s; [|simpl in Hlen; lia]. split.
    + intros [<-|[]]. exists []. split; [reflexivity | constructor].
    + intros (ms & Hs & _). left. symmetry in Hs.
      apply app_eq_nil in Hs. symmetry. apply Hs.
  - rewrite in_app_iff, in_flat_map. split.
    + intros [(s' & Hin & Hrest) | [<- | []]].
      * apply filter_In in Hin. destruct Hin as [Hin Hsh].
        apply step_spec in Hin. destruct Hin as (m & -> & Hm).
        apply shorter_app in Hsh.
        apply IH in Hrest.
        -- destruct Hrest as (ms & -> & Hms). exists (m :: ms). split.
           ++ simpl. now rewrite app_assoc.
           ++ constructor; auto.
        -- rewrite length_app in Hlen. destruct m; [congruence|].
           simpl in Hlen. lia.
      * exists []. split; [reflexivity | constructor].
    + intros (ms & -> & Hms). destruct ms as [|m ms].
      * right. left. reflexivity.
      * left. inversion Hms as [|? ? [Hne Hm] Hms']; subst.
        exists (concat ms ++ rest). split.
        -- apply filter_In. split.
           ++ apply step_spec. exists m. split; [|assumption].
              simpl. now rewrite app_assoc.
           ++ simpl. rewrite <- app_assoc. now apply shorter_app.
        -- apply IH.
           ++ simpl in Hlen. rewrite !length_app in Hlen.
              rewrite length_app. destruct m; [congruence|].
              simpl in Hlen. lia.
           ++ exists ms. split; [reflexivity | assumption].
Qed.

End Star.

(** The list of successes holds exactly the ways to split the text into a
    word of the pattern and a rest. *)
Lemma matches_spec (r : regex) :
  forall s rest, In rest (matches r s) <-> exists m, s = m ++ rest /\ lang r m.
Proof.
  induction r as [|c|c| |r1 IH1 r2 IH2|r IH|r IH|r IH]; intros s rest; simpl.
  - split.
    + intros [<-|[]]. now exists [].
    + intros (m & -> & ->). now left.
  - destruct s as [|t s'].
    + split; [intros [] | intros (m & Hs & t & -> & _); discriminate].
    + destruct (lit_ignore c t) eqn:E; simpl; split.
      * intros [<-|[]]. exists [t]. split; [reflexivity | now exists t].
      * intros (m & Hs & t' & -> & _). injection Hs as _ ->. now left.
      * intros [].
      * intros (m & Hs & t' & -> & Ht'). injection Hs as -> _. congruence.
  - destruct s as [|t s'].
    + split; [intros [] | intros (m & Hs & t & -> & _); discriminate].
    + destruct (lit_ignore c t) eqn:E; simpl; split.
      * intros [].
      * intros (m & Hs & t' & -> & Ht'). injection Hs as -> _. congruence.
      * intros [<-|[]]. exists [t]. split; [reflexivity | now exists t].
      * intros (m & Hs & t' & -> & _). injection Hs as _ ->. now left.
  - destruct s as [|t s'].
    + split; [intros [] | intros (m & Hs & t & -> & _); discriminate].
    + destruct (is_space t) eqn:E; simpl; split.
      * intros [<-|[]]. exists [t]. split; [reflexivity | now exists t].
      * intros (m & Hs & t' & -> & _). injection Hs as _ ->. now left.
      * intros [].
      * intros (m & Hs & t' & -> & Ht'). injection Hs as -> _. congruence.
  - rewrite in_flat_map. split.
    + intros (s1 & H1 & H2). apply IH1 in H1. apply IH2 in H2.
      destruct H1 as (m1 & -> & Hm1). destruct H2 as (m2 & -> & Hm2).
      exists (m1 ++ m2). split; [now rewrite app_assoc|]. now exists m1, m2.
    + intros (m & -> & m1 & m2 & -> & Hm1 & Hm2). exists (m2 ++ rest). split.
      * apply IH1. exists m1. split; [now rewrite app_assoc | assumption].
      * apply IH2. now exists m2.
  - rewrite (@star_spec (matches r) (lang r) IH (length s) s rest (le_n _)).
    split.
    + intros (ms & -> & Hms). exists (concat ms). split; [reflexivity|].
      now exists ms.
    + intros (m & -> & ms & -> & Hms). now exists ms.
  - rewrite in_flat_map. split.
    + intros (s1 & H1 & H2). apply IH in H1. destruct H1 as (m1 & -> & Hm1).
      apply (@star_spec (matches r) (lang r) IH (length s1) s1 rest (le_n _))
        in H2.
      destruct H2 as (ms & -> & Hms). exists (m1 ++ concat ms). split.
      * now rewrite app_assoc.
      * now exists m1, ms.
    + intros (m & -> & m1 & ms & -> & Hm1 & Hms).
      exists (concat ms ++ rest). split.
      * apply IH. exists m1. split; [now rewrite app_assoc | assumption].
      * apply (@star_spec (matches r) (lang r) IH _ _ rest (le_n _)).
        now exists ms.
  - rewrite in_app_iff. split.
    + intros [H | [<- | []]].
      * apply IH in H. destruct H as (m & -> & Hm). exists m. auto.
      * exists []. auto.
    + intros (m & -> & [-> | Hm]).
      * right. now left.
      * left. apply IH. now exists m.
Qed.

End ReFacts.

(** ** The patterns of the source, parsed *)

Module PatternFacts.
Import Re ReSpec ReFacts.

Definition key_token (c : N) : token :=
  if is_special c then TEsc c else TChar c.

Lemma special_cases (c : N) :
  is_special c = true ->
  In c [40; 41; 91; 93; 123; 125; 63; 42; 43; 45; 124; 94; 36; 92; 46; 38;
        126; 35; 32; 9; 10; 13; 11; 12]%N.
Proof.
  unfold is_special. intros H. apply existsb_exists in H.
  destruct H as (x & Hin & Heq). apply N.eqb_eq in Heq. subst x. exact Hin.
Qed.

Lemma not_special_neq (c x : N) :
  is_special c = false -> is_special x = true -> (c =? x)%N = false.
Proof.
  intros Hc Hx. apply N.eqb_neq. intros ->. congruence.
Qed.

Lemma tokenize_escape (key rest : text) :
  tokenize (escape key ++ rest)
  = option_map (app (map key_token key)) (tokenize rest).
Proof.
  induction key as [|c key IH]; simpl.
  - destruct (tokenize rest); reflexivity.
  - unfold key_token at 1. destruct (is_special c) eqn:E; simpl.
    + rewrite IH. destruct (tokenize rest); reflexivity.
    + rewrite (not_special_neq c BACKSLASH E eq_refl). rewrite IH.
      destruct (tokenize rest); reflexivity.
Qed.

(** An escaped key is read back as the literals of the key, whatever stands
    around it. *)
Lemma parse_key (key : text) :
  forall ts cur stack,
    parse (map key_token key ++ ts) cur stack
    = parse ts (rev (map Lit key) ++ cur) stack.
Proof.
  induction key as [|c key IH]; intros ts cur stack; [reflexivity|].
  replace (rev (map Lit (c :: key)) ++ cur)
    with (rev (map Lit key) ++ Lit c :: cur)
    by (simpl; now rewrite <- app_assoc).
  rewrite <- IH. simpl. unfold key_token at 1.
  destruct (is_special c) eqn:E.
  - assert (Hitem : escape_item c = Some (Lit c)).
    { apply special_cases in E. simpl in E.
      repeat (destruct E as [<- | E]; [reflexivity|]). destruct E. }
    simpl. now rewrite Hitem.
  - simpl.
    rewrite (not_special_neq c 40 E eq_refl), (not_special_neq c 41 E eq_refl),
      (not_special_neq c 91 E eq_refl), (not_special_neq c 42 E eq_refl),
      (not_special_neq c 43 E eq_refl), (not_special_neq c 63 E eq_refl),
      (not_special_neq c 46 E eq_refl), (not_special_neq c 123 E eq_refl),
      (not_special_neq c 94 E eq_refl), (not_special_neq c 36 E eq_refl),
      (not_special_neq c 124 E eq_refl).
    reflexivity.
Qed.

Lemma tokenize_app_le (n : nat) :
  forall a b ta, (length a <= n)%nat -> tokenize a = Some ta ->
    tokenize (a ++ b) = option_map (app ta) (tokenize b).
Proof.
  induction n as [|n IH]; intros a b ta Hlen Ha.
  - destruct a; [|simpl in Hlen; lia]. injection Ha as <-. simpl.
    destruct (tokenize b); reflexivity.
  - destruct a as [|c a]; simpl in *.
    + injection Ha as <-. destruct (tokenize b); reflexivity.
    + destruct (c =? BACKSLASH)%N.
      * destruct a as [|d a]; [discriminate|]. simpl in *.
        destruct (tokenize a) as [t|] eqn:E; [|discriminate].
        injection Ha as <-. rewrite (IH a b t); [|lia|assumption].
        destruct (tokenize b); reflexivity.
      * destruct (tokenize a) as [t|] eqn:E; [|discriminate].
        injection Ha as <-. rewrite (IH a b t); [|lia|assumption].
        destruct (tokenize b); reflexivity.
Qed.

Lemma tokenize_app (a b : text) (ta : list token) :
  tokenize a = Some ta ->
  tokenize (a ++ b) = option_map (app ta) (tokenize b).
Proof. apply (tokenize_app_le (length a)). apply le_n. Qed.

Lemma seq_of_key (before after : list regex) (key : text) :
  seq_of (rev (rev after ++ rev (map Lit key) ++ rev before))
  = seq_of (before ++ map Lit key ++ after).
Proof.
  now rewrite !rev_app_distr, !rev_involutive, <- app_assoc.
Qed.

Lemma compile_placeholder (opening closing : text) (key : text)
    (to tc : list token) (before after : list regex) :
  tokenize opening = Some to ->
  tokenize closing = Some tc ->
  (forall ts, parse (to ++ ts) [] [] = parse ts (rev before) []) ->
  (forall cur, parse tc cur [] = Some (seq_of (rev (rev after ++ cur)))) ->
  compile (opening ++ escape key ++ closing)
  = Some (seq_of (before ++ map Lit key ++ after)).
Proof.
  intros Ho Hc Hbefore Hafter. unfold compile.
  rewrite (tokenize_app opening _ to Ho), tokenize_escape, Hc. simpl.

  rewrite Hbefore, parse_key, Hafter. f_equal. apply seq_of_key.
Qed.

Lemma compile_pattern_double (key : text) :
  compile (pattern_double key)
  = Some (placeholder_regex [Lit LBRACE; Lit LBRACE] key).
Proof.
  unfold pattern_double.
  change (str "\{\{\s*" ++ str "(?:<\/?[^>]+>)*\s*" ++ escape key
          ++ str "\s*(?:<\/?[^>]+>)*\s*" ++ str "\}\}")
    with (str "\{\{\s*(?:<\/?[^>]+>)*\s*"
          ++ escape key ++ str "\s*(?:<\/?[^>]+>)*\s*\}\}").
  unfold placeholder_regex.
  change ([Lit LBRACE; Lit LBRACE] ++ gap_items ++ map Lit key ++ gap_items
          ++ [Lit RBRACE; Lit RBRACE])
    with (([Lit LBRACE; Lit LBRACE] ++ gap_items) ++ map Lit key
          ++ (gap_items ++ [Lit RBRACE; Lit RBRACE])).
  eapply compile_placeholder.
  - reflexivity.
  - reflexivity.
  - intros ts. reflexivity.
  - intros cur. reflexivity.
Qed.

Lemma compile_pattern_single (key : text) :
  compile (pattern_single key)
  = Some (placeholder_regex [Lit LBRACE] key).
Proof.
  unfold pattern_single.
  change (str "\{\s*" ++ str "(?:<\/?[^>]+>)*\s*" ++ escape key
          ++ str "\s*(?:<\/?[^>]+>)*\s*" ++ str "\}\}")
    with (str "\{\s*(?:<\/?[^>]+>)*\s*"
          ++ escape key ++ str "\s*(?:<\/?[^>]+>)*\s*\}\}").
  unfold placeholder_regex.
  change ([Lit LBRACE] ++ gap_items ++ map Lit key ++ gap_items
          ++ [Lit RBRACE; Lit RBRACE])
    with (([Lit LBRACE] ++ gap_items) ++ map Lit key
          ++ (gap_items ++ [Lit RBRACE; Lit RBRACE])).
  eapply compile_placeholder.
  - reflexivity.
  - reflexivity.
  - intros ts. reflexivity.
  - intros cur. reflexivity.
Qed.

(** *** The words of the two patterns *)

Lemma fullmatch_regex_spec (r : regex) (s : text) :
  fullmatch_regex r s = true <-> lang r s.
Proof.
  unfold fullmatch_regex. rewrite existsb_exists. split.
  - intros (rest & Hin & Hnil). destruct rest; [|discriminate].
    apply matches_spec in Hin. destruct Hin as (m & -> & Hm).
    now rewrite app_nil_r.
  - intros H. exists []. split; [|reflexivity].
    apply matches_spec. exists s. now rewrite app_nil_r.
Qed.

Lemma lang_seq_app (a b : list regex) (m : text) :
  lang (seq_of (a ++ b)) m <->
  exists m1 m2, m = m1 ++ m2 /\ lang (seq_of a) m1 /\ lang (seq_of b) m2.
Proof.
  revert m. induction a as [|r a IH]; intros m; simpl.
  - split.
    + intros H. now exists [], m.
    + intros (m1 & m2 & -> & -> & H). exact H.
  - split.
    + intros (m1 & m2 & -> & H1 & H2). apply IH in H2.
      destruct H2 as (m3 & m4 & -> & H3 & H4).
      exists (m1 ++ m3), m4. split; [now rewrite app_assoc|].
      split; [now exists m1, m3 | assumption].
    + intros (m1 & m2 & -> & (m3 & m4 & -> & H3 & H4) & H2).
      exists m3, (m4 ++ m2). split; [now rewrite app_assoc|].
      split; [assumption|]. apply IH. now exists m4, m2.
Qed.

Lemma lit_ignore_spec (c t : N) : lit_ignore c t = true <-> same_letter c t.
Proof.
  unfold lit_ignore, same_letter.
  destruct (Unicode.iscased c) eqn:Ec.
  - rewrite orb_true_iff, N.eqb_eq, existsb_exists. split.
    + intros [H | (x & Hx & H)]; right; (split; [reflexivity|]).
      * now left.
      * apply N.eqb_eq in H. subst x. now right.
    + intros [-> | (_ & [H | H])].
      * now left.
      * now left.
      * right. eexists. split; [exact H | apply N.eqb_refl].
  - rewrite N.eqb_eq. split; [now left|].
    intros [H | (H & _)]; [assumption | discriminate].
Qed.

Lemma lang_lits (key m : text) :
  lang (seq_of (map Lit key)) m <-> same_key key m.
Proof.
  unfold same_key. revert m. induction key as [|c key IH]; intros m; simpl.
  - split; [intros -> | intros H; inversion H]; constructor.
  - split.
    + intros (m1 & m2 & -> & (t & -> & Ht) & H2).
      constructor; [now apply lit_ignore_spec|].
      now apply IH.
    + intros H. inversion H as [|? t ? m' Ht Hm']; subst.
      exists [t], m'. split; [reflexivity|].
      split; [exists t; split; [reflexivity | now apply lit_ignore_spec]|].
      now apply IH.
Qed.

Lemma same_key_length (key written : text) :
  same_key key written -> length written = length key.
Proof. intros H. symmetry. exact (Forall2_length H). Qed.

Lemma same_key_uncased (c t : N) :
  Unicode.iscased c = false -> (lit_ignore c t = true <-> t = c).
Proof.
  intros H. unfold lit_ignore. rewrite H. apply N.eqb_eq.
Qed.

Lemma same_letter_uncased (c t : N) :
  Unicode.iscased c = false -> (same_letter c t <-> t = c).
Proof.
  intros H. rewrite <- lit_ignore_spec. now apply same_key_uncased.
Qed.

(** A run of one-character words. *)
Lemma lang_star_chars (P : N -> bool) (ms : list text) :
  Forall (fun x => x <> [] /\ exists t, x = [t] /\ P t = true) ms ->
  Forall (fun c => P c = true) (concat ms).
Proof.
  induction 1 as [|x ms (_ & t & -> & Ht) _ IH]; simpl; constructor; auto.
Qed.

Lemma chars_lang_star (P : N -> bool) (w : text) :
  Forall (fun c => P c = true) w ->
  exists ms, w = concat ms
             /\ Forall (fun x => x <> [] /\ exists t, x = [t] /\ P t = true) ms.
Proof.
  induction 1 as [|t w Ht _ (ms & -> & Hms)].
  - exists []. split; [reflexivity | constructor].
  - exists ([t] :: ms). split; [reflexivity|]. constructor; [|assumption].
    split; [discriminate | now exists t].
Qed.

Lemma lang_star_space (w : text) : lang (Star Space) w <-> is_blank w.
Proof.
  simpl. split.
  - intros (ms & -> & Hms). now apply lang_star_chars.
  - intros H. now apply chars_lang_star.
Qed.

Lemma not_gt_spec (t : N) : lit_ignore GT t = false <-> t <> GT.
Proof. change (lit_ignore GT t) with (t =? GT)%N. apply N.eqb_neq. Qed.

Lemma lang_tag (t : text) : lang tag_regex t <-> is_tag t.
Proof.
  unfold is_tag. simpl. split.
  - intros (m1 & r1 & -> & (c1 & -> & Hc1) &
            o & r2 & -> & Ho & p & r3 & -> &
            (x1 & xs & -> & (t1 & -> & Ht1) & Hxs) &
            g & r4 & -> & (c2 & -> & Hc2) & ->).
    apply (same_key_uncased LT c1 eq_refl) in Hc1.
    apply (same_key_uncased GT c2 eq_refl) in Hc2. subst c1 c2.
    exists (o ++ [t1] ++ concat xs). split; [|split].
    + simpl. now rewrite <- !app_assoc.
    + destruct o; discriminate.
    + apply Forall_app. split.
      * destruct Ho as [-> | (c & -> & Hc)]; constructor; [|constructor].
        apply (same_key_uncased SLASH c eq_refl) in Hc. now subst c.
      * constructor; [now apply not_gt_spec|].
        assert (H : Forall (fun c => negb (lit_ignore GT c) = true) (concat xs)).
        { apply lang_star_chars. eapply Forall_impl; [|exact Hxs].
          intros x (Hne & c & -> & Hc). split; [assumption|]. exists c.
          now rewrite Hc. }
        eapply Forall_impl; [|exact H]. intros c Hc. apply not_gt_spec.
        simpl in Hc. now destruct (lit_ignore GT c).
  - intros (body & -> & Hne & Hbody). destruct body as [|b body]; [congruence|].
    inversion Hbody as [|? ? Hb Hbody']; subst.
    exists [LT], ((b :: body) ++ [GT]). split; [reflexivity|].
    split; [now exists LT|].
    exists [], ((b :: body) ++ [GT]). split; [reflexivity|].
    split; [now left|].
    exists (b :: body), [GT]. split; [reflexivity|]. split.
    + assert (H : Forall (fun c => negb (lit_ignore GT c) = true) body).
      { eapply Forall_impl; [|exact Hbody']. intros c Hc.
        apply not_gt_spec in Hc. now rewrite Hc. }
      apply chars_lang_star in H. destruct H as (ms & -> & Hms).
      exists [b], ms. split; [reflexivity|]. split.
      * exists b. split; [reflexivity | now apply not_gt_spec].
      * eapply Forall_impl; [|exact Hms].
        intros x (Hx & c & -> & Hc). split; [assumption|]. exists c.
        split; [reflexivity|]. now destruct (lit_ignore GT c).
    + exists [GT], []. split; [reflexivity|]. split; [now exists GT|].
      reflexivity.
Qed.

Lemma is_tag_nonempty (t : text) : is_tag t -> t <> [].
Proof. intros (body & -> & _). discriminate. Qed.

Lemma lang_star_tag (m : text) :
  lang (Star tag_regex) m <-> exists tags, m = concat tags /\ Forall is_tag tags.
Proof.
  change (lang (Star tag_regex) m)
    with (exists ms, m = concat ms
                     /\ Forall (fun x => x <> [] /\ lang tag_regex x) ms).
  split; intros (ms & -> & Hms); exists ms; (split; [reflexivity|]);
    (eapply Forall_impl; [|exact Hms]).
  - intros x (_ & Hx). now apply lang_tag.
  - intros x Hx. split; [now apply is_tag_nonempty | now apply lang_tag].
Qed.

Lemma lang_gap (g : text) : lang (seq_of gap_items) g <-> is_gap g.
Proof.
  unfold is_gap, gap_items.
  change (lang (seq_of [Star Space; Star tag_regex; Star Space]) g)
    with (exists m1 m2, g = m1 ++ m2 /\ lang (Star Space) m1 /\
          exists m3 m4, m2 = m3 ++ m4 /\ lang (Star tag_regex) m3 /\
          exists m5 m6, m4 = m5 ++ m6 /\ lang (Star Space) m5 /\ m6 = []).
  split.
  - intros (m1 & m2 & -> & H1 & m3 & m4 & -> & H3 & m5 & m6 & -> & H5 & ->).
    apply lang_star_space in H1, H5. apply lang_star_tag in H3.
    destruct H3 as (tags & -> & Htags). exists m1, tags, m5.
    now rewrite app_nil_r.
  - intros (w1 & tags & w2 & -> & H1 & Ht & H2).
    exists w1, (concat tags ++ w2). split; [reflexivity|].
    split; [now apply lang_star_space|].
    exists (concat tags), w2. split; [reflexivity|].
    split; [apply lang_star_tag; now exists tags|].
    exists w2, []. split; [now rewrite app_nil_r|].
    split; [now apply lang_star_space | reflexivity].
Qed.

Lemma same_key_braces (opening m : text) :
  Forall (fun c => Unicode.iscased c = false) opening ->
  (same_key opening m <-> m = opening).
Proof.
  unfold same_key. intros Hop. revert m.
  induction Hop as [|c opening Hc _ IH]; intros m; split; intros H.
  - now inversion H.
  - subst. constructor.
  - inversion H as [|? t ? m' Ht Hm']; subst.
    apply (same_letter_uncased c t Hc) in Ht. apply IH in Hm'. now subst.
  - subst. constructor; [now apply same_letter_uncased | now apply IH].
Qed.

Lemma lang_placeholder (opening key s : text) :
  Forall (fun c => Unicode.iscased c = false) opening ->
  (lang (placeholder_regex (map Lit opening) key) s
   <-> placeholder opening key s).
Proof.
  intros Hop. unfold placeholder_regex, placeholder.
  rewrite lang_seq_app. split.
  - intros (mo & m1 & -> & Ho & H1).
    apply lang_seq_app in H1. destruct H1 as (g1 & m2 & -> & Hg1 & H2).
    apply lang_seq_app in H2. destruct H2 as (k & m3 & -> & Hk & H3).
    apply lang_seq_app in H3. destruct H3 as (g2 & m4 & -> & Hg2 & H4).
    apply lang_lits, same_key_braces in Ho; [|assumption].
    apply (lang_lits [RBRACE; RBRACE]), same_key_braces in H4;
      [|repeat constructor].
    subst. exists g1, k, g2. split; [reflexivity|].
    split; [now apply lang_gap|]. split; [now apply lang_lits|].
    now apply lang_gap.
  - intros (g1 & k & g2 & -> & Hg1 & Hk & Hg2).
    exists opening, (g1 ++ k ++ g2 ++ [RBRACE; RBRACE]).
    split; [reflexivity|]. split.
    { apply lang_lits, same_key_braces; [assumption | reflexivity]. }
    apply lang_seq_app. exists g1, (k ++ g2 ++ [RBRACE; RBRACE]).
    split; [reflexivity|]. split; [now apply lang_gap|].
    apply lang_seq_app. exists k, (g2 ++ [RBRACE; RBRACE]).
    split; [reflexivity|]. split; [now apply lang_lits|].
    apply lang_seq_app. exists g2, [RBRACE; RBRACE].
    split; [reflexivity|]. split; [now apply lang_gap|].
    apply (lang_lits [RBRACE; RBRACE]), same_key_braces;
      [repeat constructor | reflexivity].
Qed.

Lemma fullmatch_double (key s : text) :
  fullmatch (pattern_double key) s = true <-> delimited_form key s.
Proof.
  unfold fullmatch. rewrite compile_pattern_double, fullmatch_regex_spec.
  apply (lang_placeholder [LBRACE; LBRACE]). repeat constructor.
Qed.

Lemma fullmatch_single (key s : text) :
  fullmatch (pattern_single key) s = true <-> degraded_form key s.
Proof.
  unfold fullmatch. rewrite compile_pattern_single, fullmatch_regex_spec.
  apply (lang_placeholder [LBRACE]). repeat constructor.
Qed.

End PatternFacts.

(** ** Substitution *)

Module SubFacts.
Import Re ReSpec ReFacts PatternFacts.

Lemma ttokens_literal (value : text) :
  backslash_free value = true -> ttokens value = map TkChar value.
Proof.
  induction value as [|c value IH]; simpl; [reflexivity|].
  intros H. apply andb_true_iff in H. destruct H as [Hc Hv].
  apply negb_true_iff in Hc. now rewrite Hc, (IH Hv).
Qed.

Lemma parse_tokens_literal (py : release) (value : text) :
  parse_tokens py (map TkChar value) Normal = inr (map TLit value).
Proof.
  induction value as [|c value IH]; [reflexivity|].
  cbn [map parse_tokens]. rewrite IH.
  now destruct value.
Qed.

Lemma parse_template_literal (py : release) (value : text) :
  backslash_free value = true ->
  parse_template py value = inr (map TLit value).
Proof.
  intros H. unfold parse_template. rewrite (ttokens_literal value H).
  apply parse_tokens_literal.
Qed.

Lemma expand_literal (value matched : text) :
  expand (map TLit value) matched = value.
Proof.
  unfold expand. induction value as [|c value IH]; simpl; congruence.
Qed.

(** *** A placeholder is read in one way only *)

Lemma blank_unique (w : text) :
  forall w' x x',
    is_blank w -> is_blank w' -> no_space_head x -> no_space_head x' ->
    w ++ x = w' ++ x' -> w = w' /\ x = x'.
Proof.
  induction w as [|c w IH]; intros w' x x' Hw Hw' Hx Hx' E.
  - destruct w' as [|c' w']; [now split|]. simpl in E. subst x.
    inversion Hw'; subst. simpl in Hx. congruence.
  - destruct w' as [|c' w'].
    + simpl in E. subst x'. inversion Hw; subst. simpl in Hx'. congruence.
    + injection E as -> E. inversion Hw; inversion Hw'; subst.
      destruct (IH w' x x') as [-> ->]; auto.
Qed.

Lemma first_gt_unique (a : text) :
  forall a' x x',
    Forall (fun c => c <> GT) a -> Forall (fun c => c <> GT) a' ->
    a ++ GT :: x = a' ++ GT :: x' -> a = a' /\ x = x'.
Proof.
  induction a as [|c a IH]; intros a' x x' Ha Ha' E.
  - destruct a' as [|c' a'].
    + injection E as ->. now split.
    + injection E as <- _. inversion Ha'; subst. congruence.
  - destruct a' as [|c' a'].
    + injection E as -> _. inversion Ha; subst. congruence.
    + injection E as -> E. inversion Ha; inversion Ha'; subst.
      destruct (IH a' x x') as [-> ->]; auto.
Qed.

Lemma tag_unique (t t' x x' : text) :
  is_tag t -> is_tag t' -> t ++ x = t' ++ x' -> t = t' /\ x = x'.
Proof.
  intros (b & -> & _ & Hb) (b' & -> & _ & Hb') E.
  simpl in E. injection E as E. rewrite <- !app_assoc in E. simpl in E.
  destruct (first_gt_unique b b' x x' Hb Hb' E) as [-> ->]. now split.
Qed.

Lemma tag_head (t x : text) : is_tag t -> ~ no_lt_head (t ++ x).
Proof. intros (b & -> & _) H. simpl in H. congruence. Qed.

Lemma tags_unique (ts : list text) :
  forall ts' x x',
    Forall is_tag ts -> Forall is_tag ts' -> no_lt_head x -> no_lt_head x' ->
    concat ts ++ x = concat ts' ++ x' -> concat ts = concat ts' /\ x = x'.
Proof.
  induction ts as [|t ts IH]; intros ts' x x' Hts Hts' Hx Hx' E.
  - destruct ts' as [|t' ts']; [now split|]. simpl in E. subst x.
    inversion Hts'; subst. rewrite <- app_assoc in Hx.
    now apply tag_head in Hx.
  - inversion Hts; subst. destruct ts' as [|t' ts'].
    + simpl in E. subst x'. rewrite <- app_assoc in Hx'.
      now apply tag_head in Hx'.
    + inversion Hts'; subst. simpl in E. rewrite <- !app_assoc in E.
      destruct (tag_unique t t' _ _ H1 H3 E) as [-> E'].
      destruct (IH ts' x x') as [E1 ->]; auto. simpl. now rewrite E1.
Qed.

Lemma stops_no_space (x : text) : stops x -> no_space_head x.
Proof. now intros (c & y & -> & H & _). Qed.

Lemma stops_no_lt (x : text) : stops x -> no_lt_head x.
Proof. now intros (c & y & -> & _ & H). Qed.

Lemma blank_stops_no_lt (w x : text) :
  is_blank w -> stops x -> no_lt_head (w ++ x).
Proof.
  intros Hw Hx. destruct w as [|c w]; [now apply stops_no_lt|].
  inversion Hw; subst. simpl. intros ->. discriminate.
Qed.

Lemma tags_no_space (ts : list text) (x : text) :
  Forall is_tag ts -> ts <> [] -> no_space_head (concat ts ++ x).
Proof.
  intros Hts Hne. destruct ts as [|t ts]; [congruence|].
  inversion Hts as [|? ? (b & -> & _) _]; subst. reflexivity.
Qed.

Lemma tags_not_stop (ts : list text) (x : text) :
  Forall is_tag ts -> ts <> [] -> ~ stops (concat ts ++ x).
Proof.
  intros Hts Hne (c & y & E & _ & Hc). destruct ts as [|t ts]; [congruence|].
  inversion Hts as [|? ? (b & -> & _) _]; subst. simpl in E.
  injection E as <- _. congruence.
Qed.

Lemma is_blank_app (w1 w2 : text) :
  is_blank w1 -> is_blank w2 -> is_blank (w1 ++ w2).
Proof. intros H1 H2. apply Forall_app. now split. Qed.

(** Before a text that stops it, a gap ends in one place only. *)
Lemma gap_unique (g g' x x' : text) :
  is_gap g -> is_gap g' -> stops x -> stops x' ->
  g ++ x = g' ++ x' -> g = g' /\ x = x'.
Proof.
  intros (w1 & ts & w2 & -> & Hw1 & Hts & Hw2)
         (w1' & ts' & w2' & -> & Hw1' & Hts' & Hw2') Hx Hx' E.
  rewrite <- !app_assoc in E.
  destruct ts as [|t ts], ts' as [|t' ts'].
  - simpl in *. rewrite !app_assoc in E.
    destruct (blank_unique (w1 ++ w2) (w1' ++ w2') x x') as [-> ->];
      auto using is_blank_app, stops_no_space.
  - exfalso. change (concat [] ++ w2 ++ x) with (w2 ++ x) in E.
    rewrite app_assoc in E.
    destruct (blank_unique (w1 ++ w2) w1' x (concat (t' :: ts') ++ w2' ++ x'))
      as [_ Ex]; auto using is_blank_app, stops_no_space.
    + apply tags_no_space; [assumption | discriminate].
    + subst x. revert Hx. apply tags_not_stop; [assumption | discriminate].
  - exfalso. change (concat [] ++ w2' ++ x') with (w2' ++ x') in E.
    rewrite (app_assoc w1' w2' x') in E.
    destruct (blank_unique w1 (w1' ++ w2') (concat (t :: ts) ++ w2 ++ x) x')
      as [_ Ex]; auto using is_blank_app, stops_no_space.
    + apply tags_no_space; [assumption | discriminate].
    + subst x'. revert Hx'. apply tags_not_stop; [assumption | discriminate].
  - destruct (blank_unique w1 w1' _ _ Hw1 Hw1'
                (tags_no_space (t :: ts) (w2 ++ x) Hts ltac:(discriminate))
                (tags_no_space (t' :: ts') (w2' ++ x') Hts' ltac:(discriminate))
                E) as [-> E1].
    destruct (tags_unique (t :: ts) (t' :: ts') _ _ Hts Hts'
                (blank_stops_no_lt w2 x Hw2 Hx)
                (blank_stops_no_lt w2' x' Hw2' Hx') E1) as [E2 E3].
    destruct (blank_unique w2 w2' x x') as [-> ->];
      auto using stops_no_space.
    now rewrite E2.
Qed.

Ltac bool_to_prop H :=
  repeat first
    [ rewrite andb_true_iff in H | rewrite orb_true_iff in H
    | rewrite andb_false_iff in H | rewrite orb_false_iff in H
    | rewrite negb_true_iff in H | rewrite negb_false_iff in H
    | rewrite N.leb_le in H | rewrite N.leb_gt in H
    | rewrite N.eqb_eq in H | rewrite N.eqb_neq in H ].

Lemma lit_ignore_cases (c t : N) :
  lit_ignore c t = true ->
  t = c \/ (Unicode.iscased c = true /\ Unicode.iscased t = true).
Proof.
  unfold lit_ignore. destruct (Unicode.iscased c) eqn:Ec.
  - intros H. right. split; [reflexivity|].
    destruct (N.eq_dec (Unicode.tolower t) t) as [Et|Et];
      [|now apply UnicodeFacts.tolower_cased].
    rewrite Et in H. apply orb_prop in H. destruct H as [H|H].
    + apply N.eqb_eq in H. subst t. now apply UnicodeFacts.cased_tolower.
    + apply existsb_exists in H. destruct H as (x & Hx & H).
      apply N.eqb_eq in H. subst x.
      now apply (UnicodeFacts.extra_cased (Unicode.tolower c)).
  - intros H. apply N.eqb_eq in H. now left.
Qed.

Lemma lit_ignore_literal (c t : N) :
  lit_ignore c t = true -> Unicode.iscased t = false -> t = c.
Proof.
  intros H Ht. apply lit_ignore_cases in H.
  destruct H as [H | [_ H]]; [assumption | congruence].
Qed.

Lemma lit_ignore_plain (c t : N) :
  lit_ignore c t = true -> is_space c = false -> c <> LT ->
  is_space t = false /\ t <> LT.
Proof.
  intros H Hs Hc. apply lit_ignore_cases in H.
  destruct H as [-> | [_ Ht]]; [now split|].
  split; [now apply UnicodeFacts.cased_not_space|].
  now apply UnicodeFacts.cased_not_special.
Qed.

Lemma same_key_stops (key written x : text) :
  plain_key key = true -> same_key key written -> stops (written ++ x).
Proof.
  intros Hk Hs. destruct Hs as [|c t key written Hct _]; [discriminate|].
  apply lit_ignore_spec in Hct.
  simpl in Hk. apply andb_true_iff in Hk. destruct Hk as [H1 H2].
  apply negb_true_iff in H1. apply negb_true_iff, N.eqb_neq in H2.
  destruct (lit_ignore_plain c t Hct H1 H2) as [H3 H4].
  exists t, (written ++ x). auto.
Qed.

Lemma app_inv_length (a a' b b' : text) :
  length a = length a' -> a ++ b = a' ++ b' -> a = a' /\ b = b'.
Proof.
  revert a'. induction a as [|c a IH]; intros [|c' a'] Hl E;
    try discriminate; [now split|].
  injection E as -> E. injection Hl as Hl.
  destruct (IH a' Hl E) as [-> ->]. now split.
Qed.

(** With a plain key, a text that begins with a placeholder has no other
    placeholder of the same key and opening as a prefix. *)
Lemma placeholder_unique (opening key s m post rest : text) :
  plain_key key = true ->
  placeholder opening key s -> placeholder opening key m ->
  s ++ post = m ++ rest -> rest = post.
Proof.
  intros Hk (g1 & k & g2 & -> & Hg1 & Hkk & Hg2)
            (g1' & k' & g2' & -> & Hg1' & Hkk' & Hg2') E.
  rewrite <- !app_assoc in E. apply app_inv_head in E.
  destruct (gap_unique g1 g1' _ _ Hg1 Hg1'
              (same_key_stops key k _ Hk Hkk)
              (same_key_stops key k' _ Hk Hkk') E) as [_ E1].
  destruct (app_inv_length k k' _ _
              (eq_trans (same_key_length _ _ Hkk)
                        (eq_sym (same_key_length _ _ Hkk'))) E1) as [_ E2].
  assert (Hstop : forall y, stops ([RBRACE; RBRACE] ++ y)).
  { intros y. exists RBRACE, (RBRACE :: y).
    split; [reflexivity|]. split; [reflexivity | discriminate]. }
  destruct (gap_unique g2 g2' _ _ Hg2 Hg2' (Hstop post) (Hstop rest) E2)
    as [_ E3].
  injection E3 as E3. now symmetry.
Qed.

Section Scan.

Variable r : regex.
Variable tpl : list titem.

(** Every match of [r] begins with an opening brace. *)
Hypothesis r_nil : matches r [] = [].
Hypothesis r_brace : forall c s, c <> LBRACE -> matches r (c :: s) = [].

Lemma scan_nil : scan r tpl [] 0 = [].
Proof. simpl. unfold match_here. now rewrite r_nil. Qed.

Lemma scan_brace_free (pre s : text) :
  brace_free pre = true ->
  scan r tpl (pre ++ s) 0 = pre ++ scan r tpl s 0.
Proof.
  induction pre as [|c pre IH]; simpl; [reflexivity|].
  intros H. apply andb_true_iff in H. destruct H as [Hc Hpre].
  apply negb_true_iff, N.eqb_neq in Hc.
  rewrite (r_brace c (pre ++ s) Hc). now rewrite (IH Hpre).
Qed.

Lemma scan_skip (m rest : text) :
  scan r tpl (m ++ rest) (length m) = scan r tpl rest 0.
Proof. induction m as [|c m IH]; simpl; [now destruct rest | exact IH]. Qed.

Lemma scan_match (m rest : text) (others : list text) :
  m <> [] ->
  matches r (m ++ rest) = rest :: others ->
  scan r tpl (m ++ rest) 0 = expand tpl m ++ scan r tpl rest 0.
Proof.
  intros Hm Hmatch. destruct m as [|c m]; [congruence|].
  change ((c :: m) ++ rest) with (c :: (m ++ rest)) in *.
  cbn [scan]. rewrite Hmatch.
  assert (Hc : consumed (c :: m ++ rest) rest = S (length m)).
  { unfold consumed.
    change (length (c :: m ++ rest)) with (S (length (m ++ rest))).
    rewrite length_app. lia. }
  rewrite Hc.
  change (c :: m ++ rest) with ((c :: m) ++ rest).
  replace (S (length m)) with (length (c :: m) + 0)%nat by (simpl; lia).
  rewrite firstn_app_2. simpl firstn. rewrite app_nil_r.
  now rewrite scan_skip.
Qed.

End Scan.


Lemma placeholder_regex_brace (opening : list regex) (key : text) (c : N)
    (s : text) :
  c <> LBRACE ->
  matches (placeholder_regex (Lit LBRACE :: opening) key) (c :: s) = [].
Proof.
  intros Hc. unfold placeholder_regex. simpl.
  change (lit_ignore LBRACE c) with (c =? LBRACE)%N.
  apply N.eqb_neq in Hc. now rewrite Hc.
Qed.

(** The attempts at a text that begins with a placeholder of a plain key all
    end where the placeholder ends. *)
Lemma matches_placeholder (opening key s post : text) :
  Forall (fun c => Unicode.iscased c = false) opening ->
  plain_key key = true ->
  placeholder opening key s ->
  exists others,
    matches (placeholder_regex (map Lit opening) key) (s ++ post)
    = post :: others.
Proof.
  intros Hop Hk Hs.
  set (r := placeholder_regex (map Lit opening) key).
  assert (Hin : In post (matches r (s ++ post))).
  { apply matches_spec. exists s. split; [reflexivity|].
    now apply lang_placeholder. }
  destruct (matches r (s ++ post)) as [|x others] eqn:E; [destruct Hin|].
  exists others. f_equal.
  assert (Hx : In x (matches r (s ++ post))) by (rewrite E; now left).
  apply matches_spec in Hx. destruct Hx as (m & Em & Hm).
  apply lang_placeholder in Hm; [|assumption].
  exact (placeholder_unique opening key s m post x Hk Hs Hm Em).
Qed.

Lemma placeholder_nonempty (opening key s : text) :
  opening <> [] -> placeholder opening key s -> s <> [].
Proof.
  intros Hop (g1 & k & g2 & -> & _). destruct opening; [congruence|].
  discriminate.
Qed.

Lemma scan_placeholder (opening key : text) (tpl : list titem)
    (pre s post : text) :
  Forall (fun c => Unicode.iscased c = false) opening ->
  plain_key key = true ->
  brace_free pre = true ->
  placeholder (LBRACE :: opening) key s ->
  scan (placeholder_regex (map Lit (LBRACE :: opening)) key) tpl
       (pre ++ s ++ post) 0
  = pre ++ expand tpl s
    ++ scan (placeholder_regex (map Lit (LBRACE :: opening)) key) tpl post 0.
Proof.
  intros Hop Hk Hpre Hs.
  change (map Lit (LBRACE :: opening)) with (Lit LBRACE :: map Lit opening).
  rewrite scan_brace_free by (auto using placeholder_regex_brace).
  f_equal.
  assert (Hop' : Forall (fun c => Unicode.iscased c = false) (LBRACE :: opening))
    by (constructor; [reflexivity | assumption]).
  destruct (matches_placeholder (LBRACE :: opening) key s post Hop' Hk Hs)
    as [others E].
  apply scan_match with (others := others).
  - apply (placeholder_nonempty (LBRACE :: opening) key); [discriminate|auto].
  - exact E.
Qed.

Lemma scan_no_brace (opening : list regex) (key : text) (tpl : list titem)
    (s : text) :
  brace_free s = true ->
  scan (placeholder_regex (Lit LBRACE :: opening) key) tpl s 0 = s.
Proof.
  intros Hs. rewrite <- (app_nil_r s) at 1.
  rewrite scan_brace_free by (auto using placeholder_regex_brace).
  rewrite scan_nil; [apply app_nil_r | reflexivity].
Qed.

(** [re.sub] with the pattern of two braces, on a text with a placeholder of
    the delimited form after a part without braces. *)
Lemma sub_double_placeholder (py : release) (key value pre s post : text) :
  plain_key key = true ->
  backslash_free value = true ->
  brace_free pre = true ->
  delimited_form key s ->
  Re.sub py (pattern_double key) value (pre ++ s ++ post)
  = on_result (fun t => pre ++ value ++ t)
      (Re.sub py (pattern_double key) value post).
Proof.
  intros Hk Hv Hpre Hs. unfold Re.sub.
  rewrite compile_pattern_double, (parse_template_literal py value Hv).
  cbn [on_result]. f_equal.
  change [Lit LBRACE; Lit LBRACE] with (map Lit [LBRACE; LBRACE]).
  rewrite (scan_placeholder [LBRACE] key (map TLit value) pre s post); auto.
  now rewrite expand_literal.
Qed.

Lemma sub_single_placeholder (py : release) (key value pre s post : text) :
  plain_key key = true ->
  backslash_free value = true ->
  brace_free pre = true ->
  degraded_form key s ->
  Re.sub py (pattern_single key) value (pre ++ s ++ post)
  = on_result (fun t => pre ++ value ++ t)
      (Re.sub py (pattern_single key) value post).
Proof.
  intros Hk Hv Hpre Hs. unfold Re.sub.
  rewrite compile_pattern_single, (parse_template_literal py value Hv).
  cbn [on_result]. f_equal.
  change [Lit LBRACE] with (map Lit [LBRACE]).
  rewrite (scan_placeholder [] key (map TLit value) pre s post); auto.
  now rewrite expand_literal.
Qed.

Lemma sub_double_no_brace (py : release) (key value s : text) :
  backslash_free value = true -> brace_free s = true ->
  Re.sub py (pattern_double key) value s = inr s.
Proof.
  intros Hv Hs. unfold Re.sub.
  rewrite compile_pattern_double, (parse_template_literal py value Hv).
  f_equal. now apply (scan_no_brace [Lit LBRACE]).
Qed.

Lemma sub_single_no_brace (py : release) (key value s : text) :
  backslash_free value = true -> brace_free s = true ->
  Re.sub py (pattern_single key) value s = inr s.
Proof.
  intros Hv Hs. unfold Re.sub.
  rewrite compile_pattern_single, (parse_template_literal py value Hv).
  f_equal. now apply (scan_no_brace []).
Qed.

Lemma ascii_lower_cases (c t : N) :
  ascii_lower t = ascii_lower c ->
  t = c \/ (c < 128 /\ t < 128 /\ is_ascii_letter c = true
            /\ is_ascii_letter t = true)%N.
Proof.
  unfold ascii_lower, is_ascii_letter. intros E.
  destruct ((65 <=? t) && (t <=? 90))%N eqn:Et;
    destruct ((65 <=? c) && (c <=? 90))%N eqn:Ec;
    bool_to_prop Et; bool_to_prop Ec;
    destruct (N.eq_dec t c) as [|Hne]; auto; right;
    repeat split; try lia;
    repeat (apply orb_true_iff; first [left; apply andb_true_iff; split; apply N.leb_le; lia | right]);
    try (apply andb_true_iff; split; apply N.leb_le; lia).
Qed.

Lemma same_letter_ascii_case (c t : N) :
  ascii_lower t = ascii_lower c -> same_letter c t.
Proof.
  intros E. destruct (ascii_lower_cases c t E) as [-> | (Hc & Ht & Hl & _)];
    [now left|].
  right. split; [now rewrite UnicodeFacts.iscased_ascii|].
  left. now rewrite !UnicodeFacts.tolower_ascii.
Qed.

End SubFacts.

(** ** One key after the other *)

Module OrderFacts.
Import Re ReSpec ReFacts PatternFacts SubFacts.

Lemma brace_free_app (a b : text) :
  brace_free (a ++ b) = brace_free a && brace_free b.
Proof. apply forallb_app. Qed.

Lemma scan_no_match (r : regex) (tpl : list titem) (c : N) (s : text) :
  matches r (c :: s) = [] -> scan r tpl (c :: s) 0 = c :: scan r tpl s 0.
Proof. intros H. simpl. now rewrite H. Qed.

Lemma is_gap_nil : is_gap [].
Proof. exists [], [], []. repeat split; constructor. Qed.

Lemma stops_brace (y : text) : stops (LBRACE :: y).
Proof.
  exists LBRACE, y. split; [reflexivity|]. split; [reflexivity|discriminate].
Qed.

End OrderFacts.

(** ** The pipeline *)

Module PipelineFacts.

Lemma events_bind {A B} (m : M A) (k : A -> M B) :
  events (bind m k)
  = events m ++ match result m with
                | inr a => events (k a)
                | inl _ => []
                end.
Proof.
  destruct m as [evs [e|a]]; simpl.
  - now rewrite app_nil_r.
  - now destruct (k a).
Qed.

Lemma result_bind {A B} (m : M A) (k : A -> M B) :
  result (bind m k)
  = match result m with
    | inr a => result (k a)
    | inl e => inl e
    end.
Proof.
  destruct m as [evs [e|a]]; simpl; [reflexivity|]. now destruct (k a).
Qed.

Lemma events_try_finally {A} (body : M A) (cleanup : M unit) :
  events (try_finally body cleanup) = events body ++ events cleanup.
Proof. destruct body as [evs r], cleanup as [evs' [e|u]]; reflexivity. Qed.

Lemma result_try_finally {A} (body : M A) (cleanup : M unit) :
  result (try_finally body cleanup)
  = match result cleanup with
    | inl e => inl e
    | inr _ => result body
    end.
Proof. destruct body as [evs r], cleanup as [evs' [e|u]]; reflexivity. Qed.

(** Every event of a computation has the property [P]. *)
Definition all_events {A} (P : event -> Prop) (m : M A) : Prop :=
  Forall P (events m).

Section AllEvents.

Variable P : event -> Prop.

Lemma all_ret {A} (a : A) : all_events P (ret a).
Proof. constructor. Qed.

Lemma all_raise {A} (e : exn) : all_events P (@raise A e).
Proof. constructor. Qed.

Lemma all_emit (ev : event) : P ev -> all_events P (emit ev).
Proof. intros H. repeat constructor. exact H. Qed.

Lemma all_call (answer : option exn) : all_events P (call answer).
Proof. destruct answer; constructor. Qed.

Lemma all_bind {A B} (m : M A) (k : A -> M B) :
  all_events P m -> (forall a, all_events P (k a)) -> all_events P (bind m k).
Proof.
  unfold all_events. intros Hm Hk. rewrite events_bind.
  apply Forall_app. split; [assumption|].
  destruct (result m); [constructor | apply Hk].
Qed.

Lemma all_try_pass (body : M unit) :
  all_events P body -> all_events P (try_pass body).
Proof. now destruct body. Qed.

Lemma all_try_or {A} (otherwise : A) (body : M A) :
  all_events P body -> all_events P (try_or otherwise body).
Proof. now destruct body as [evs [e|a]]. Qed.

Lemma all_try_finally {A} (body : M A) (cleanup : M unit) :
  all_events P body -> all_events P cleanup ->
  all_events P (try_finally body cleanup).
Proof.
  unfold all_events. intros. rewrite events_try_finally.
  apply Forall_app. now split.
Qed.

Lemma all_mapM {A B} (f : A -> M B) (l : list A) :
  (forall a, all_events P (f a)) -> all_events P (mapM f l).
Proof.
  intros Hf. induction l as [|a l IH]; simpl; [apply all_ret|].
  apply all_bind; [apply Hf|]. intros b.
  apply all_bind; [apply IH|]. intros bs. apply all_ret.
Qed.

End AllEvents.

Ltac all_events_tac :=
  repeat first
    [ apply all_ret | apply all_raise | apply all_call
    | apply all_emit; simpl; try reflexivity; try discriminate
    | apply all_try_pass | apply all_try_or | apply all_mapM; intros
    | apply all_bind; [|intros]
    | match goal with
      | |- all_events _ (match ?x with _ => _ end) => destruct x
      | |- all_events _ (if ?x then _ else _) => destruct x
      end ].

Section Stages.

Variable w : world.
Variable P : event -> Prop.

Lemma all_remove_if_exists (fs : list text) (p : text) :
  P (EvRemove p) -> all_events P (remove_if_exists w fs p).
Proof. intros H. unfold remove_if_exists. all_events_tac. exact H. Qed.

Lemma result_remove_if_exists (fs : list text) (p : text) :
  result (remove_if_exists w fs p) = inr (cleared w fs p).
Proof.
  unfold remove_if_exists, cleared.
  destruct (there fs p); [|reflexivity].
  now destruct (os_remove w p).
Qed.

Lemma all_process_part (data : list (text * text)) (e : entry) :
  (forall p b, P (EvWritePart p b)) ->
  all_events P (process_part w data e).
Proof. intros H. unfold process_part. all_events_tac. apply H. Qed.

Lemma all_repack (output_docx : text) (tree : list entry) :
  P (EvZipOpen output_docx) -> (forall p b, P (EvZipWrite p b)) ->
  all_events P (repack w output_docx tree).
Proof. intros H1 H2. unfold repack. all_events_tac; auto. Qed.

Lemma all_unpack_substitute_repack (fs : list text)
    (input_docx output_docx d : text) (data : list (text * text)) :
  P (EvExtract input_docx d) -> (forall p b, P (EvWritePart p b)) ->
  P (EvZipOpen output_docx) -> (forall p b, P (EvZipWrite p b)) ->
  all_events P (unpack_substitute_repack w fs input_docx output_docx d data).
Proof.
  intros H1 H2 H3 H4. unfold unpack_substitute_repack.
  apply all_bind; [all_events_tac; exact H1|]. intros tree.
  apply all_bind; [apply all_mapM; intros; now apply all_process_part|].
  intros tree'. now apply all_repack.
Qed.

Lemma all_convert (fs : list text) (output_docx output_pdf : text) :
  (forall args, P (EvRun args)) -> (forall msg, P (EvLogInfo msg)) ->
  (forall e, P (EvLogError e)) ->
  all_events P (convert w fs output_docx output_pdf).
Proof. intros H1 H2 H3. unfold convert. all_events_tac; auto. Qed.

End Stages.

Lemma text_eqb_spec (a b : text) : text_eqb a b = true <-> a = b.
Proof.
  unfold text_eqb. destruct (list_eq_dec N.eq_dec a b); split;
    congruence.
Qed.

(** What [mapM] returns holds, for every element it was given, what the
    function made of it. *)
Lemma mapM_result_In {A B} (f : A -> M B) (l : list A) (l' : list B) (a : A) :
  result (mapM f l) = inr l' -> In a l ->
  exists b, result (f a) = inr b /\ In b l'.
Proof.
  revert l'. induction l as [|x l IH]; intros l' H Hin; [destruct Hin|].
  simpl in H. rewrite result_bind in H.
  destruct (result (f x)) as [e|b] eqn:Ex; [discriminate|].
  rewrite result_bind in H.
  destruct (result (mapM f l)) as [e|bs] eqn:El; [discriminate|].
  cbn in H. injection H as <-. destruct Hin as [<- | Hin].
  - exists b. split; [assumption | now left].
  - destruct (IH bs eq_refl Hin) as (b' & Hb' & Hin'). exists b'.
    split; [assumption | now right].
Qed.

Lemma mapM_events_In {A B} (f : A -> M B) (l : list A) (l' : list B) (a : A)
    (ev : event) :
  result (mapM f l) = inr l' -> In a l -> In ev (events (f a)) ->
  In ev (events (mapM f l)).
Proof.
  revert l'. induction l as [|x l IH]; intros l' H Hin Hev; [destruct Hin|].
  simpl in *. rewrite result_bind in H. rewrite events_bind.
  destruct (result (f x)) as [e|b] eqn:Ex; [discriminate|].
  rewrite result_bind in H. rewrite events_bind.
  destruct (result (mapM f l)) as [e|bs] eqn:El; [discriminate|].
  apply in_app_iff. destruct Hin as [<- | Hin]; [now left|].
  right. apply in_app_iff. left. now apply (IH bs).
Qed.

(** A repack that goes through puts every file of the tree in the archive. *)
Lemma repack_events (w : world) (output_docx : text) (tree : list entry)
    (e : entry) :
  result (repack w output_docx tree) = inr tt -> In e tree ->
  In (EvZipWrite (relpath e) (content e))
     (events (repack w output_docx tree)).
Proof.
  unfold repack. intros Hres Hin.
  rewrite !result_bind in Hres. rewrite !events_bind.
  destruct (zip_open w output_docx); [discriminate|].
  cbn [call ret emit events result fst snd] in *.
  apply in_app_iff. right. rewrite !in_app_iff. right. left.
  destruct (result (mapM _ tree)) as [ex|us] eqn:Ez; [discriminate|].
  apply (mapM_events_In _ _ _ e _ Ez Hin).
  destruct (mapM_result_In _ _ _ e Ez Hin) as (u & Hu & _).
  rewrite result_bind in Hu. rewrite events_bind.
  destruct (zip_write w (relpath e)); [discriminate|].
  cbn. now left.
Qed.

Lemma filter_none {A} (f : A -> bool) (l : list A) :
  Forall (fun x => f x = false) l -> filter f l = [].
Proof.
  induction 1 as [|x l Hx _ IH]; simpl; [reflexivity|]. now rewrite Hx.
Qed.

End PipelineFacts.

(** ** Paths *)

Module PathFacts.
Import OsPath.

Local Open Scope Z_scope.

(** Where the last [c] of [p] is. *)
Lemma rfind_spec (c : N) (p : text) :
  (rfind c p = -1 /\ ~ In c p)
  \/ (exists a b, p = a ++ c :: b /\ ~ In c b
                  /\ rfind c p = Z.of_nat (length a)).
Proof.
  induction p as [|x p IH]; simpl.
  - left. split; [reflexivity | tauto].
  - destruct IH as [[Hr Hn] | (a & b & -> & Hn & Hr)].
    + rewrite Hr. simpl. destruct (N.eqb_spec x c) as [->|Hx].
      * right. exists [], p. auto.
      * left. split; [reflexivity|]. intros [H|H]; auto.
    + rewrite Hr. right. exists (x :: a), b. split; [reflexivity|].
      split; [assumption|].
      destruct (0 <=? Z.of_nat (length a)) eqn:E.
      * simpl length. lia.
      * apply Z.leb_gt in E. lia.
Qed.

Lemma rfind_range (c : N) (p : text) :
  -1 <= rfind c p < Z.of_nat (length p).
Proof.
  destruct (rfind_spec c p) as [[-> _] | (a & b & -> & _ & ->)].
  - lia.
  - rewrite length_app. simpl. lia.
Qed.

Lemma rfind_app_absent (c : N) (a b : text) :
  ~ In c b -> rfind c (a ++ b) = rfind c a.
Proof.
  intros Hb. induction a as [|x a IH]; simpl.
  - destruct (rfind_spec c b) as [[-> _] | (a' & b' & -> & _ & _)];
      [reflexivity|]. exfalso. apply Hb, in_elt.
  - now rewrite IH.
Qed.

Lemma in_skipn {A} (x : A) (n : nat) (l : list A) :
  In x (skipn n l) -> In x l.
Proof.
  revert l. induction n as [|n IH]; intros [|y l]; simpl; auto.
Qed.

Lemma skipn_app_cons {A} (a : list A) (x : A) (b : list A) :
  skipn (length a) (a ++ x :: b) = x :: b.
Proof. induction a; simpl; auto. Qed.

Lemma firstn_app_exact {A} (a b : list A) : firstn (length a) (a ++ b) = a.
Proof. induction a; simpl; congruence. Qed.

(** The two halves of [splitext] make up the path. *)
Lemma splitext_join (p : text) :
  fst (splitext p) ++ snd (splitext p) = p.
Proof.
  unfold splitext. destruct (_ && _); simpl.
  - apply firstn_skipn.
  - apply app_nil_r.
Qed.

(** The extension is empty, or a dot and then neither a dot nor a
    separator. *)
Lemma splitext_ext (p : text) :
  snd (splitext p) = []
  \/ exists e, snd (splitext p) = EXTSEP :: e /\ ~ In EXTSEP e /\ ~ In SEP e.
Proof.
  unfold splitext.
  destruct ((rfind SEP p <? rfind EXTSEP p) && _) eqn:E; [|now left].
  right. apply andb_true_iff in E. destruct E as [E _].
  apply Z.ltb_lt in E. pose proof (rfind_range SEP p) as Hsep.
  destruct (rfind_spec EXTSEP p) as [[Hr _] | (a & b & Hp & Hn & Hr)];
    [lia|].
  exists b. rewrite Hr, Nat2Z.id. simpl.
  rewrite Hp at 1. rewrite skipn_app_cons. split; [reflexivity|].
  split; [assumption|].
  destruct (rfind_spec SEP p) as [[_ Hs] | (a' & b' & Hp' & Hn' & Hr')].
  - intros H. apply Hs. rewrite Hp. apply in_app_iff. right. now right.
  - intros H. apply Hn'.
    assert (Hb' : b' = skipn (S (length a')) p).
    { rewrite Hp' at 1. change (S (length a')) with (1 + length a')%nat.
      rewrite <- skipn_skipn. rewrite skipn_app_cons. reflexivity. }
    assert (Hb : b = skipn (S (length a)) p).
    { rewrite Hp at 1. change (S (length a)) with (1 + length a)%nat.
      rewrite <- skipn_skipn. rewrite skipn_app_cons. reflexivity. }
    rewrite Hb', Hb in *.
    replace (S (length a)) with ((length a - length a') + S (length a'))%nat
      in H by lia.
    rewrite <- skipn_skipn in H. now apply in_skipn in H.
Qed.

Lemma dirname_app_tail (root tail : text) :
  ~ In SEP tail -> dirname (root ++ tail) = dirname root.
Proof.
  intros H. unfold dirname. rewrite (rfind_app_absent SEP root tail H).
  pose proof (rfind_range SEP root) as Hr.
  replace (firstn (Z.to_nat (rfind SEP root + 1)) (root ++ tail))
    with (firstn (Z.to_nat (rfind SEP root + 1)) root); [reflexivity|].
  rewrite firstn_app.
  replace (Z.to_nat (rfind SEP root + 1) - length root)%nat with 0%nat by lia.
  simpl. now rewrite app_nil_r.
Qed.

(** The path with its extension changed lies in the same directory. *)
Lemma dirname_new_extension (p tail : text) :
  ~ In SEP tail -> dirname (fst (splitext p) ++ tail) = dirname p.
Proof.
  intros H. rewrite (dirname_app_tail _ _ H).
  rewrite <- (splitext_join p) at 2.
  symmetry. apply dirname_app_tail.
  destruct (splitext_ext p) as [-> | (e & -> & _ & He)]; [tauto|].
  intros [Hc | Hc]; [discriminate | contradiction].
Qed.

End PathFacts.

(** ** Text files *)

Module CodecFacts.
Import Codec.

Local Open Scope N_scope.

Ltac Zify.zify_post_hook ::= Z.to_euclidean_division_equations.

Ltac nb H :=
  repeat first
    [ rewrite andb_true_iff in H | rewrite orb_true_iff in H
    | rewrite andb_false_iff in H | rewrite orb_false_iff in H
    | rewrite negb_true_iff in H | rewrite negb_false_iff in H
    | rewrite N.leb_le in H | rewrite N.leb_gt in H
    | rewrite N.ltb_lt in H | rewrite N.ltb_ge in H
    | rewrite N.eqb_eq in H | rewrite N.eqb_neq in H ].

Ltac nbg :=
  repeat first
    [ rewrite andb_true_iff | rewrite orb_true_iff
    | rewrite andb_false_iff | rewrite orb_false_iff
    | rewrite negb_true_iff | rewrite negb_false_iff
    | rewrite N.leb_le | rewrite N.leb_gt
    | rewrite N.ltb_lt | rewrite N.ltb_ge
    | rewrite N.eqb_eq | rewrite N.eqb_neq ].

Lemma decode1 (b0 : N) (rest : list N) :
  (b0 <? 128) = true ->
  utf8_decode (b0 :: rest) = option_map (cons b0) (utf8_decode rest).
Proof. intros H. cbn [utf8_decode]. now rewrite H. Qed.

Lemma decode2 (b0 b1 : N) (rest : list N) :
  (b0 <? 128) = false -> (194 <=? b0) && (b0 <=? 223) = true ->
  is_cont b1 = true ->
  utf8_decode (b0 :: b1 :: rest)
  = option_map (cons ((b0 - 192) * 64 + (b1 - 128))) (utf8_decode rest).
Proof. intros H0 H1 H2. cbn [utf8_decode]. now rewrite H0, H1, H2. Qed.

Lemma decode3 (b0 b1 b2 : N) (rest : list N) :
  (b0 <? 128) = false -> (194 <=? b0) && (b0 <=? 223) = false ->
  (224 <=? b0) && (b0 <=? 239) = true ->
  is_cont b1 && is_cont b2
  && (2048 <=? (b0 - 224) * 4096 + (b1 - 128) * 64 + (b2 - 128))
  && negb (is_surrogate ((b0 - 224) * 4096 + (b1 - 128) * 64 + (b2 - 128)))
  = true ->
  utf8_decode (b0 :: b1 :: b2 :: rest)
  = option_map (cons ((b0 - 224) * 4096 + (b1 - 128) * 64 + (b2 - 128)))
      (utf8_decode rest).
Proof. intros H0 H1 H2 H3. cbn [utf8_decode]. now rewrite H0, H1, H2, H3. Qed.

Lemma decode4 (b0 b1 b2 b3 : N) (rest : list N) :
  (b0 <? 128) = false -> (194 <=? b0) && (b0 <=? 223) = false ->
  (224 <=? b0) && (b0 <=? 239) = false ->
  (240 <=? b0) && (b0 <=? 244) = true ->
  is_cont b1 && is_cont b2 && is_cont b3
  && (65536 <=? (b0 - 240) * 262144 + (b1 - 128) * 4096
                + (b2 - 128) * 64 + (b3 - 128))
  && ((b0 - 240) * 262144 + (b1 - 128) * 4096
      + (b2 - 128) * 64 + (b3 - 128) <=? 1114111)
  = true ->
  utf8_decode (b0 :: b1 :: b2 :: b3 :: rest)
  = option_map (cons ((b0 - 240) * 262144 + (b1 - 128) * 4096
                      + (b2 - 128) * 64 + (b3 - 128)))
      (utf8_decode rest).
Proof.
  intros H0 H1 H2 H3 H4. cbn [utf8_decode]. now rewrite H0, H1, H2, H3, H4.
Qed.

Lemma some_inj {A} (a b : A) : Some a = Some b -> a = b.
Proof. intros H. now injection H. Qed.

Lemma encode_char_decode (cp : N) (bs : list N) (rest : list N) :
  utf8_encode_char cp = Some bs ->
  utf8_decode (bs ++ rest) = option_map (cons cp) (utf8_decode rest).
Proof.
  unfold utf8_encode_char.
  destruct (cp <? 128) eqn:E1.
  { intros H. injection H as <-. now apply decode1. }
  destruct (cp <? 2048) eqn:E2.
  { intros H. apply some_inj in H. subst bs. nb E1. nb E2.
    change ([192 + cp / 64; 128 + cp mod 64] ++ rest)
      with ((192 + cp / 64) :: (128 + cp mod 64) :: rest).
    rewrite decode2; [|nbg; lia|nbg; lia|unfold is_cont; nbg; lia].
    do 2 f_equal. lia. }
  destruct (cp <? 65536) eqn:E3.
  { destruct (is_surrogate cp) eqn:Es; [discriminate|].
    intros H. apply some_inj in H. subst bs. nb E1. nb E2. nb E3.
    change ([224 + cp / 4096; 128 + (cp / 64) mod 64; 128 + cp mod 64] ++ rest)
      with ((224 + cp / 4096) :: (128 + (cp / 64) mod 64)
            :: (128 + cp mod 64) :: rest).
    assert (Hcp : (224 + cp / 4096 - 224) * 4096
                  + (128 + (cp / 64) mod 64 - 128) * 64
                  + (128 + cp mod 64 - 128) = cp) by lia.
    rewrite decode3; [now rewrite Hcp|nbg; lia|nbg; lia|nbg; lia|].
    rewrite Hcp, Es. unfold is_cont. nbg. lia. }
  destruct (cp <=? 1114111) eqn:E4; [|discriminate].
  intros H. apply some_inj in H. subst bs. nb E1. nb E2. nb E3. nb E4.
  change ([240 + cp / 262144; 128 + (cp / 4096) mod 64;
           128 + (cp / 64) mod 64; 128 + cp mod 64] ++ rest)
    with ((240 + cp / 262144) :: (128 + (cp / 4096) mod 64)
          :: (128 + (cp / 64) mod 64) :: (128 + cp mod 64) :: rest).
  assert (Hcp : (240 + cp / 262144 - 240) * 262144
                + (128 + (cp / 4096) mod 64 - 128) * 4096
                + (128 + (cp / 64) mod 64 - 128) * 64
                + (128 + cp mod 64 - 128) = cp) by lia.
  rewrite decode4; [now rewrite Hcp|nbg; lia|nbg; lia|nbg; lia|nbg; lia|].
  rewrite Hcp. unfold is_cont. nbg. lia.
Qed.

Lemma encode_decode (t : text) :
  forall bs, utf8_encode t = Some bs -> utf8_decode bs = Some t.
Proof.
  induction t as [|cp t IH]; intros bs H.
  - cbn in H. apply some_inj in H. now subst bs.
  - cbn [utf8_encode] in H.
    destruct (utf8_encode_char cp) as [b|] eqn:Ec; [|discriminate].
    destruct (utf8_encode t) as [bs'|]; [|discriminate].
    apply some_inj in H. subst bs.
    rewrite (encode_char_decode cp b bs' Ec), (IH bs' eq_refl). reflexivity.
Qed.

Lemma encode_char_small (cp : N) (bs : list N) :
  utf8_encode_char cp = Some bs -> Forall (fun b => b <= 255) bs.
Proof.
  unfold utf8_encode_char.
  destruct (cp <? 128) eqn:E1.
  { intros H. apply some_inj in H. subst bs. nb E1.
    repeat constructor. lia. }
  destruct (cp <? 2048) eqn:E2.
  { intros H. apply some_inj in H. subst bs. nb E2.
    repeat constructor; lia. }
  destruct (cp <? 65536) eqn:E3.
  { destruct (is_surrogate cp); [discriminate|].
    intros H. apply some_inj in H. subst bs. nb E3.
    repeat constructor; lia. }
  destruct (cp <=? 1114111) eqn:E4; [|discriminate].
  intros H. apply some_inj in H. subst bs. nb E4.
  repeat constructor; lia.
Qed.

Lemma encode_small (t : text) :
  forall bs, utf8_encode t = Some bs -> Forall (fun b => b <= 255) bs.
Proof.
  induction t as [|cp t IH]; intros bs H.
  - cbn in H. apply some_inj in H. subst bs. constructor.
  - cbn [utf8_encode] in H.
    destruct (utf8_encode_char cp) as [b|] eqn:Ec; [|discriminate].
    destruct (utf8_encode t) as [bs'|]; [|discriminate].
    apply some_inj in H. subst bs. apply Forall_app. split.
    + now apply (encode_char_small cp).
    + now apply IH.
Qed.

Lemma to_N_byte_of_N (n : N) : n <= 255 -> Byte.to_N (byte_of_N n) = n.
Proof.
  intros H. unfold byte_of_N. destruct (Byte.of_N n) as [b|] eqn:E.
  - now apply Byte.to_of_N.
  - apply Byte.of_N_None_iff in E. lia.
Qed.

Lemma to_N_byte_of_N_map (bs : list N) :
  Forall (fun b => b <= 255) bs -> map Byte.to_N (map byte_of_N bs) = bs.
Proof.
  induction 1 as [|b bs Hb _ IH]; [reflexivity|].
  cbn [map]. now rewrite (to_N_byte_of_N b Hb), IH.
Qed.

End CodecFacts.


(** ** The loop over the keys *)

Module LoopFacts.
Import Re ReSpec SubSpec ReFacts PatternFacts SubFacts OrderFacts.

(** The two calls of [re.sub] for a key: the pattern always compiles, so the
    call fails exactly when the value is no template. *)
Lemma sub_double_eq (py : release) (key value s : text) :
  Re.sub py (pattern_double key) value s
  = on_result
      (fun tpl => scan (placeholder_regex [Lit LBRACE; Lit LBRACE] key) tpl s 0)
      (parse_template py value).
Proof.
  unfold Re.sub. rewrite compile_pattern_double.
  now destruct (parse_template py value).
Qed.

Lemma sub_single_eq (py : release) (key value s : text) :
  Re.sub py (pattern_single key) value s
  = on_result
      (fun tpl => scan (placeholder_regex [Lit LBRACE] key) tpl s 0)
      (parse_template py value).
Proof.
  unfold Re.sub. rewrite compile_pattern_single.
  now destruct (parse_template py value).
Qed.

(** *** Every text: the search from left to right *)

Section Replaced.

Variable r : regex.
Variable tpl : list titem.

Hypothesis nonempty : forall m, lang r m -> m <> [].

Lemma no_match_nil : matches r [] = [].
Proof.
  destruct (matches r []) as [|x l] eqn:E; [reflexivity|]. exfalso.
  assert (H : In x (matches r [])) by (rewrite E; now left).
  apply matches_spec in H. destruct H as (m & Em & Hm).
  symmetry in Em. apply app_eq_nil in Em. destruct Em as [-> _].
  now apply (nonempty [] Hm).
Qed.

Lemma scan_end : scan r tpl [] 0 = [].
Proof. cbn [scan]. unfold match_here. now rewrite no_match_nil. Qed.

Lemma scan_replaced_upto (n : nat) :
  forall s, (length s <= n)%nat ->
            replaced (lang r) (expand tpl) s (scan r tpl s 0).
Proof.
  induction n as [|n IH]; intros s Hs.
  - destruct s; [|simpl in Hs; lia]. rewrite scan_end. constructor.
  - destruct s as [|c s]; [rewrite scan_end; constructor|].
    destruct (matches r (c :: s)) as [|rest others] eqn:E.
    + rewrite (scan_no_match r tpl c s E). apply replaced_next.
      * intros p rest Ep Hp.
        assert (H : In rest (matches r (c :: s)))
          by (apply matches_spec; now exists p).
        rewrite E in H. destruct H.
      * apply IH. simpl in Hs. lia.
    + assert (H : In rest (matches r (c :: s))) by (rewrite E; now left).
      apply matches_spec in H. destruct H as (m & Em & Hm).
      pose proof (nonempty m Hm) as Hne.
      rewrite Em in E |- *.
      rewrite (scan_match r tpl m rest others Hne E).
      apply replaced_here; [assumption | assumption |].
      apply IH. apply (f_equal (@length N)) in Em.
      rewrite length_app in Em. simpl in Em, Hs.
      destruct m; [congruence | simpl in Em; lia].
Qed.

Lemma scan_replaced (s : text) :
  replaced (lang r) (expand tpl) s (scan r tpl s 0).
Proof. now apply (scan_replaced_upto (length s)). Qed.

End Replaced.

Lemma replaced_ext (P Q : text -> Prop) (f : text -> text) (s out : text) :
  (forall p, P p <-> Q p) -> replaced P f s out -> replaced Q f s out.
Proof.
  intros H. induction 1 as [|p rest out Hne Hp _ IH|c s out Hno _ IH].
  - constructor.
  - apply replaced_here; [assumption | now apply H | assumption].
  - apply replaced_next; [|assumption].
    intros p rest E Hq. apply (Hno p rest E). now apply H.
Qed.

Lemma replaced_inv (P : text -> Prop) (f : text -> text) (s o : text) :
  replaced P f s o ->
  (s = [] /\ o = [])
  \/ (exists p rest out,
        s = p ++ rest /\ p <> [] /\ P p /\ replaced P f rest out
        /\ o = f p ++ out)
  \/ (exists c s' out,
        s = c :: s' /\ (forall p rest, c :: s' = p ++ rest -> ~ P p)
        /\ replaced P f s' out /\ o = c :: out).
Proof.
  destruct 1 as [|p rest out Hne Hp H|c s out Hno H].
  - now left.
  - right. left. now exists p, rest, out.
  - right. right. now exists c, s, out.
Qed.

(** When a word of [P] that begins at a place is the only one that does,
    there is one result only. *)
Lemma replaced_functional (P : text -> Prop) (f : text -> text) :
  (forall p1 r1 p2 r2, P p1 -> P p2 -> p1 ++ r1 = p2 ++ r2 -> p1 = p2) ->
  forall s o1 o2, replaced P f s o1 -> replaced P f s o2 -> o1 = o2.
Proof.
  intros Huniq s o1 o2 H1. revert o2.
  induction H1 as [|p rest out Hne Hp _ IH|c s out Hno _ IH]; intros o2 H2;
    apply replaced_inv in H2;
    destruct H2 as [[E ->] | [(p' & rest' & out' & E & Hne' & Hp' & H' & ->)
                             | (c' & s' & out' & E & Hno' & H' & ->)]].
  - reflexivity.
  - symmetry in E. apply app_eq_nil in E. destruct E. congruence.
  - discriminate.
  - apply app_eq_nil in E. destruct E. congruence.
  - pose proof (Huniq p rest p' rest' Hp Hp' E) as <-.
    apply app_inv_head in E. subst rest'. f_equal. now apply IH.
  - exfalso. apply (Hno' p rest); [now symmetry | assumption].
  - discriminate.
  - exfalso. now apply (Hno p' rest').
  - injection E as <- <-. f_equal. now apply IH.
Qed.

Lemma placeholder_prefix_unique (opening key p1 r1 p2 r2 : text) :
  plain_key key = true ->
  placeholder opening key p1 -> placeholder opening key p2 ->
  p1 ++ r1 = p2 ++ r2 -> p1 = p2.
Proof.
  intros Hk H1 H2 E.
  pose proof (placeholder_unique opening key p1 p2 r1 r2 Hk H1 H2 E) as ->.
  now apply app_inv_tail in E.
Qed.

Lemma lang_placeholder_nonempty (opening key m : text) :
  Forall (fun c => Unicode.iscased c = false) (LBRACE :: opening) ->
  lang (placeholder_regex (map Lit (LBRACE :: opening)) key) m -> m <> [].
Proof.
  intros Hop Hm. apply lang_placeholder in Hm; [|assumption].
  apply (placeholder_nonempty (LBRACE :: opening) key); [discriminate|auto].
Qed.

(** [re.sub] with either pattern, on any text and with any value that is a
    template. *)
Lemma sub_double_replaced (py : release) (key value s : text)
    (tpl : list titem) :
  parse_template py value = inr tpl ->
  exists out,
    Re.sub py (pattern_double key) value s = inr out
    /\ replaced (delimited_form key) (expand tpl) s out.
Proof.
  intros Ht. rewrite sub_double_eq, Ht. cbn [on_result].
  eexists. split; [reflexivity|].
  apply (replaced_ext
           (lang (placeholder_regex (map Lit [LBRACE; LBRACE]) key))).
  - intros p. apply lang_placeholder. repeat constructor.
  - apply scan_replaced. intros m.
    apply (lang_placeholder_nonempty [LBRACE]). repeat constructor.
Qed.

Lemma sub_single_replaced (py : release) (key value s : text)
    (tpl : list titem) :
  parse_template py value = inr tpl ->
  exists out,
    Re.sub py (pattern_single key) value s = inr out
    /\ replaced (degraded_form key) (expand tpl) s out.
Proof.
  intros Ht. rewrite sub_single_eq, Ht. cbn [on_result].
  eexists. split; [reflexivity|].
  apply (replaced_ext (lang (placeholder_regex (map Lit [LBRACE]) key))).
  - intros p. apply lang_placeholder. repeat constructor.
  - apply scan_replaced. intros m.
    apply (lang_placeholder_nonempty []). repeat constructor.
Qed.

(** *** Failure *)

Lemma substitute_error (py : release) (data : list (text * text))
    (xml : text) (e : exn) :
  substitute py data xml = inl e <-> template_error py data = Some e.
Proof.
  revert xml. induction data as [|[key value] data IH]; intros xml.
  - split; discriminate.
  - cbn [substitute template_error].
    rewrite sub_double_eq.
    destruct (parse_template py value) as [e'|tpl] eqn:Et; cbn [on_result].
    + split; congruence.
    + rewrite sub_single_eq, Et. cbn [on_result]. apply IH.
Qed.

Lemma substitute_returns (py : release) (data : list (text * text))
    (xml : text) :
  template_error py data = None -> exists out, substitute py data xml = inr out.
Proof.
  intros H. destruct (substitute py data xml) as [e|out] eqn:E.
  - apply substitute_error in E. congruence.
  - now exists out.
Qed.

Lemma template_error_valid (py : release) (data : list (text * text)) :
  (forall key value, In (key, value) data -> valid_template py value = true) ->
  template_error py data = None.
Proof.
  induction data as [|[key value] data IH]; intros H; [reflexivity|].
  cbn [template_error]. pose proof (H key value (or_introl eq_refl)) as Hv.
  unfold valid_template in Hv.
  destruct (parse_template py value); [discriminate|].
  apply IH. intros k v Hin. apply (H k v). now right.
Qed.

Lemma template_error_in (py : release) (data : list (text * text))
    (key value : text) :
  In (key, value) data -> valid_template py value = false ->
  exists e, template_error py data = Some e.
Proof.
  induction data as [|[k v] data IH]; intros Hin Hv; [destruct Hin|].
  cbn [template_error].
  destruct (parse_template py v) as [e|tpl] eqn:Et; [now exists e|].
  destruct Hin as [Hin | Hin]; [|now apply IH].
  injection Hin as -> ->. unfold valid_template in Hv.
  now rewrite Et in Hv.
Qed.

Lemma valid_literal (py : release) (value : text) :
  backslash_free value = true -> valid_template py value = true.
Proof.
  intros H. unfold valid_template.
  now rewrite (parse_template_literal py value H).
Qed.

(** *** Text before the first brace *)

Lemma sub_double_prefix (py : release) (key value pre s : text) :
  brace_free pre = true ->
  Re.sub py (pattern_double key) value (pre ++ s)
  = on_result (app pre) (Re.sub py (pattern_double key) value s).
Proof.
  intros Hpre. rewrite !sub_double_eq.
  destruct (parse_template py value) as [e|tpl]; [reflexivity|].
  cbn [on_result]. f_equal.
  apply scan_brace_free; [apply (placeholder_regex_brace [Lit LBRACE])|].
  exact Hpre.
Qed.

Lemma sub_single_prefix (py : release) (key value pre s : text) :
  brace_free pre = true ->
  Re.sub py (pattern_single key) value (pre ++ s)
  = on_result (app pre) (Re.sub py (pattern_single key) value s).
Proof.
  intros Hpre. rewrite !sub_single_eq.
  destruct (parse_template py value) as [e|tpl]; [reflexivity|].
  cbn [on_result]. f_equal.
  apply scan_brace_free; [apply (placeholder_regex_brace [])|].
  exact Hpre.
Qed.

Lemma substitute_prefix (py : release) (data : list (text * text))
    (pre s : text) :
  brace_free pre = true ->
  substitute py data (pre ++ s) = on_result (app pre) (substitute py data s).
Proof.
  intros Hpre. revert s. induction data as [|[key value] data IH]; intros s.
  - reflexivity.
  - cbn [substitute]. rewrite (sub_double_prefix py key value pre s Hpre).
    destruct (Re.sub py (pattern_double key) value s) as [e|s1];
      [reflexivity|].
    cbn [on_result]. rewrite (sub_single_prefix py key value pre s1 Hpre).
    destruct (Re.sub py (pattern_single key) value s1) as [e|s2];
      [reflexivity|].
    cbn [on_result]. apply IH.
Qed.

Lemma substitute_nil_text (py : release) (data : list (text * text)) :
  (forall key value, In (key, value) data -> valid_template py value = true) ->
  substitute py data [] = inr [].
Proof.
  induction data as [|[key value] data IH]; intros H; [reflexivity|].
  cbn [substitute]. rewrite sub_double_eq.
  pose proof (H key value (or_introl eq_refl)) as Hv.
  unfold valid_template in Hv.
  destruct (parse_template py value) as [e|tpl] eqn:Et; [discriminate|].
  cbn [on_result]. rewrite scan_nil by reflexivity.
  rewrite sub_single_eq, Et. cbn [on_result].
  rewrite scan_nil by reflexivity.
  apply IH. intros k v Hin. apply (H k v). now right.
Qed.

Lemma substitute_brace_free (py : release) (data : list (text * text))
    (xml : text) :
  brace_free xml = true ->
  (forall key value, In (key, value) data -> valid_template py value = true) ->
  substitute py data xml = inr xml.
Proof.
  intros Hxml Hdata. rewrite <- (app_nil_r xml) at 1.
  rewrite (substitute_prefix py data xml [] Hxml).
  rewrite (substitute_nil_text py data Hdata). cbn. now rewrite app_nil_r.
Qed.

(** *** Words without whitespace, [<] or braces *)

Lemma same_key_in (key k : text) (t : N) :
  same_key key k -> In t k -> exists c, In c key /\ lit_ignore c t = true.
Proof.
  induction 1 as [|c t' key k Hct _ IH]; intros Hin; [destruct Hin|].
  destruct Hin as [<- | Hin].
  - exists c. split; [now left | now apply lit_ignore_spec].
  - destruct (IH Hin) as (c' & Hc' & Hm). exists c'. split; [now right|auto].
Qed.

Lemma closing_stops_ok (y : text) : stops ([RBRACE; RBRACE] ++ y).
Proof.
  exists RBRACE, (RBRACE :: y). split; [reflexivity|].
  split; [reflexivity | discriminate].
Qed.

Lemma plain_char_spec (c : N) :
  plain_char c = true
  <-> is_space c = false /\ c <> LT /\ c <> LBRACE /\ c <> RBRACE.
Proof.
  unfold plain_char.
  rewrite !andb_true_iff, !negb_true_iff, !N.eqb_neq. tauto.
Qed.

Lemma plain_word_cons (c : N) (k : text) :
  plain_word (c :: k) = true <-> plain_char c = true /\ plain_word k = true.
Proof. unfold plain_word. simpl. apply andb_true_iff. Qed.

(** A character that stands for a plain character is plain. *)
Lemma same_letter_plain (c t : N) :
  same_letter c t -> plain_char c = true -> plain_char t = true.
Proof.
  intros H Hc. apply lit_ignore_spec, lit_ignore_cases in H.
  destruct H as [-> | [_ Ht]]; [assumption|].
  apply plain_char_spec.
  pose proof (UnicodeFacts.cased_not_space t Ht) as Hs.
  destruct (UnicodeFacts.cased_not_special t Ht) as (Hsp & Hlt & _ & _).
  repeat split; try assumption; intros ->; vm_compute in Hsp; discriminate.
Qed.

Lemma same_key_plain (key written : text) :
  same_key key written -> plain_word key = true -> plain_word written = true.
Proof.
  induction 1 as [|c t key written Hct _ IH]; intros H; [reflexivity|].
  apply plain_word_cons in H. destruct H as [Hc Hk].
  apply plain_word_cons. split; [now apply (same_letter_plain c t)|auto].
Qed.

Lemma plain_word_no_rbrace (k : text) :
  plain_word k = true -> forall c, In c k -> lit_ignore c RBRACE = false.
Proof.
  intros Hk c Hin. unfold plain_word in Hk.
  rewrite forallb_forall in Hk. specialize (Hk c Hin).
  apply plain_char_spec in Hk. destruct Hk as (_ & _ & _ & Hc).
  destruct (lit_ignore c RBRACE) eqn:E; [|reflexivity].
  apply lit_ignore_literal in E; [congruence | reflexivity].
Qed.

Lemma plain_word_plain_key (k : text) :
  plain_word k = true -> k <> [] -> plain_key k = true.
Proof.
  destruct k as [|c k]; [congruence|]. intros H _.
  apply plain_word_cons in H. destruct H as [H _].
  apply plain_char_spec in H. destruct H as (H1 & H2 & _).
  simpl. rewrite H1. apply N.eqb_neq in H2. now rewrite H2.
Qed.

Lemma plain_word_brace_free (k : text) :
  plain_word k = true -> brace_free k = true.
Proof.
  induction k as [|c k IH]; [reflexivity|]. intros H.
  apply plain_word_cons in H. destruct H as [Hc Hk].
  apply plain_char_spec in Hc. destruct Hc as (_ & _ & Hc & _).
  simpl. apply N.eqb_neq in Hc. rewrite Hc. simpl. now apply IH.
Qed.

Lemma plain_char_stops (c : N) (y : text) :
  plain_char c = true -> stops (c :: y).
Proof.
  intros H. apply plain_char_spec in H. destruct H as (H1 & H2 & _).
  exists c, y. auto.
Qed.

(** After a plain word and the closing braces no gap can begin. *)
Lemma plain_word_stops (w post : text) :
  plain_word w = true -> stops (w ++ [RBRACE; RBRACE] ++ post).
Proof.
  destruct w as [|c w]; intros H.
  - apply closing_stops_ok.
  - apply plain_word_cons in H. now apply plain_char_stops.
Qed.

Lemma matches_nil_of_no_placeholder (opening key s : text) :
  Forall (fun c => Unicode.iscased c = false) opening ->
  (forall m rest, placeholder opening key m -> m ++ rest = s -> False) ->
  matches (placeholder_regex (map Lit opening) key) s = [].
Proof.
  intros Hop H.
  destruct (matches (placeholder_regex (map Lit opening) key) s)
    as [|x others] eqn:E; [reflexivity|]. exfalso.
  assert (Hx : In x (matches (placeholder_regex (map Lit opening) key) s))
    by (rewrite E; now left).
  apply matches_spec in Hx. destruct Hx as (m & Em & Hm).
  apply lang_placeholder in Hm; [|assumption]. now apply (H m x).
Qed.

(** No placeholder of the key [k1] begins where the placeholder of a word
    that is not [k1] stands. *)
Lemma no_placeholder_at (opening k1 w post : text) :
  plain_word k1 = true -> k1 <> [] -> plain_word w = true ->
  ~ same_key k1 w ->
  forall m rest,
    placeholder opening k1 m ->
    m ++ rest = opening ++ w ++ [RBRACE; RBRACE] ++ post -> False.
Proof.
  intros Hk1 Hne Hw Hdiff m rest (g1 & k & g2 & -> & Hg1 & Hk & Hg2) E.
  pose proof (plain_word_plain_key k1 Hk1 Hne) as Hpk.
  rewrite <- !app_assoc in E. apply app_inv_head in E.
  destruct (gap_unique g1 [] _ _ Hg1 is_gap_nil
              (same_key_stops k1 k _ Hpk Hk)
              (plain_word_stops w post Hw) E) as [_ E1].
  apply app_eq_app in E1. destruct E1 as (l & [[Ek El] | [Ew El]]).
  - destruct l as [|c l].
    + rewrite app_nil_r in Ek. subst k. contradiction.
    + simpl in El. injection El as <- _.
      assert (Hin : In RBRACE k) by (rewrite Ek; apply in_elt).
      destruct (same_key_in k1 k RBRACE Hk Hin) as (c & Hc & Hm).
      rewrite (plain_word_no_rbrace k1 Hk1 c Hc) in Hm. discriminate.
  - destruct l as [|c l].
    + rewrite app_nil_r in Ew. subst w. contradiction.
    + assert (Hc : plain_char c = true).
      { unfold plain_word in Hw. rewrite forallb_forall in Hw. apply Hw.
        rewrite Ew. apply in_elt. }
      destruct (gap_unique g2 [] _ _ Hg2 is_gap_nil
                  (closing_stops_ok rest)
                  (plain_char_stops c (l ++ [RBRACE; RBRACE] ++ post) Hc) El)
        as [_ E2].
      injection E2 as E2 _. apply plain_char_spec in Hc.
      destruct Hc as (_ & _ & _ & Hc). congruence.
Qed.

(** Nor does one begin at a brace that another brace follows, when it has a
    single opening brace. *)
Lemma no_degraded_at_brace (k1 y : text) :
  plain_word k1 = true -> k1 <> [] ->
  forall m rest,
    placeholder [LBRACE] k1 m -> m ++ rest = LBRACE :: LBRACE :: y -> False.
Proof.
  intros Hk1 Hne m rest (g1 & k & g2 & -> & Hg1 & Hk & Hg2) E.
  pose proof (plain_word_plain_key k1 Hk1 Hne) as Hpk.
  cbn [app] in E. injection E as E. rewrite <- !app_assoc in E.
  destruct (gap_unique g1 [] _ _ Hg1 is_gap_nil
              (same_key_stops k1 k _ Hpk Hk)
              (stops_brace y) E) as [_ E1].
  destruct Hk as [|c t k1' k' Hct _]; [congruence|].
  cbn [app] in E1. injection E1 as -> _.
  apply plain_word_cons in Hk1. destruct Hk1 as [Hc _].
  pose proof (same_letter_plain c LBRACE Hct Hc) as Hb.
  apply plain_char_spec in Hb. tauto.
Qed.

Lemma double_no_match (key : text) (c : N) (rest : text) :
  c <> LBRACE ->
  matches (placeholder_regex [Lit LBRACE; Lit LBRACE] key) (LBRACE :: c :: rest)
  = [].
Proof.
  intros Hc. unfold placeholder_regex. simpl.
  change (lit_ignore LBRACE LBRACE) with true. simpl.
  change (lit_ignore LBRACE c) with (c =? LBRACE)%N.
  apply N.eqb_neq in Hc. now rewrite Hc.
Qed.

(** Either pattern of a key leaves the placeholder of another word where it
    is, and goes on after it. *)
Lemma scan_other_word (opening : list N) (k1 w : text) (tpl : list titem)
    (post : text) :
  let r := placeholder_regex (map Lit (LBRACE :: opening)) k1 in
  (opening = [LBRACE] \/ opening = []) ->
  plain_word k1 = true -> k1 <> [] -> plain_word w = true ->
  ~ same_key k1 w ->
  scan r tpl (LBRACE :: LBRACE :: w ++ RBRACE :: RBRACE :: post) 0
  = LBRACE :: LBRACE :: w ++ RBRACE :: RBRACE :: scan r tpl post 0.
Proof.
  intros r Hop Hk1 Hne Hw Hdiff.
  assert (Hhead : exists c y, w ++ RBRACE :: RBRACE :: post = c :: y
                              /\ c <> LBRACE).
  { destruct w as [|c w].
    - exists RBRACE, (RBRACE :: post). split; [reflexivity | discriminate].
    - exists c, (w ++ RBRACE :: RBRACE :: post). split; [reflexivity|].
      apply plain_word_cons in Hw. destruct Hw as [Hc _].
      apply plain_char_spec in Hc. tauto. }
  assert (Hbf : brace_free (w ++ [RBRACE; RBRACE]) = true).
  { now rewrite brace_free_app, (plain_word_brace_free w Hw). }
  assert (Htail : forall r' (Hr' : forall c s, c <> LBRACE ->
                                               matches r' (c :: s) = []),
            scan r' tpl (w ++ RBRACE :: RBRACE :: post) 0
            = w ++ RBRACE :: RBRACE :: scan r' tpl post 0).
  { intros r' Hr'.
    change (w ++ RBRACE :: RBRACE :: post)
      with (w ++ [RBRACE; RBRACE] ++ post).
    change (w ++ RBRACE :: RBRACE :: scan r' tpl post 0)
      with (w ++ [RBRACE; RBRACE] ++ scan r' tpl post 0).
    rewrite !app_assoc. now apply scan_brace_free. }
  destruct Hop as [-> | ->]; subst r.
  - rewrite scan_no_match.
    2:{ apply (matches_nil_of_no_placeholder [LBRACE; LBRACE]);
          [repeat constructor|].
        intros m rest Hm E.
        now apply (no_placeholder_at [LBRACE; LBRACE] k1 w post Hk1 Hne Hw
                     Hdiff m rest Hm). }
    f_equal. destruct Hhead as (c & y & Ey & Hc).
    rewrite scan_no_match by (rewrite Ey; now apply double_no_match).
    f_equal. apply Htail. apply (placeholder_regex_brace [Lit LBRACE]).
  - rewrite scan_no_match.
    2:{ apply (matches_nil_of_no_placeholder [LBRACE]); [repeat constructor|].
        intros m rest Hm E.
        exact (no_degraded_at_brace k1 _ Hk1 Hne m rest Hm E). }
    f_equal. rewrite scan_no_match.
    2:{ apply (matches_nil_of_no_placeholder [LBRACE]); [repeat constructor|].
        intros m rest Hm E.
        now apply (no_placeholder_at [LBRACE] k1 w post Hk1 Hne Hw Hdiff
                     m rest Hm). }
    f_equal. apply Htail. apply (placeholder_regex_brace []).
Qed.

Lemma braced_app (w post : text) :
  braced w ++ post = LBRACE :: LBRACE :: w ++ RBRACE :: RBRACE :: post.
Proof. unfold braced. now rewrite <- !app_assoc. Qed.

Lemma sub_double_other_word (py : release) (k1 v1 w pre post : text) :
  plain_word k1 = true -> k1 <> [] -> plain_word w = true ->
  ~ same_key k1 w -> brace_free pre = true ->
  Re.sub py (pattern_double k1) v1 (pre ++ braced w ++ post)
  = on_result (fun t => pre ++ braced w ++ t)
      (Re.sub py (pattern_double k1) v1 post).
Proof.
  intros Hk1 Hne Hw Hdiff Hpre.
  rewrite (sub_double_prefix py k1 v1 pre _ Hpre), !sub_double_eq.
  destruct (parse_template py v1) as [e|tpl]; [reflexivity|].
  cbn [on_result]. do 2 f_equal. rewrite !braced_app.
  now apply (scan_other_word [LBRACE] k1 w tpl post); auto.
Qed.

Lemma sub_single_other_word (py : release) (k1 v1 w pre post : text) :
  plain_word k1 = true -> k1 <> [] -> plain_word w = true ->
  ~ same_key k1 w -> brace_free pre = true ->
  Re.sub py (pattern_single k1) v1 (pre ++ braced w ++ post)
  = on_result (fun t => pre ++ braced w ++ t)
      (Re.sub py (pattern_single k1) v1 post).
Proof.
  intros Hk1 Hne Hw Hdiff Hpre.
  rewrite (sub_single_prefix py k1 v1 pre _ Hpre), !sub_single_eq.
  destruct (parse_template py v1) as [e|tpl]; [reflexivity|].
  cbn [on_result]. do 2 f_equal. rewrite !braced_app.
  now apply (scan_other_word [] k1 w tpl post); auto.
Qed.

(** *** Letter case *)

Lemma tolower_uncased (c : N) :
  Unicode.iscased c = false -> Unicode.tolower c = c.
Proof.
  intros H. destruct (N.eq_dec (Unicode.tolower c) c) as [E|E]; [exact E|].
  apply UnicodeFacts.tolower_cased in E. congruence.
Qed.

(** Two characters with the same lower-case form stand for each other. *)
Lemma same_lower_letter (c t : N) :
  Unicode.tolower t = Unicode.tolower c -> same_letter c t.
Proof.
  intros E. destruct (Unicode.iscased c) eqn:Ec.
  - right. split; [exact Ec | now left].
  - left. rewrite (tolower_uncased c Ec) in E.
    destruct (N.eq_dec (Unicode.tolower t) t) as [Et|Et]; [congruence|].
    apply UnicodeFacts.tolower_cased, UnicodeFacts.cased_tolower in Et.
    congruence.
Qed.

Lemma same_lower_same_key (key written : text) :
  same_lower key written -> same_key key written.
Proof.
  unfold same_lower, same_key. revert written.
  induction key as [|c key IH]; intros [|t written] E; try discriminate.
  - constructor.
  - injection E as Ect E. constructor; [|now apply IH].
    now apply same_lower_letter.
Qed.

Lemma same_key_any_case (key written : text) :
  map ascii_lower written = map ascii_lower key -> same_key key written.
Proof.
  unfold same_key. revert written.
  induction key as [|c key IH]; intros [|t written] E; try discriminate.
  - constructor.
  - injection E as Ect E. constructor; [|now apply IH].
    now apply same_letter_ascii_case.
Qed.

Lemma extra_cases_ascii (lo : N) :
  (lo < 128)%N ->
  Unicode.extra_cases lo
  = if (lo =? 105)%N then [305%N] else if (lo =? 115)%N then [383%N] else [].
Proof.
  intros H.
  assert (Hb : text_eqb (Unicode.extra_cases lo)
                 (if (lo =? 105)%N then [305%N]
                  else if (lo =? 115)%N then [383%N] else []) = true).
  { revert lo H.
    apply (UnicodeFacts.ascii_all
             (fun lo => text_eqb (Unicode.extra_cases lo)
                          (if (lo =? 105)%N then [305%N]
                           else if (lo =? 115)%N then [383%N] else []))).
    vm_compute. reflexivity. }
  unfold text_eqb in Hb.
  now destruct (list_eq_dec N.eq_dec (Unicode.extra_cases lo) _).
Qed.

(** Nothing but the dotless i and the long s has one of them for its
    lower-case form. *)
Lemma tolower_extra_ascii (t : N) :
  Unicode.tolower t = 305%N \/ Unicode.tolower t = 383%N ->
  Unicode.tolower t = t.
Proof.
  intros H. destruct (N.eq_dec (Unicode.tolower t) t) as [E|E]; [exact E|].
  exfalso.
  assert (Hb : negb (Unicode.tolower t =? 305)%N
               && negb (Unicode.tolower t =? 383)%N = true).
  { clear H. revert t E.
    apply (UnicodeFacts.lower_all
             (fun t => negb (Unicode.tolower t =? 305)%N
                       && negb (Unicode.tolower t =? 383)%N)).
    vm_compute. reflexivity. }
  apply andb_prop in Hb. destruct Hb as [H1 H2].
  apply negb_true_iff, N.eqb_neq in H1, H2. destruct H; contradiction.
Qed.

(** The characters that stand for an ASCII character: the character in its
    two cases and, for [i], [s] and [k], the dotted capital I and the dotless
    i, the long s, and the Kelvin sign. *)
Lemma same_letter_ascii (c t : N) :
  (c < 128)%N ->
  (same_letter c t
   <-> ascii_lower t = ascii_lower c
       \/ (ascii_lower c = 105 /\ (t = 304 \/ t = 305))%N
       \/ (ascii_lower c = 115 /\ t = 383)%N
       \/ (ascii_lower c = 107 /\ t = 8490)%N).
Proof.
  intros Hc. split.
  - intros [-> | (Hcased & H)]; [now left|].
    rewrite (UnicodeFacts.tolower_ascii c Hc) in H.
    assert (Hlo : (ascii_lower c < 128)%N).
    { unfold ascii_lower. destruct ((65 <=? c) && (c <=? 90))%N eqn:E;
        bool_to_prop E; lia. }
    destruct H as [H | H].
    + assert (Ht : (Unicode.tolower t < 128)%N) by (rewrite H; exact Hlo).
      destruct (UnicodeFacts.tolower_into_ascii t Ht) as [Ht' | [-> | ->]].
      * left. now rewrite <- (UnicodeFacts.tolower_ascii t Ht').
      * right. left. split; [|now left].
        rewrite <- H. reflexivity.
      * right. right. right. split; [|reflexivity].
        rewrite <- H. reflexivity.
    + rewrite (extra_cases_ascii _ Hlo) in H.
      destruct (ascii_lower c =? 105)%N eqn:E1.
      * apply N.eqb_eq in E1. destruct H as [H | []].
        right. left. split; [exact E1|]. right.
        rewrite <- (tolower_extra_ascii t); [now symmetry|]. left.
        now symmetry.
      * destruct (ascii_lower c =? 115)%N eqn:E2; [|destruct H].
        apply N.eqb_eq in E2. destruct H as [H | []].
        right. right. left. split; [exact E2|].
        rewrite <- (tolower_extra_ascii t); [now symmetry|]. right.
        now symmetry.
  - intros [H | [(H & [-> | ->]) | [(H & ->) | (H & ->)]]].
    + now apply same_letter_ascii_case.
    + right. rewrite (UnicodeFacts.iscased_ascii c Hc),
        (UnicodeFacts.tolower_ascii c Hc), H.
      split; [|now left]. unfold ascii_lower, is_ascii_letter in *.
      destruct ((65 <=? c) && (c <=? 90))%N eqn:E; bool_to_prop E;
        [assert (c = 73)%N by lia | assert (c = 105)%N by lia]; now subst.
    + right. rewrite (UnicodeFacts.iscased_ascii c Hc),
        (UnicodeFacts.tolower_ascii c Hc), H.
      split; [|right; now left]. unfold ascii_lower, is_ascii_letter in *.
      destruct ((65 <=? c) && (c <=? 90))%N eqn:E; bool_to_prop E;
        [assert (c = 73)%N by lia | assert (c = 105)%N by lia]; now subst.
    + right. rewrite (UnicodeFacts.iscased_ascii c Hc),
        (UnicodeFacts.tolower_ascii c Hc), H.
      split; [|right; now left]. unfold ascii_lower, is_ascii_letter in *.
      destruct ((65 <=? c) && (c <=? 90))%N eqn:E; bool_to_prop E;
        [assert (c = 83)%N by lia | assert (c = 115)%N by lia]; now subst.
    + right. rewrite (UnicodeFacts.iscased_ascii c Hc),
        (UnicodeFacts.tolower_ascii c Hc), H.
      split; [|now left]. unfold ascii_lower, is_ascii_letter in *.
      destruct ((65 <=? c) && (c <=? 90))%N eqn:E; bool_to_prop E;
        [assert (c = 75)%N by lia | assert (c = 107)%N by lia]; now subst.
Qed.



(** *** The key where it is written *)






End LoopFacts.

(** ** A run of the function *)

Module RunFacts.
Import PipelineFacts.

Lemma in_all_events {A} (P : event -> Prop) (m : M A) (ev : event) :
  all_events P m -> In ev (events m) -> P ev.
Proof. unfold all_events. rewrite Forall_forall. auto. Qed.

(** The outcome of the function, stage by stage: the error of making the
    temporary directory, else that of removing it, else that of the body of
    the [try], else that of the renderer. *)
Lemma fill_result (w : world) (input_docx output_docx : text)
    (data : list (text * text)) :
  result (fill_docx_and_convert w input_docx output_docx data)
  = match mkdtemp w with
    | inl e => inl e
    | inr d =>
        match rmtree w d with
        | Some e => inl e
        | None =>
            match result (unpack_substitute_repack w
                            (before_unpack w output_docx)
                            input_docx output_docx d data) with
            | inl e => inl e
            | inr _ =>
                match result (convert w
                                (output_docx :: before_unpack w output_docx)
                                output_docx (pdf_path output_docx)) with
                | inl e => inl e
                | inr _ => inr (output_docx, pdf_path output_docx)
                end
            end
        end
    end.
Proof.
  unfold fill_docx_and_convert, before_unpack, pdf_path.
  rewrite result_bind, result_remove_if_exists. cbn beta iota.
  rewrite result_bind, result_remove_if_exists. cbn beta iota.
  rewrite result_bind.
  destruct (mkdtemp w) as [e|d]; [reflexivity|].
  rewrite result_bind. cbn [emit ret bind result snd].
  rewrite result_bind, result_try_finally.
  rewrite result_bind. cbn [emit result snd call].
  destruct (rmtree w d) as [e|]; cbn [call raise ret result snd];
    [reflexivity|].
  destruct (result (unpack_substitute_repack _ _ _ _ _ _)); reflexivity.
Qed.

(** What the function does, stage by stage. *)
Lemma fill_events (w : world) (input_docx output_docx : text)
    (data : list (text * text)) :
  events (fill_docx_and_convert w input_docx output_docx data)
  = events (remove_if_exists w (files w) output_docx)
    ++ events (remove_if_exists w (cleared w (files w) output_docx)
                 (pdf_path output_docx))
    ++ match mkdtemp w with
       | inl _ => []
       | inr d =>
           EvMkdtemp d
           :: events (unpack_substitute_repack w (before_unpack w output_docx)
                        input_docx output_docx d data)
           ++ EvRmtree d
           :: match rmtree w d,
                    result (unpack_substitute_repack w
                              (before_unpack w output_docx)
                              input_docx output_docx d data) with
              | None, inr _ =>
                  events (convert w
                            (output_docx :: before_unpack w output_docx)
                            output_docx (pdf_path output_docx))
              | _, _ => []
              end
       end.
Proof.
  unfold fill_docx_and_convert, before_unpack, pdf_path.
  rewrite events_bind, result_remove_if_exists. cbn beta iota. f_equal.
  rewrite events_bind, result_remove_if_exists. cbn beta iota. f_equal.
  rewrite events_bind.
  destruct (mkdtemp w) as [e|d]; [reflexivity|].
  rewrite events_bind, result_bind. cbn [emit ret bind events result fst snd app].
  f_equal. rewrite events_bind, events_try_finally, result_try_finally.
  destruct (rmtree w d) as [e|];
    cbn [call raise ret emit bind events result fst snd app];
    rewrite <- app_assoc; cbn [app]; f_equal; f_equal; try reflexivity.
  destruct (result (unpack_substitute_repack _ _ _ _ _ _)); [reflexivity|].
  rewrite events_bind.
  destruct (result (convert _ _ _ _)); cbn; now rewrite ?app_nil_r.
Qed.

Lemma fill_returns_paths (w : world) (input_docx output_docx : text)
    (data : list (text * text)) (r : text * text) :
  result (fill_docx_and_convert w input_docx output_docx data) = inr r ->
  r = (output_docx, fst (OsPath.splitext output_docx) ++ str ".pdf").
Proof.
  rewrite fill_result. intros H.
  destruct (mkdtemp w) as [e|d]; [discriminate|].
  destruct (rmtree w d); [discriminate|].
  destruct (result (unpack_substitute_repack _ _ _ _ _ _)); [discriminate|].
  destruct (result (convert _ _ _ _)); [discriminate|].
  now injection H as <-.
Qed.

(** The body of the loop over the parts, case by case. *)
Lemma process_part_cases (w : world) (data : list (text * text)) (e : entry) :
  process_part w data e = ret e
  \/ (scanned e = true /\ open_read w (relpath e) = None /\
      exists xml, Codec.read_text (content e) = Some xml /\
        ((exists ex, substitute (python w) data xml = inl ex
                     /\ process_part w data e = raise ex)
         \/ exists new_xml,
              substitute (python w) data xml = inr new_xml /\ new_xml <> xml /\
              ((exists ex, open_write w (relpath e) = Some ex
                           /\ process_part w data e = raise ex)
               \/ (open_write w (relpath e) = None /\
                   Codec.write_text new_xml = None /\
                   process_part w data e = raise UnicodeEncodeError)
               \/ (exists b, open_write w (relpath e) = None /\
                     Codec.write_text new_xml = Some b /\
                     process_part w data e
                     = ([EvWritePart (relpath e) b],
                        inr (Entry (relpath e) b)))))).
Proof.
  unfold process_part, scanned.
  destruct (in_word_dir (relpath e) && ends_with_xml (last (relpath e) []));
    [|now left].
  destruct (open_read w (relpath e)); [now left|].
  destruct (Codec.read_text (content e)) as [xml|]; [|now left].
  destruct (substitute (python w) data xml) as [ex|new_xml] eqn:Es.
  { right. repeat split. exists xml. split; [reflexivity|]. left.
    now exists ex. }
  destruct (text_eqb new_xml xml) eqn:Eq; [now left|].
  right. repeat split. exists xml. split; [reflexivity|]. right.
  exists new_xml. split; [exact Es|]. split.
  { intros ->. assert (text_eqb xml xml = true) by now apply text_eqb_spec.
    congruence. }
  destruct (open_write w (relpath e)) as [ex|].
  - left. now exists ex.
  - destruct (Codec.write_text new_xml) as [b|] eqn:Ew.
    + right. right. now exists b.
    + right. left. auto.
Qed.



(** The loop raises what its first failing step raises. *)
Lemma mapM_raises {A B} (f : A -> M B) (l : list A) (ex : exn) :
  (forall a, In a l -> result (f a) = inl ex \/ exists b, result (f a) = inr b) ->
  (exists a, In a l /\ result (f a) = inl ex) ->
  result (mapM f l) = inl ex.
Proof.
  induction l as [|a l IH]; intros Hall (a0 & Hin & Ha0); [destruct Hin|].
  cbn [mapM]. rewrite result_bind.
  destruct (Hall a (or_introl eq_refl)) as [Ha | (b & Ha)]; rewrite Ha;
    [reflexivity|].
  rewrite result_bind. rewrite IH; [reflexivity| |].
  - intros a' Hin'. apply Hall. now right.
  - destruct Hin as [<- | Hin]; [congruence|]. now exists a0.
Qed.

(** The renderer is started with the fixed list of arguments and nothing
    else. *)
Lemma convert_runs (w : world) (fs : list text) (output_docx output_pdf : text)
    (args : list text) :
  In (EvRun args) (events (convert w fs output_docx output_pdf)) ->
  args = libreoffice_args output_docx.
Proof.
  unfold convert. rewrite events_bind. cbn [emit events result fst snd].
  intros [H | H]; [now injection H as <-|]. exfalso.
  assert (Hno : all_events (fun ev => is_run ev = false)
                  (match run w (libreoffice_args output_docx) fs with
                   | inl FileNotFoundError =>
                       emit (EvLogError FileNotFoundError) ;;;
                       raise FileNotFoundError
                   | inl e => raise e
                   | inr (proc, fs') =>
                       emit (EvLogInfo (stdout proc)) ;;;
                       emit (EvLogInfo (stderr proc)) ;;;
                       if negb (returncode proc =? 0)%Z
                          || negb (there fs' output_pdf)
                       then emit (EvLogError (RuntimeError (returncode proc))) ;;;
                            raise (RuntimeError (returncode proc))
                       else ret tt
                   end : M unit)).
  { all_events_tac. }
  apply (in_all_events _ _ _ Hno) in H. discriminate.
Qed.

End RunFacts.

(** * The claims *)

Import Re ReSpec SubSpec ReFacts PatternFacts SubFacts OrderFacts LoopFacts.
Import PipelineFacts PathFacts RunFacts.

(** C1.  For every key the matcher recognizes exactly two shapes of
    placeholder, both without regard to letter case: two opening braces,
    a gap of whitespace and tag fragments, the key, such a gap again, two
    closing braces; and the same with a single opening brace.  A text matches
    the first pattern in full exactly when it has the first shape, and the
    second exactly when it has the second.  The key written with other
    letter cases (characters with the same lower-case forms) counts as the
    key; for a character of ASCII the characters that stand for it are its
    two cases and, for [i], [s] and [k], the four characters that Unicode
    gives the same lower or upper case.  On every text, and with every value
    that is a template, [re.sub] with either pattern goes from left to right
    and replaces a placeholder of the shape wherever one begins; for a key
    that begins with neither whitespace nor [<] that determines the result.
    In particular a placeholder that follows text without braces is replaced
    by a value without backslash. *)
Theorem placeholder_forms_recognized (py : release) (key : text) :
  (forall s, fullmatch (pattern_double key) s = true <-> delimited_form key s)
  /\ (forall s, fullmatch (pattern_single key) s = true <-> degraded_form key s)
  /\ (forall written,
        same_lower key written
        \/ map ascii_lower written = map ascii_lower key ->
        delimited_form key ([LBRACE; LBRACE] ++ written ++ [RBRACE; RBRACE])
        /\ degraded_form key ([LBRACE] ++ written ++ [RBRACE; RBRACE]))
  /\ (forall c t,
        (c < 128)%N ->
        (same_letter c t
         <-> ascii_lower t = ascii_lower c
             \/ (ascii_lower c = 105 /\ (t = 304 \/ t = 305))%N
             \/ (ascii_lower c = 115 /\ t = 383)%N
             \/ (ascii_lower c = 107 /\ t = 8490)%N))
  /\ (forall value tpl s,
        parse_template py value = inr tpl ->
        (exists out,
           Re.sub py (pattern_double key) value s = inr out
           /\ replaced (delimited_form key) (expand tpl) s out)
        /\ (exists out,
              Re.sub py (pattern_single key) value s = inr out
              /\ replaced (degraded_form key) (expand tpl) s out))
  /\ (plain_key key = true ->
      forall f s o1 o2,
        (replaced (delimited_form key) f s o1 ->
         replaced (delimited_form key) f s o2 -> o1 = o2)
        /\ (replaced (degraded_form key) f s o1 ->
            replaced (degraded_form key) f s o2 -> o1 = o2))
  /\ (forall value pre s post,
        plain_key key = true ->
        backslash_free value = true ->
        brace_free pre = true ->
        (delimited_form key s ->
         Re.sub py (pattern_double key) value (pre ++ s ++ post)
         = on_result (fun t => pre ++ value ++ t)
             (Re.sub py (pattern_double key) value post))
        /\ (degraded_form key s ->
            Re.sub py (pattern_single key) value (pre ++ s ++ post)
            = on_result (fun t => pre ++ value ++ t)
                (Re.sub py (pattern_single key) value post))).
Proof.
  split; [intros s; apply fullmatch_double|].
  split; [intros s; apply fullmatch_single|].
  split; [|split; [|split; [|split]]].
  - intros written E.
    assert (Hk : same_key key written).
    { destruct E as [E | E];
        [now apply same_lower_same_key | now apply same_key_any_case]. }
    pose proof is_gap_nil as Hgap.
    split; exists [], written, []; repeat split; auto.
  - intros c t. apply same_letter_ascii.
  - intros value tpl s Ht. split.
    + now apply sub_double_replaced.
    + now apply sub_single_replaced.
  - intros Hk f s o1 o2. split; apply replaced_functional;
      intros p1 r1 p2 r2 H1 H2 E.
    + exact (placeholder_prefix_unique [LBRACE; LBRACE] key p1 r1 p2 r2
               Hk H1 H2 E).
    + exact (placeholder_prefix_unique [LBRACE] key p1 r1 p2 r2 Hk H1 H2 E).
  - intros value pre s post Hk Hv Hpre. split; intros Hs.
    + now apply sub_double_placeholder.
    + now apply sub_single_placeholder.
Qed.

Lemma placeholder_forms_recognized_witness :
  Re.sub Interpreter.cpython311 (pattern_double (str "name")) (str "MV TEST")
    (str "<w:t>" ++ str "{{ <w:b/>Name</w:t> }}" ++ str "</w:t>{{NAME}}")
  = inr (str "<w:t>MV TEST</w:t>MV TEST")
  /\ fullmatch (pattern_double [1078%N])
       ([LBRACE; LBRACE] ++ [1046%N] ++ [RBRACE; RBRACE]) = true.
Proof.
  split.
  - destruct (placeholder_forms_recognized Interpreter.cpython311 (str "name"))
      as (Hd & _ & _ & _ & _ & _ & Hsub).
    destruct (Hsub (str "MV TEST") (str "<w:t>") (str "{{ <w:b/>Name</w:t> }}")
                (str "</w:t>{{NAME}}") eq_refl eq_refl eq_refl) as [H _].
    rewrite H; [vm_compute; reflexivity|]. apply Hd. vm_compute. reflexivity.
  - destruct (placeholder_forms_recognized Interpreter.cpython311 [1078%N])
      as (Hd & _ & Hcase & _).
    apply Hd. apply (Hcase [1046%N]). left. vm_compute. reflexivity.
Defined.



(** A key made of characters of the pattern language: only the key itself
    is found. *)
Example special_key_is_literal :
  fullmatch (pattern_double (str "a+b.(c)")) (str "{{A+B.(C)}}") = true
  /\ fullmatch (pattern_double (str "a+b.(c)")) (str "{{aab.(c)}}") = false
  /\ fullmatch (pattern_double (str "a+b.(c)")) (str "{{a+bx(c)}}") = false
  /\ fullmatch (pattern_double (str "a+b.(c)")) (str "{{a+b.c}}") = false.
Proof. repeat split; vm_compute; reflexivity. Qed.

(** C2.  The keys are taken one at a time in the order of the map, for each
    key the pattern with two braces before the one with a single brace, each
    call on the text the call before it returned: for every text, the two
    calls of a key replace its placeholders from left to right, first those
    with two braces in the text as it is, then those with a single brace in
    what that gave, and the keys after it work on the result.  So when the
    value of an earlier key has a placeholder of a later key in it, the later
    key is substituted inside the text the earlier value brought in,
    whatever follows in the part. *)
Theorem substitution_is_progressive (py : release) :
  (forall key value tpl data xml,
     parse_template py value = inr tpl ->
     exists xml1 xml2,
       replaced (delimited_form key) (expand tpl) xml xml1
       /\ replaced (degraded_form key) (expand tpl) xml1 xml2
       /\ substitute py ((key, value) :: data) xml = substitute py data xml2)
  /\ (forall data1 data2 xml,
        substitute py (data1 ++ data2) xml
        = match substitute py data1 xml with
          | inr xml' => substitute py data2 xml'
          | inl e => inl e
          end)
  /\ (forall k1 v1 k2 v2 w1 w2 pre post a b,
        plain_word k1 = true -> k1 <> [] ->
        plain_word k2 = true -> k2 <> [] ->
        same_key k1 w1 -> same_key k2 w2 -> ~ same_key k1 w2 ->
        v1 = a ++ braced w2 ++ b ->
        backslash_free v1 = true -> backslash_free v2 = true ->
        brace_free pre = true -> brace_free a = true -> brace_free b = true ->
        brace_free v2 = true ->
        substitute py [(k1, v1); (k2, v2)] (pre ++ braced w1 ++ post)
        = on_result (fun t => pre ++ a ++ v2 ++ b ++ t)
            (substitute py [(k1, v1); (k2, v2)] post)).
Proof.
  split; [|split].
  - intros key value tpl data xml Ht.
    destruct (sub_double_replaced py key value xml tpl Ht)
      as (xml1 & E1 & H1).
    destruct (sub_single_replaced py key value xml1 tpl Ht)
      as (xml2 & E2 & H2).
    exists xml1, xml2. split; [exact H1|]. split; [exact H2|].
    cbn [substitute]. now rewrite E1, E2.
  - induction data1 as [|[key value] data1 IH]; intros data2 xml.
    + reflexivity.
    + change (((key, value) :: data1) ++ data2)
        with ((key, value) :: (data1 ++ data2)).
      cbn [substitute].
      destruct (Re.sub py (pattern_double key) value xml) as [e|xml1];
        [reflexivity|].
      destruct (Re.sub py (pattern_single key) value xml1) as [e|xml2];
        [reflexivity|].
      apply IH.
  - intros k1 v1 k2 v2 w1 w2 pre post a b Hk1 Hne1 Hk2 Hne2 Hw1 Hw2 Hdiff
      Ev1 Hv1 Hv2 Hpre Ha Hb Hbv2.
    pose proof is_gap_nil as Hgap.
    pose proof (plain_word_plain_key k1 Hk1 Hne1) as Hpk1.
    pose proof (plain_word_plain_key k2 Hk2 Hne2) as Hpk2.
    pose proof (same_key_plain k2 w2 Hw2 Hk2) as Hpw2.
    assert (Hd1 : delimited_form k1 (braced w1)).
    { exists [], w1, []. repeat split; auto. }
    assert (Hd2 : delimited_form k2 (braced w2)).
    { exists [], w2, []. repeat split; auto. }
    assert (Hpa : brace_free (pre ++ a) = true)
      by (now rewrite brace_free_app, Hpre, Ha).
    cbn [substitute].
    rewrite (sub_double_placeholder py k1 v1 pre _ post Hpk1 Hv1 Hpre Hd1).
    destruct (Re.sub py (pattern_double k1) v1 post) as [e|post1];
      [reflexivity|].
    cbn [on_result]. rewrite Ev1 at 2.
    replace (pre ++ (a ++ braced w2 ++ b) ++ post1)
      with ((pre ++ a) ++ braced w2 ++ (b ++ post1))
      by (now rewrite <- !app_assoc).
    rewrite (sub_single_other_word py k1 v1 w2 (pre ++ a) (b ++ post1)
               Hk1 Hne1 Hpw2 Hdiff Hpa).
    rewrite (sub_single_prefix py k1 v1 b post1 Hb).
    destruct (Re.sub py (pattern_single k1) v1 post1) as [e|post2];
      [reflexivity|].
    cbn [on_result].
    rewrite (sub_double_placeholder py k2 v2 (pre ++ a) _ (b ++ post2)
               Hpk2 Hv2 Hpa Hd2).
    rewrite (sub_double_prefix py k2 v2 b post2 Hb).
    destruct (Re.sub py (pattern_double k2) v2 post2) as [e|post3];
      [reflexivity|].
    cbn [on_result].
    replace ((pre ++ a) ++ v2 ++ b ++ post3)
      with ((pre ++ a ++ v2 ++ b) ++ post3)
      by (now rewrite <- !app_assoc).
    rewrite sub_single_prefix
      by (now rewrite !brace_free_app, Hpre, Ha, Hbv2, Hb).
    destruct (Re.sub py (pattern_single k2) v2 post3) as [e|post4];
      [reflexivity|].
    cbn [on_result]. now rewrite <- !app_assoc.
Qed.

Lemma substitution_is_progressive_witness :
  substitute Interpreter.cpython311
    [(str "NAME", str "MV TEST of {{date}}"); (str "DATE", str "28-MAY-2025")]
    (str "<w:t>" ++ braced (str "Name") ++ str "</w:t>{ {{DATE}}")
  = inr (str "<w:t>MV TEST of 28-MAY-2025</w:t>{ 28-MAY-2025").
Proof.
  destruct (substitution_is_progressive Interpreter.cpython311)
    as (_ & _ & H).
  etransitivity;
    [apply (H (str "NAME") (str "MV TEST of {{date}}") (str "DATE")
              (str "28-MAY-2025") (str "Name") (str "date")
              (str "<w:t>") (str "</w:t>{ {{DATE}}") (str "MV TEST of ") []);
     try reflexivity; try discriminate
    | vm_compute; reflexivity].
  - apply same_key_any_case. reflexivity.
  - apply same_key_any_case. reflexivity.
  - intros Hs. inversion Hs as [|c t k w Hct _]. subst.
    apply lit_ignore_spec in Hct. vm_compute in Hct. discriminate.
Defined.

(** C4 (the code does not do this).  A placeholder whose key is cut in two by
    tag fragments, as the editor leaves it when it splits a run, is not
    found: the patterns allow tag fragments between the braces and the key
    only, so the text is left as it was. *)
Theorem split_key_is_not_substituted (py : release) :
  substitute py [(str "NAME", str "MV TEST")]
    (str "<w:t>{{</w:t></w:r><w:r><w:t>NA</w:t></w:r><w:r><w:t>ME</w:t></w:r><w:r><w:t>}}</w:t>")
  = inr
      (str "<w:t>{{</w:t></w:r><w:r><w:t>NA</w:t></w:r><w:r><w:t>ME</w:t></w:r><w:r><w:t>}}</w:t>")
  /\ fullmatch (pattern_double (str "NAME"))
       (str "{{</w:t></w:r><w:r><w:t>NA</w:t></w:r><w:r><w:t>ME</w:t></w:r><w:r><w:t>}}")
     = false
  /\ substitute py [(str "NAME", str "MV TEST")]
       (str "<w:t>{{</w:t></w:r><w:r><w:t>NAME</w:t></w:r><w:r><w:t>}}</w:t>")
     = inr (str "<w:t>MV TEST</w:t>").
Proof. repeat split; vm_compute; reflexivity. Qed.

(** C7 (the code does not do this).  The value is handed to [re.sub] as a
    replacement template, so a backslash in it is read as an escape: two
    backslashes come out as one, and a backslash before a letter that is no
    escape raises [re.error], even for a text without any placeholder.
    Parentheses and brackets are inserted as they are. *)
Theorem backslash_in_value_is_reinterpreted (py : release) :
  substitute py [(str "NAME", str "A\\B")] (str "{{NAME}}") = inr (str "A\B")
  /\ substitute py [(str "NAME", str "C:\TEMP")] (str "{{NAME}}") = inl ReError
  /\ substitute py [(str "NAME", str "C:\TEMP")] (str "no placeholder")
     = inl ReError
  /\ substitute py [(str "NAME", str "MV (TEST) [1]")] (str "{{NAME}}")
     = inr (str "MV (TEST) [1]").
Proof. repeat split; vm_compute; reflexivity. Qed.

(** C3 (the code does not do this).  The removal of the temporary directory
    is not guarded: [shutil.rmtree] stands bare in the [finally] of lines
    117-119.  On an archive that cannot be read, the body of the [try] raises
    [BadZipFile]; when the removal of the directory then fails, the caller
    gets the error of the removal and the [BadZipFile] is lost.  The removal
    was tried once. *)
Theorem cleanup_failure_replaces_primary_error :
  result (unpack_substitute_repack Sample.bad_archive_bad_cleanup
            (before_unpack Sample.bad_archive_bad_cleanup Sample.out_docx)
            Sample.template Sample.out_docx Sample.scratch Sample.data)
  = inl BadZipFile
  /\ rmtree Sample.bad_archive_bad_cleanup Sample.scratch = Some (OSError 39)
  /\ result (fill_docx_and_convert Sample.bad_archive_bad_cleanup
               Sample.template Sample.out_docx Sample.data)
     = inl (OSError 39)
  /\ rmtree_calls
       (events (fill_docx_and_convert Sample.bad_archive_bad_cleanup
                  Sample.template Sample.out_docx Sample.data))
     = [EvRmtree Sample.scratch].
Proof. repeat split; vm_compute; reflexivity. Qed.

(** C5 (amended).  The call of the renderer succeeds exactly when the
    process ends with status zero and the converted file is there afterwards.
    When the process ran and one of the two fails, a [RuntimeError] is raised
    that carries the return code; the captured output and error streams are
    written to the log before that and are not part of the exception.  When
    the executable is not found, the [FileNotFoundError] of the call is
    raised again as it is. *)
Theorem renderer_outcome (w : world) (fs : list text)
    (output_docx output_pdf : text) :
  (result (convert w fs output_docx output_pdf) = inr tt <->
   exists proc fs', run w (libreoffice_args output_docx) fs = inr (proc, fs')
                    /\ returncode proc = 0%Z
                    /\ there fs' output_pdf = true)
  /\ (forall proc fs',
        run w (libreoffice_args output_docx) fs = inr (proc, fs') ->
        returncode proc <> 0%Z \/ there fs' output_pdf = false ->
        result (convert w fs output_docx output_pdf)
        = inl (RuntimeError (returncode proc))
        /\ In (EvLogInfo (stdout proc))
              (events (convert w fs output_docx output_pdf))
        /\ In (EvLogInfo (stderr proc))
              (events (convert w fs output_docx output_pdf)))
  /\ (run w (libreoffice_args output_docx) fs = inl FileNotFoundError ->
      result (convert w fs output_docx output_pdf) = inl FileNotFoundError).
Proof.
  unfold convert.
  destruct (run w (libreoffice_args output_docx) fs) as [e|[proc fs']] eqn:Erun.
  - split; [|split].
    + split; [destruct e; discriminate|].
      intros (proc & fs' & H & _). discriminate.
    + intros proc fs' H. discriminate.
    + intros H. injection H as ->. reflexivity.
  - destruct proc as [rc out err]. cbn [returncode stdout stderr].
    assert (Hrc : (rc =? 0)%Z = true <-> rc = 0%Z) by apply Z.eqb_eq.
    destruct (rc =? 0)%Z;
      destruct (there fs' output_pdf) eqn:Eth; cbn;
      (split; [split|split; [|discriminate]]);
      try discriminate; try reflexivity.
    all: try (intros _; eexists; eexists; repeat split;
              [now apply Hrc | exact Eth]).
    all: try (intros (proc' & fs'' & H & Hz & Hex); injection H as <- <-;
              cbn in Hz; try congruence;
              apply Hrc in Hz; discriminate).
    all: intros proc' fs'' H Hfail; injection H as <- <-; cbn.
    all: try (repeat split; auto; fail).
    destruct Hfail as [Hne | Hex]; [|congruence].
    cbn in Hne. exfalso. apply Hne. now apply Hrc.
Qed.

Lemma renderer_outcome_witness :
  result (convert (Sample.renderer_fails (str "convert /tmp/tmpk3xq.docx")
                     (str "Error: source file could not be loaded"))
            [Sample.out_docx; Sample.template] Sample.out_docx Sample.out_pdf)
  = inl (RuntimeError 1)
  /\ result (convert Sample.renderer_missing
               [Sample.out_docx; Sample.template] Sample.out_docx
               Sample.out_pdf)
     = inl FileNotFoundError.
Proof.
  split.
  - refine (proj1 (proj1 (proj2 (renderer_outcome
                (Sample.renderer_fails (str "convert /tmp/tmpk3xq.docx")
                   (str "Error: source file could not be loaded"))
                [Sample.out_docx; Sample.template]
                Sample.out_docx Sample.out_pdf))
              (Completed 1 (str "convert /tmp/tmpk3xq.docx")
                 (str "Error: source file could not be loaded"))
              [Sample.out_docx; Sample.template]
              eq_refl _)).
    left. discriminate.
  - exact (proj2 (proj2 (renderer_outcome Sample.renderer_missing
                           [Sample.out_docx; Sample.template]
                           Sample.out_docx Sample.out_pdf)) eq_refl).
Defined.

(** C5 as stated fails: two runs of the renderer that fail with different
    diagnostics raise the same exception, which therefore does not carry
    them. *)
Lemma conversion_error_lacks_diagnostics :
  result (convert (Sample.renderer_fails (str "convert /tmp/tmpk3xq.docx")
                     (str "Error: source file could not be loaded"))
            [Sample.out_docx; Sample.template] Sample.out_docx Sample.out_pdf)
  = inl (RuntimeError 1)
  /\ result (convert (Sample.renderer_fails [] [])
               [Sample.out_docx; Sample.template] Sample.out_docx
               Sample.out_pdf)
     = inl (RuntimeError 1).
Proof. split; vm_compute; reflexivity. Qed.

(** C8 (amended).  When the output archive cannot be created, after the
    stages before it went through, the error of the call that opens it
    reaches the caller.  A file that is already at the output path and cannot
    be removed is no error: the step that removes it raises nothing, whatever
    [os.remove] does, and when [os.remove] fails the file stays where it was
    and the function goes on with it there.  The exception of the function
    is that of [mkdtemp], of [rmtree], of the body of the [try] or of the
    renderer, never that of [os.remove]. *)
Theorem destination_errors (w : world) (input_docx output_docx : text)
    (data : list (text * text)) :
  (forall d e tree tree',
     mkdtemp w = inr d ->
     there (before_unpack w output_docx) input_docx = true ->
     extractall w input_docx = inr tree ->
     result (mapM (process_part w data) tree) = inr tree' ->
     zip_open w output_docx = Some e ->
     rmtree w d = None ->
     result (fill_docx_and_convert w input_docx output_docx data) = inl e)
  /\ (forall fs p,
        result (remove_if_exists w fs p) = inr (cleared w fs p)
        /\ (forall e, os_remove w p = Some e ->
                      cleared w fs p = fs
                      /\ ~ In (EvRemove p) (events (remove_if_exists w fs p))))
  /\ result (fill_docx_and_convert w input_docx output_docx data)
     = match mkdtemp w with
       | inl e => inl e
       | inr d =>
           match rmtree w d with
           | Some e => inl e
           | None =>
               match result (unpack_substitute_repack w
                               (before_unpack w output_docx)
                               input_docx output_docx d data) with
               | inl e => inl e
               | inr _ =>
                   match result (convert w
                                   (output_docx :: before_unpack w output_docx)
                                   output_docx (pdf_path output_docx)) with
                   | inl e => inl e
                   | inr _ => inr (output_docx, pdf_path output_docx)
                   end
               end
           end
       end.
Proof.
  split; [|split].
  - intros d e tree tree' Hmk Hin Hex Hmap Hzip Hrm.
    rewrite fill_result, Hmk, Hrm.
    unfold unpack_substitute_repack.
    rewrite Hin, Hex, result_bind. cbn [emit ret bind result snd].
    rewrite result_bind, Hmap. unfold repack.
    rewrite !result_bind, Hzip. reflexivity.
  - intros fs p. split; [apply result_remove_if_exists|].
    intros e He. unfold cleared, remove_if_exists.
    destruct (there fs p); rewrite ?He; split; try reflexivity;
      cbn; intros []; discriminate.
  - apply fill_result.
Qed.

Lemma destination_errors_witness :
  result (fill_docx_and_convert Sample.no_destination Sample.template
            Sample.out_docx Sample.data)
  = inl (OSError 13).
Proof.
  refine (proj1 (destination_errors Sample.no_destination Sample.template
                   Sample.out_docx Sample.data)
            Sample.scratch (OSError 13) Sample.files _
            eq_refl eq_refl eq_refl _ eq_refl eq_refl).
  vm_compute. reflexivity.
Defined.

(** C8 as stated fails: the old output files are there and cannot be
    removed, and the function returns as if nothing had happened. *)
Lemma failed_removal_is_not_surfaced :
  there (files Sample.stuck_outputs) Sample.out_docx = true
  /\ os_remove Sample.stuck_outputs Sample.out_docx = Some (OSError 13)
  /\ result (fill_docx_and_convert Sample.stuck_outputs Sample.template
               Sample.out_docx Sample.data)
     = inr (Sample.out_docx, Sample.out_pdf).
Proof. repeat split; vm_compute; reflexivity. Qed.

(** C9.  The path of the converted file is the output path with its
    extension, if it has one, replaced by [.pdf]; it lies in the directory of
    the output path; and when the function succeeds it returns the output
    path and that path, in this order. *)
Theorem converted_path_is_derived (w : world) (input_docx output_docx : text)
    (data : list (text * text)) (r : text * text) :
  result (fill_docx_and_convert w input_docx output_docx data) = inr r ->
  r = (output_docx, fst (OsPath.splitext output_docx) ++ str ".pdf")
  /\ fst (OsPath.splitext output_docx) ++ snd (OsPath.splitext output_docx)
     = output_docx
  /\ (snd (OsPath.splitext output_docx) = []
      \/ exists e, snd (OsPath.splitext output_docx) = OsPath.EXTSEP :: e
                   /\ ~ In OsPath.EXTSEP e /\ ~ In OsPath.SEP e)
  /\ OsPath.dirname (snd r) = OsPath.dirname output_docx.
Proof.
  intros H.
  assert (Hr : r = (output_docx,
                    fst (OsPath.splitext output_docx) ++ str ".pdf"))
    by exact (fill_returns_paths _ _ _ _ _ H).
  split; [exact Hr|]. split; [apply splitext_join|].
  split; [apply splitext_ext|].
  subst r. cbn [snd]. apply dirname_new_extension.
  vm_compute. intuition discriminate.
Qed.

Lemma converted_path_is_derived_witness :
  (Sample.out_docx, Sample.out_pdf)
  = (Sample.out_docx, fst (OsPath.splitext Sample.out_docx) ++ str ".pdf").
Proof.
  refine (proj1 (converted_path_is_derived Sample.calm Sample.template
                   Sample.out_docx Sample.data
                   (Sample.out_docx, Sample.out_pdf) _)).
  vm_compute. reflexivity.
Defined.

(** C6.  A file whose bytes are no UTF-8 is left alone: the step for it
    raises nothing, writes nothing and hands the file on as it is, and when
    the unpacking, substitution and repacking go through, the new archive has
    it under its path with its bytes.  A part is written back only when the
    substitution changed its text, and then under the same path. *)
Theorem opaque_parts_pass_through (w : world) (data : list (text * text)) :
  (forall e, Codec.read_text (content e) = None ->
             process_part w data e = ret e)
  /\ (forall e evs e',
        process_part w data e = (evs, inr e') ->
        e' <> e \/ evs <> [] ->
        exists xml new_xml,
          Codec.read_text (content e) = Some xml
          /\ substitute (python w) data xml = inr new_xml
          /\ new_xml <> xml
          /\ Codec.write_text new_xml = Some (content e')
          /\ relpath e' = relpath e
          /\ evs = [EvWritePart (relpath e) (content e')])
  /\ (forall fs input_docx output_docx d tree e,
        extractall w input_docx = inr tree ->
        In e tree ->
        Codec.read_text (content e) = None ->
        result (unpack_substitute_repack w fs input_docx output_docx d data)
        = inr tt ->
        In (EvZipWrite (relpath e) (content e))
           (events (unpack_substitute_repack w fs input_docx output_docx d
                      data))).
Proof.
  assert (Hopaque : forall e, Codec.read_text (content e) = None ->
                              process_part w data e = ret e).
  { intros e He. unfold process_part. rewrite He.
    destruct (_ && _); [|reflexivity]. now destruct (open_read w (relpath e)). }
  split; [exact Hopaque|]. split.
  - intros e evs e' H Hchg. unfold process_part in H.
    assert (Hsame : forall (m : M entry), m = ret e -> m = (evs, inr e') ->
                                          False).
    { intros m -> Hm. injection Hm as <- <-. destruct Hchg; congruence. }
    destruct (_ && _); [|exfalso; now apply (Hsame _ eq_refl)].
    destruct (open_read w (relpath e));
      [exfalso; now apply (Hsame _ eq_refl)|].
    destruct (Codec.read_text (content e)) as [xml|] eqn:Er;
      [|exfalso; now apply (Hsame _ eq_refl)].
    destruct (substitute (python w) data xml) as [ex|new_xml] eqn:Es;
      [discriminate|].
    destruct (text_eqb new_xml xml) eqn:Eq;
      [exfalso; now apply (Hsame _ eq_refl)|].
    destruct (open_write w (relpath e)); [discriminate|].
    destruct (Codec.write_text new_xml) as [b|] eqn:Ew; [|discriminate].
    cbn in H. injection H as <- <-. exists xml, new_xml.
    cbn [relpath content].
    split; [reflexivity|]. split; [exact Es|]. split.
    { intros ->. assert (text_eqb xml xml = true) by now apply text_eqb_spec.
      congruence. }
    repeat split; assumption.
  - intros fs input_docx output_docx d tree e Hex Hin He Hres.
    unfold unpack_substitute_repack in *.
    destruct (there fs input_docx); [|discriminate]. rewrite Hex in *.
    rewrite result_bind in Hres. rewrite events_bind.
    cbn [emit ret bind result events fst snd app] in *.
    rewrite result_bind in Hres. rewrite events_bind.
    destruct (result (mapM (process_part w data) tree)) as [ex|tree'] eqn:Em;
      [discriminate|].
    destruct (mapM_result_In _ _ _ e Em Hin) as (e' & He' & Hin').
    rewrite (Hopaque e He) in He'. injection He' as <-.
    right. apply in_app_iff. right. now apply repack_events.
Qed.

Lemma opaque_parts_pass_through_witness :
  In (EvZipWrite (relpath Sample.blob_xml) (content Sample.blob_xml))
     (events (unpack_substitute_repack Sample.calm [Sample.template]
                Sample.template Sample.out_docx Sample.scratch Sample.data)).
Proof.
  refine (proj2 (proj2 (opaque_parts_pass_through Sample.calm Sample.data))
            [Sample.template] Sample.template Sample.out_docx Sample.scratch
            Sample.files Sample.blob_xml eq_refl _ _ _).
  - right. left. reflexivity.
  - vm_compute. reflexivity.
  - vm_compute. reflexivity.
Defined.

(** * Further properties of the code *)

(** ** Values that are no templates *)

Lemma template_error_values (py : release) (data data' : list (text * text)) :
  map snd data' = map snd data ->
  template_error py data' = template_error py data.
Proof.
  revert data'. induction data as [|[k v] data IH]; intros [|[k' v'] data'] E;
    try discriminate; [reflexivity|].
  cbn [map snd] in E. injection E as -> E. cbn [template_error].
  destruct (parse_template py v); [reflexivity | now apply IH].
Qed.

Lemma template_error_first (py : release) (data : list (text * text))
    (e : exn) :
  template_error py data = Some e
  <-> exists before key value after,
        data = before ++ (key, value) :: after
        /\ (forall k v, In (k, v) before -> valid_template py v = true)
        /\ parse_template py value = inl e.
Proof.
  induction data as [|[k v] data IH]; cbn [template_error].
  - split; [discriminate|].
    intros (before & key & value & after & E & _). now destruct before.
  - destruct (parse_template py v) as [ex|tpl] eqn:Ev.
    + split.
      * intros H. injection H as <-. exists [], k, v, data.
        split; [reflexivity|]. split; [intros k' v' []|exact Ev].
      * intros (before & key & value & after & E & Hb & Hv).
        destruct before as [|[k0 v0] before].
        -- cbn in E. injection E as <- <- _. congruence.
        -- cbn in E. injection E as <- <- _.
           specialize (Hb k v (or_introl eq_refl)).
           unfold valid_template in Hb. rewrite Ev in Hb. discriminate.
    + rewrite IH. split.
      * intros (before & key & value & after & E & Hb & Hv).
        exists ((k, v) :: before), key, value, after.
        split; [now rewrite E|]. split; [|exact Hv].
        intros k' v' [H | H]; [|now apply (Hb k' v')].
        injection H as <- <-. unfold valid_template. now rewrite Ev.
      * intros (before & key & value & after & E & Hb & Hv).
        destruct before as [|[k0 v0] before].
        -- cbn in E. injection E as <- <- _. congruence.
        -- cbn in E. injection E as <- <- E.
           exists before, key, value, after. split; [exact E|].
           split; [|exact Hv]. intros k' v' H. apply (Hb k' v'). now right.
Qed.

(** X1.  The substitution in a text raises exactly when one of the values is
    no replacement template that [re.sub] accepts, and then it raises what
    [re.sub] raises for the first such value in the order of the map, all
    values before it being templates; otherwise it returns a text.  The keys
    and the text play no part in that: another text and other keys with the
    same values raise the same. *)
Theorem substitute_fails_iff_bad_template (py : release)
    (data : list (text * text)) (xml : text) (e : exn) :
  (substitute py data xml = inl e
   <-> exists before key value after,
         data = before ++ (key, value) :: after
         /\ (forall k v, In (k, v) before -> valid_template py v = true)
         /\ parse_template py value = inl e)
  /\ ((forall key value, In (key, value) data -> valid_template py value = true)
      <-> exists out, substitute py data xml = inr out)
  /\ (forall data' xml',
        map snd data' = map snd data ->
        (substitute py data' xml' = inl e <-> substitute py data xml = inl e)).
Proof.
  split; [|split].
  - rewrite substitute_error. apply template_error_first.
  - split.
    + intros H. apply substitute_returns. now apply template_error_valid.
    + intros (out & Hout) key value Hin.
      destruct (valid_template py value) eqn:Ev; [reflexivity|].
      destruct (template_error_in py data key value Hin Ev) as (ex & Hex).
      apply (substitute_error py data xml) in Hex. congruence.
  - intros data' xml' E.
    now rewrite !substitute_error, (template_error_values py data data' E).
Qed.

Lemma substitute_fails_iff_bad_template_witness :
  substitute Interpreter.cpython311
    [(str "NAME", str "MV TEST"); (str "PORT", str "\g<x>");
     (str "DATE", str "C:\TEMP")]
    (str "<w:t>no placeholder</w:t>")
  = inl IndexError.
Proof.
  apply (proj1 (substitute_fails_iff_bad_template Interpreter.cpython311
                  [(str "NAME", str "MV TEST"); (str "PORT", str "\g<x>");
                   (str "DATE", str "C:\TEMP")]
                  (str "<w:t>no placeholder</w:t>") IndexError)).
  exists [(str "NAME", str "MV TEST")], (str "PORT"), (str "\g<x>"),
    [(str "DATE", str "C:\TEMP")].
  split; [reflexivity|]. split; [|vm_compute; reflexivity].
  intros k v [H | []]. injection H as <- <-. vm_compute. reflexivity.
Defined.

(** ** Texts and braces *)

(** X2.  The text before the first opening brace is never touched, and has
    no influence on what happens to the rest. *)
Theorem text_before_first_brace_is_kept (py : release)
    (data : list (text * text)) (pre s : text) :
  brace_free pre = true ->
  substitute py data (pre ++ s) = on_result (app pre) (substitute py data s).
Proof. apply substitute_prefix. Qed.

Lemma text_before_first_brace_is_kept_witness :
  substitute Interpreter.cpython311 Sample.data
    (str "<w:t>Vessel: " ++ str "{{name}}</w:t>")
  = on_result (app (str "<w:t>Vessel: "))
      (substitute Interpreter.cpython311 Sample.data (str "{{name}}</w:t>")).
Proof.
  apply (text_before_first_brace_is_kept Interpreter.cpython311 Sample.data
           (str "<w:t>Vessel: ") (str "{{name}}</w:t>")).
  reflexivity.
Defined.

(** X3.  A text without any opening brace comes back as it is, whatever the
    keys are, as long as every value is a template [re.sub] accepts. *)
Theorem text_without_brace_is_unchanged (py : release)
    (data : list (text * text)) (xml : text) :
  brace_free xml = true ->
  (forall key value, In (key, value) data -> valid_template py value = true) ->
  substitute py data xml = inr xml.
Proof. apply substitute_brace_free. Qed.

Lemma text_without_brace_is_unchanged_witness :
  substitute Interpreter.cpython311 Sample.data (str "<w:t>Bunker report</w:t>")
  = inr (str "<w:t>Bunker report</w:t>").
Proof.
  apply text_without_brace_is_unchanged; [reflexivity|].
  intros key value [H | [H | []]]; injection H as <- <-; reflexivity.
Defined.

Lemma brace_free_interleave (segs : list (text * text)) (value last : text) :
  Forall (fun seg => brace_free (fst seg) = true) segs ->
  brace_free value = true -> brace_free last = true ->
  brace_free (interleave (map (fun seg => (fst seg, value)) segs) last) = true.
Proof.
  intros Hsegs Hv Hl. induction Hsegs as [|[before hole] segs Hb _ IH]; simpl.
  - exact Hl.
  - simpl in Hb. now rewrite !brace_free_app, Hb, Hv, IH.
Qed.

Lemma sub_double_interleave (py : release) (key value : text)
    (segs : list (text * text)) (last : text) :
  plain_key key = true ->
  backslash_free value = true ->
  Forall (fun seg => brace_free (fst seg) = true
                     /\ delimited_form key (snd seg)) segs ->
  Re.sub py (pattern_double key) value (interleave segs last)
  = on_result (interleave (map (fun seg => (fst seg, value)) segs))
      (Re.sub py (pattern_double key) value last).
Proof.
  intros Hk Hv Hsegs.
  induction Hsegs as [|[before hole] segs [Hb Hh] _ IH];
    cbn [interleave map fst snd] in *.
  - now destruct (Re.sub py (pattern_double key) value last).
  - rewrite (sub_double_placeholder py key value before hole _ Hk Hv Hb Hh), IH.
    now destruct (Re.sub py (pattern_double key) value last).
Qed.

(** X4.  Every placeholder of a key in a text is replaced, not only the
    first: in a text made of parts without braces with a placeholder of the
    delimited form after each, all the placeholders give way to the value
    and the parts between them stay. *)
Theorem every_occurrence_is_replaced (py : release) (key value : text)
    (segs : list (text * text)) (last : text) :
  plain_key key = true ->
  backslash_free value = true -> brace_free value = true ->
  brace_free last = true ->
  Forall (fun seg => brace_free (fst seg) = true
                     /\ delimited_form key (snd seg)) segs ->
  substitute py [(key, value)] (interleave segs last)
  = inr (interleave (map (fun seg => (fst seg, value)) segs) last).
Proof.
  intros Hk Hv Hbv Hl Hsegs. cbn [substitute].
  rewrite (sub_double_interleave py key value segs last Hk Hv Hsegs).
  rewrite (sub_double_no_brace py key value last Hv Hl). cbn [on_result].
  rewrite sub_single_no_brace; [reflexivity | assumption |].
  apply brace_free_interleave; auto.
  eapply Forall_impl; [|exact Hsegs]. now intros seg [H _].
Qed.

Lemma every_occurrence_is_replaced_witness :
  substitute Interpreter.cpython311 [(str "NAME", str "MV TEST")]
    (interleave [(str "<a>", str "{{NAME}}"); (str "</a><b>", str "{{ name }}")]
       (str "</b>"))
  = inr (str "<a>MV TEST</a><b>MV TEST</b>").
Proof.
  apply (every_occurrence_is_replaced Interpreter.cpython311
           (str "NAME") (str "MV TEST")
           [(str "<a>", str "{{NAME}}"); (str "</a><b>", str "{{ name }}")]
           (str "</b>")); try reflexivity.
  repeat constructor; apply fullmatch_double; vm_compute; reflexivity.
Defined.

Lemma degraded_tail_nonempty (key s' : text) :
  degraded_form key (LBRACE :: s') -> s' <> [].
Proof.
  intros (g1 & k & g2 & E & _) ->. simpl in E. injection E as E.
  destruct g1, k, g2; discriminate.
Qed.

(** X5.  A placeholder that lost one of its opening braces is replaced as
    well: the pattern with two braces passes over it, and the pattern with a
    single brace then finds it. *)
Theorem degraded_placeholder_is_replaced (py : release)
    (key value pre s' post : text) :
  plain_key key = true ->
  backslash_free value = true -> brace_free value = true ->
  brace_free pre = true -> brace_free s' = true -> brace_free post = true ->
  degraded_form key (LBRACE :: s') ->
  substitute py [(key, value)] (pre ++ (LBRACE :: s') ++ post)
  = inr (pre ++ value ++ post).
Proof.
  intros Hk Hv Hbv Hpre Hs' Hpost Hs. cbn [substitute].
  assert (Hd : Re.sub py (pattern_double key) value
                 (pre ++ (LBRACE :: s') ++ post)
               = inr (pre ++ (LBRACE :: s') ++ post)).
  { rewrite sub_double_eq, (parse_template_literal py value Hv).
    cbn [on_result]. f_equal.
    rewrite scan_brace_free
      by first [assumption | apply (placeholder_regex_brace [Lit LBRACE])].
    f_equal. pose proof (degraded_tail_nonempty key s' Hs) as Hne.
    destruct s' as [|c s']; [congruence|].
    simpl in Hs'. apply andb_true_iff in Hs'. destruct Hs' as [Hc Hs'].
    apply negb_true_iff, N.eqb_neq in Hc.
    change ((LBRACE :: c :: s') ++ post) with (LBRACE :: c :: (s' ++ post)).
    rewrite scan_no_match by now apply double_no_match.
    f_equal. apply (scan_no_brace [Lit LBRACE]). simpl.
    apply N.eqb_neq in Hc. rewrite Hc. simpl.
    now rewrite brace_free_app, Hs', Hpost. }
  rewrite Hd.
  rewrite (sub_single_placeholder py key value pre _ post Hk Hv Hpre Hs).
  now rewrite (sub_single_no_brace py key value post Hv Hpost).
Qed.

Lemma degraded_placeholder_is_replaced_witness :
  substitute Interpreter.cpython311 [(str "NAME", str "MV TEST")]
    (str "<w:t>" ++ (LBRACE :: str " <b/>Name}}") ++ str "</w:t>")
  = inr (str "<w:t>" ++ str "MV TEST" ++ str "</w:t>").
Proof.
  apply degraded_placeholder_is_replaced; try reflexivity.
  apply fullmatch_single. vm_compute. reflexivity.
Defined.

(** X6.  A key replaces its own placeholders only.  The placeholder of a
    word that is not the key in any letter case, in the sense in which the
    matcher takes letter case for all of Unicode, stays as it is, also when
    the key is the beginning of that word, as [DATE] is of [DATE_RECEIVED];
    and the substitution goes on behind it as if the text began there. *)
Theorem other_placeholder_is_untouched (py : release)
    (k1 v1 w pre post : text) :
  plain_word k1 = true -> k1 <> [] -> plain_word w = true ->
  ~ same_key k1 w ->
  brace_free pre = true ->
  substitute py [(k1, v1)] (pre ++ braced w ++ post)
  = on_result (fun t => pre ++ braced w ++ t) (substitute py [(k1, v1)] post).
Proof.
  intros Hk1 Hne Hw Hdiff Hpre. cbn [substitute].
  rewrite (sub_double_other_word py k1 v1 w pre post Hk1 Hne Hw Hdiff Hpre).
  destruct (Re.sub py (pattern_double k1) v1 post) as [e|t1]; [reflexivity|].
  cbn [on_result].
  rewrite (sub_single_other_word py k1 v1 w pre t1 Hk1 Hne Hw Hdiff Hpre).
  now destruct (Re.sub py (pattern_single k1) v1 t1).
Qed.

Lemma other_placeholder_is_untouched_witness :
  substitute Interpreter.cpython311 [(str "DATE", str "28-MAY-2025")]
    (str "<w:t>" ++ braced (str "DATE_RECEIVED") ++ str "</w:t> {{date}}")
  = inr (str "<w:t>" ++ braced (str "DATE_RECEIVED")
         ++ str "</w:t> 28-MAY-2025").
Proof.
  etransitivity;
    [apply (other_placeholder_is_untouched Interpreter.cpython311
              (str "DATE") (str "28-MAY-2025") (str "DATE_RECEIVED")
              (str "<w:t>") (str "</w:t> {{date}}"));
     try reflexivity
    | vm_compute; reflexivity].
  - discriminate.
  - intros H. apply same_key_length in H. discriminate.
Defined.

(** ** The walk over the parts and the new archive *)



(** ** Parts written back *)

(** X8.  A part that was written back reads, when it is opened again the
    way the loop opens parts, as the text that was written, with its line
    ends turned into LF: what goes through UTF-8 out comes back in. *)
Theorem written_part_reads_back (t : text) (b : Codec.bytes) :
  Codec.write_text t = Some b ->
  Codec.read_text b = Some (Codec.universal_newlines t).
Proof.
  unfold Codec.write_text, Codec.read_text. intros H.
  destruct (Codec.utf8_encode t) as [bs|] eqn:E; [|discriminate].
  cbn in H. apply CodecFacts.some_inj in H. subst b.
  rewrite (CodecFacts.to_N_byte_of_N_map bs (CodecFacts.encode_small t bs E)).
  now rewrite (CodecFacts.encode_decode t bs E).
Qed.

Lemma written_part_reads_back_witness :
  Codec.read_text [x4d; x56; x20; xc3; x98; x52; x45]
  = Some (Codec.universal_newlines [77; 86; 32; 216; 82; 69]%N).
Proof.
  apply (written_part_reads_back [77; 86; 32; 216; 82; 69]%N).
  vm_compute. reflexivity.
Defined.

(** ** Runs of the whole function *)

(** X9.  When none of the parts the loop opens and reads (the files below
    [word/] with a name in [.xml] that read as UTF-8) has an opening brace in
    its text, and every value is a template [re.sub] accepts, the walk writes
    nothing and leaves every file of the tree as it is.  What the other
    files hold does not matter. *)
Theorem parts_without_brace_are_not_rewritten (w : world)
    (data : list (text * text)) (tree : list entry) :
  (forall key value,
     In (key, value) data -> valid_template (python w) value = true) ->
  (forall e xml,
     In e tree -> scanned e = true -> open_read w (relpath e) = None ->
     Codec.read_text (content e) = Some xml ->
     brace_free xml = true) ->
  mapM (process_part w data) tree = ret tree.
Proof.
  intros Hdata Htree. induction tree as [|e tree IH]; [reflexivity|].
  assert (He : process_part w data e = ret e).
  { unfold process_part. pose proof (Htree e) as Hxml. unfold scanned in Hxml.
    destruct (_ && _); [|reflexivity].
    destruct (open_read w (relpath e)); [reflexivity|].
    destruct (Codec.read_text (content e)) as [xml|] eqn:Er; [|reflexivity].
    rewrite (substitute_brace_free (python w) data xml
               (Hxml xml (or_introl eq_refl) eq_refl eq_refl eq_refl) Hdata).
    assert (Heq : text_eqb xml xml = true) by now apply text_eqb_spec.
    now rewrite Heq. }
  cbn [mapM]. rewrite He, IH; [reflexivity|].
  intros e' xml Hin. apply Htree. now right.
Qed.

Lemma parts_without_brace_are_not_rewritten_witness :
  scanned Sample.styles_xml = true
  /\ Codec.read_text (content Sample.styles_xml)
     = Some (str "<w:styles><w:style w:styleId='a'/></w:styles>")
  /\ mapM (process_part Sample.calm Sample.data)
       [Sample.styles_xml; Sample.blob_xml; Sample.content_types]
     = ret [Sample.styles_xml; Sample.blob_xml; Sample.content_types].
Proof.
  split; [vm_compute; reflexivity|]. split; [vm_compute; reflexivity|].
  apply parts_without_brace_are_not_rewritten.
  - intros key value [H | [H | []]]; injection H as <- <-; reflexivity.
  - intros e xml [<- | [<- | [<- | []]]] Hs _ H.
    + vm_compute in H. injection H as <-. reflexivity.
    + vm_compute in H. discriminate.
    + vm_compute in Hs. discriminate.
Defined.

(** X10.  A value that is no template [re.sub] accepts stops the whole run
    as soon as there is one part to substitute in: the function raises what
    [re.sub] raises for the first such value in the order of the map
    ([re.error] for an escape that is none, [IndexError] for a reference to
    a group by a name the pattern does not have), no archive is opened for
    writing and the renderer is not run. *)
Theorem bad_template_stops_the_run (w : world) (input_docx output_docx : text)
    (data : list (text * text)) (ex : exn) (d : text) (tree : list entry)
    (e : entry) (xml : text) :
  template_error (python w) data = Some ex ->
  mkdtemp w = inr d ->
  there (before_unpack w output_docx) input_docx = true ->
  extractall w input_docx = inr tree ->
  In e tree -> scanned e = true -> open_read w (relpath e) = None ->
  Codec.read_text (content e) = Some xml ->
  rmtree w d = None ->
  result (fill_docx_and_convert w input_docx output_docx data) = inl ex
  /\ filter is_zip_open
       (events (fill_docx_and_convert w input_docx output_docx data)) = []
  /\ filter is_run
       (events (fill_docx_and_convert w input_docx output_docx data)) = [].
Proof.
  intros Hbad Hmk Hth Hex Hine Hsc Hor Hrd Hrm.
  assert (Hsub : forall t, substitute (python w) data t = inl ex).
  { intros t. now apply substitute_error. }
  assert (Hpart : forall a, result (process_part w data a) = inl ex
                            \/ exists b, result (process_part w data a) = inr b).
  { intros a. destruct (process_part_cases w data a)
      as [H | (_ & _ & t & _ & [(ex' & Hn & H) | (n & Hn & _)])].
    - right. exists a. now rewrite H.
    - left. rewrite Hsub in Hn. injection Hn as <-. now rewrite H.
    - rewrite Hsub in Hn. discriminate. }
  assert (He : result (process_part w data e) = inl ex).
  { unfold process_part. unfold scanned in Hsc. rewrite Hsc, Hor, Hrd, Hsub.
    reflexivity. }
  assert (Hmap : result (mapM (process_part w data) tree) = inl ex).
  { apply mapM_raises; [intros a _; apply Hpart | now exists e]. }
  set (fs := before_unpack w output_docx) in *.
  assert (Hbody : result (unpack_substitute_repack w fs input_docx output_docx
                            d data) = inl ex).
  { unfold unpack_substitute_repack. rewrite Hth, Hex.
    rewrite !result_bind. cbn [emit ret bind result snd].
    now rewrite result_bind, Hmap. }
  assert (Hbz : filter is_zip_open
                  (events (unpack_substitute_repack w fs input_docx
                             output_docx d data)) = []).
  { unfold unpack_substitute_repack. rewrite Hth, Hex.
    rewrite !events_bind, !result_bind.
    cbn [emit ret bind result events fst snd].
    rewrite events_bind, Hmap. rewrite !filter_app.
    cbn [filter is_zip_open app].
    rewrite app_nil_r. apply filter_none. apply all_mapM. intros a.
    now apply all_process_part. }
  assert (Hbr : filter is_run
                  (events (unpack_substitute_repack w fs input_docx
                             output_docx d data)) = []).
  { apply filter_none. apply all_unpack_substitute_repack; reflexivity. }
  assert (Hr_z : forall l p,
             filter is_zip_open (events (remove_if_exists w l p)) = []).
  { intros l p. apply filter_none. now apply all_remove_if_exists. }
  assert (Hr_r : forall l p,
             filter is_run (events (remove_if_exists w l p)) = []).
  { intros l p. apply filter_none. now apply all_remove_if_exists. }
  rewrite fill_result, fill_events, Hmk, Hrm. fold fs. rewrite Hbody.
  split; [reflexivity|].
  rewrite !filter_app, !Hr_z, !Hr_r. cbn [filter is_zip_open is_run app].
  rewrite !filter_app, Hbz, Hbr. cbn. auto.
Qed.

Lemma bad_template_stops_the_run_witness :
  result (fill_docx_and_convert Sample.calm Sample.template Sample.out_docx
            [(str "NAME", str "C:\TEMP")])
  = inl ReError
  /\ result (fill_docx_and_convert Sample.calm Sample.template Sample.out_docx
               [(str "NAME", str "\g<x>")])
     = inl IndexError.
Proof.
  split.
  - refine (proj1 (bad_template_stops_the_run Sample.calm Sample.template
                     Sample.out_docx [(str "NAME", str "C:\TEMP")]
                     ReError Sample.scratch Sample.files
                     Sample.document_xml _ _ eq_refl eq_refl eq_refl _
                     eq_refl eq_refl _ eq_refl)).
    + vm_compute. reflexivity.
    + now left.
    + vm_compute. reflexivity.
  - refine (proj1 (bad_template_stops_the_run Sample.calm Sample.template
                     Sample.out_docx [(str "NAME", str "\g<x>")]
                     IndexError Sample.scratch Sample.files
                     Sample.document_xml _ _ eq_refl eq_refl eq_refl _
                     eq_refl eq_refl _ eq_refl)).
    + vm_compute. reflexivity.
    + now left.
    + vm_compute. reflexivity.
Defined.

(** X11.  The renderer is run only when the temporary directory was made,
    unpacking, substitution and repacking went through and the directory was
    removed again; it is then called with the fixed argument list, whose
    output directory is the directory of the path where the converted file is
    looked for afterwards. *)
Theorem renderer_runs_after_cleanup (w : world) (input_docx output_docx : text)
    (data : list (text * text)) (args : list text) :
  In (EvRun args)
     (events (fill_docx_and_convert w input_docx output_docx data)) ->
  args = [str "libreoffice"; str "--headless"; str "--convert-to"; str "pdf";
          str "--outdir";
          OsPath.dirname (fst (OsPath.splitext output_docx) ++ str ".pdf");
          output_docx]
  /\ exists d,
       mkdtemp w = inr d
       /\ result (unpack_substitute_repack w (before_unpack w output_docx)
                    input_docx output_docx d data)
          = inr tt
       /\ rmtree w d = None.
Proof.
  intros H. rewrite fill_events in H.
  assert (Hrm : forall l p,
             ~ In (EvRun args) (events (remove_if_exists w l p))).
  { intros l p Hin.
    apply (in_all_events (fun ev => is_run ev = false)) in Hin;
      [discriminate | now apply all_remove_if_exists]. }
  apply in_app_iff in H. destruct H as [H | H]; [now apply Hrm in H|].
  apply in_app_iff in H. destruct H as [H | H]; [now apply Hrm in H|].
  destruct (mkdtemp w) as [ex|d] eqn:Emk; [destruct H|].
  assert (Hb : ~ In (EvRun args)
                 (events (unpack_substitute_repack w
                            (before_unpack w output_docx)
                            input_docx output_docx d data))).
  { intros Hin. apply (in_all_events (fun ev => is_run ev = false)) in Hin;
      [discriminate|]. apply all_unpack_substitute_repack; reflexivity. }
  assert (Hargs : libreoffice_args output_docx
                  = [str "libreoffice"; str "--headless"; str "--convert-to";
                     str "pdf"; str "--outdir";
                     OsPath.dirname
                       (fst (OsPath.splitext output_docx) ++ str ".pdf");
                     output_docx]).
  { unfold libreoffice_args. do 5 f_equal. f_equal. symmetry.
    apply dirname_new_extension. vm_compute. intuition discriminate. }
  destruct H as [H | H]; [discriminate|].
  apply in_app_iff in H. destruct H as [H | H]; [now apply Hb in H|].
  destruct H as [H | H]; [discriminate|].
  destruct (rmtree w d) as [ex|] eqn:Erm; [destruct H|].
  destruct (result (unpack_substitute_repack w (before_unpack w output_docx)
                      input_docx output_docx d data)) as [ex|[]] eqn:Eb;
    [destruct H|].
  split; [rewrite <- Hargs; now apply (convert_runs _ _ _ _ _ H)|].
  exists d. auto.
Qed.

Lemma renderer_runs_after_cleanup_witness :
  mkdtemp Sample.calm = inr Sample.scratch
  /\ rmtree Sample.calm Sample.scratch = None.
Proof.
  destruct (renderer_runs_after_cleanup Sample.calm Sample.template
              Sample.out_docx Sample.data (libreoffice_args Sample.out_docx))
    as (_ & d & H1 & _ & H2).
  - vm_compute. tauto.
  - injection H1 as <-. now split.
Defined.

(** X12.  When the temporary directory cannot be made, the function raises
    the error of that call at once: apart from removing old output files it
    has done nothing by then, and it does nothing afterwards. *)
Theorem no_scratch_no_work (w : world) (input_docx output_docx : text)
    (data : list (text * text)) (e : exn) :
  mkdtemp w = inl e ->
  result (fill_docx_and_convert w input_docx output_docx data) = inl e
  /\ events (fill_docx_and_convert w input_docx output_docx data)
     = events (remove_if_exists w (files w) output_docx)
       ++ events (remove_if_exists w (cleared w (files w) output_docx)
                    (fst (OsPath.splitext output_docx) ++ str ".pdf")).
Proof.
  intros Hmk. rewrite fill_result, fill_events, Hmk.
  split; [reflexivity|]. unfold pdf_path. now rewrite app_nil_r.
Qed.

Lemma no_scratch_no_work_witness :
  result (fill_docx_and_convert no_scratch Sample.template Sample.out_docx
            Sample.data)
  = inl (OSError 28).
Proof.
  exact (proj1 (no_scratch_no_work no_scratch Sample.template Sample.out_docx
                  Sample.data (OSError 28) eq_refl)).
Defined.

(** X16.  When the temporary directory has been created, [shutil.rmtree] is
    called on it exactly once on every path out of the function, and before
    the renderer is run.  A failure of that call is raised in place of
    whatever the stages before it raised or returned, and the renderer is not
    run.  When the call succeeds, an error of the stages before it reaches
    the caller. *)
Theorem tempdir_removed_once (w : world) (input_docx output_docx : text)
    (data : list (text * text)) (d : text) :
  mkdtemp w = inr d ->
  rmtree_calls (events (fill_docx_and_convert w input_docx output_docx data))
  = [EvRmtree d]
  /\ (forall e, rmtree w d = Some e ->
        result (fill_docx_and_convert w input_docx output_docx data) = inl e
        /\ filter is_run
             (events (fill_docx_and_convert w input_docx output_docx data))
           = [])
  /\ (rmtree w d = None ->
      forall e,
        result (unpack_substitute_repack w (before_unpack w output_docx)
                  input_docx output_docx d data)
        = inl e ->
        result (fill_docx_and_convert w input_docx output_docx data) = inl e).
Proof.
  intros Hmk. rewrite fill_result, fill_events, Hmk.
  set (fs := before_unpack w output_docx).
  assert (Hbody_rm :
            filter is_rmtree
              (events (unpack_substitute_repack w fs input_docx output_docx d
                         data))
            = []).
  { apply filter_none. apply all_unpack_substitute_repack; reflexivity. }
  assert (Hbody_run :
            filter is_run
              (events (unpack_substitute_repack w fs input_docx output_docx d
                         data))
            = []).
  { apply filter_none. apply all_unpack_substitute_repack; reflexivity. }
  assert (Hr_rm : forall l p,
             filter is_rmtree (events (remove_if_exists w l p)) = []).
  { intros l p. apply filter_none. now apply all_remove_if_exists. }
  assert (Hr_run : forall l p,
             filter is_run (events (remove_if_exists w l p)) = []).
  { intros l p. apply filter_none. now apply all_remove_if_exists. }
  assert (Hcv_rm :
            forall l pdf,
              filter is_rmtree (events (convert w l output_docx pdf)) = []).
  { intros l pdf. apply filter_none. apply all_convert; reflexivity. }
  unfold rmtree_calls.
  rewrite !filter_app, !Hr_rm, !Hr_run.
  cbn [filter is_rmtree is_run app].
  rewrite !filter_app, Hbody_rm, Hbody_run.
  cbn [filter is_rmtree is_run app].
  destruct (rmtree w d) as [e0|] eqn:Erm.
  - split; [reflexivity|]. split; [|discriminate].
    intros e He. injection He as <-. now split.
  - split; [|split; [discriminate|]].
    + destruct (result (unpack_substitute_repack w fs input_docx output_docx
                          d data)); [reflexivity|].
      now rewrite Hcv_rm.
    + intros _ e He. now rewrite He.
Qed.

Lemma tempdir_removed_once_witness :
  rmtree_calls
    (events (fill_docx_and_convert Sample.calm Sample.template Sample.out_docx
               Sample.data))
  = [EvRmtree Sample.scratch].
Proof.
  exact (proj1 (tempdir_removed_once Sample.calm Sample.template
                  Sample.out_docx Sample.data Sample.scratch eq_refl)).
Defined.

(** ** The callers *)

Import FrontEnd.

Lemma removals_app (a b : list hevent) :
  removals (a ++ b) = removals a ++ removals b.
Proof. apply flat_map_app. Qed.

Lemma sent_app (a b : list hevent) : sent (a ++ b) = sent a ++ sent b.
Proof. apply flat_map_app. Qed.

Lemma removals_lift (evs : list event) : removals (map HFill evs) = [].
Proof. induction evs; auto. Qed.

Lemma sent_lift (evs : list event) : sent (map HFill evs) = [].
Proof. induction evs; auto. Qed.

(** X13.  As long as the texts to the user get through, the handler raises
    nothing: it ends the conversation when filling the template raised, and
    asks what to do next when it returned, whether or not the converted file
    could be sent and the files could be removed. *)
Theorem handler_outcome (c : chat) (w : world) (tmpl_docx : text)
    (data : list (text * text)) (p : text) :
  named_temporary_file c = inr p ->
  (forall m, reply_text c m = None) ->
  hresult (generate_and_send c w tmpl_docx data)
  = inr (match result (fill_docx_and_convert w tmpl_docx p data) with
         | inl _ => END
         | inr _ => ASK_AGAIN
         end).
Proof.
  intros Hp Hreply. unfold generate_and_send. rewrite Hp.
  cbn [hbind hemit hret hresult hevents lift fst snd app].
  unfold result.
  destruct (fill_docx_and_convert w tmpl_docx p data) as [evs [e|[d pdf]]];
    cbn [fst snd]; unfold remove_quietly; rewrite !Hreply.
  - destruct (os_remove w p); reflexivity.
  - destruct (reply_document c pdf), (os_remove w pdf), (os_remove w d);
      cbn; rewrite ?Hreply; reflexivity.
Qed.

Lemma handler_outcome_witness :
  hresult (generate_and_send obliging Sample.renderer_missing Sample.template
             Sample.data)
  = inr END.
Proof.
  exact (handler_outcome obliging Sample.renderer_missing Sample.template
           Sample.data Sample.out_docx eq_refl (fun _ => eq_refl)).
Defined.

(** X14.  What the handler removes and sets out to send.  When filling the
    template returned, the handler sets out to send the converted file, and
    then [os.remove] is called on the converted file and on the filled
    document, also when sending failed.  When filling raised, the handler
    sets out to send nothing and [os.remove] is called on the filled
    document only, and not even on that when the notice to the user could
    not be sent. *)
Theorem handler_cleanup (c : chat) (w : world) (tmpl_docx : text)
    (data : list (text * text)) (p : text) :
  named_temporary_file c = inr p ->
  removals (hevents (generate_and_send c w tmpl_docx data))
  = match result (fill_docx_and_convert w tmpl_docx p data) with
    | inr _ => [fst (OsPath.splitext p) ++ str ".pdf"; p]
    | inl _ =>
        match reply_text c MsgCreateFailed with
        | None => [p]
        | Some _ => []
        end
    end
  /\ sent (hevents (generate_and_send c w tmpl_docx data))
     = match result (fill_docx_and_convert w tmpl_docx p data) with
       | inr _ => [fst (OsPath.splitext p) ++ str ".pdf"]
       | inl _ => []
       end.
Proof.
  intros Hp. unfold generate_and_send. rewrite Hp.
  cbn [hbind hemit hret hresult hevents lift fst snd app].
  pose proof (fill_returns_paths w tmpl_docx p data) as Hshape.
  unfold result in *.
  destruct (fill_docx_and_convert w tmpl_docx p data) as [evs [e|[d pdf]]];
    cbn [fst snd] in *; unfold remove_quietly.
  - destruct (reply_text c MsgCreateFailed), (os_remove w p); cbn;
      rewrite ?removals_app, ?sent_app, ?removals_lift, ?sent_lift;
      split; reflexivity.
  - specialize (Hshape (d, pdf) eq_refl). injection Hshape as -> ->.
    destruct (reply_document c _), (reply_text c MsgSendFailed),
      (os_remove w _), (os_remove w p), (reply_text c MsgWhatNext); cbn;
      rewrite ?removals_app, ?sent_app, ?removals_lift, ?sent_lift;
      split; reflexivity.
Qed.

Lemma handler_cleanup_witness :
  removals (hevents (generate_and_send mute Sample.renderer_missing
                       Sample.template Sample.data))
  = [].
Proof.
  exact (proj1 (handler_cleanup mute Sample.renderer_missing Sample.template
                  Sample.data Sample.out_docx eq_refl)).
Defined.

(** ** The letter case of the keys *)

Lemma lit_ignore_fold (c c' : N) :
  ascii_lower c = ascii_lower c' ->
  forall t, lit_ignore c t = lit_ignore c' t.
Proof.
  intros E t.
  destruct (ascii_lower_cases c' c E) as [-> | (Hc' & Hc & Hl' & Hl)];
    [reflexivity|].
  unfold lit_ignore.
  rewrite !UnicodeFacts.iscased_ascii, Hl, Hl' by assumption.
  now rewrite (UnicodeFacts.tolower_ascii c Hc),
    (UnicodeFacts.tolower_ascii c' Hc'), E.
Qed.

Lemma matches_seq_ext (rs rs' : list regex) :
  Forall2 (fun r r' => forall s, matches r s = matches r' s) rs rs' ->
  forall s, matches (seq_of rs) s = matches (seq_of rs') s.
Proof.
  induction 1 as [|r r' rs rs' Hr _ IH]; intros s; [reflexivity|].
  cbn [seq_of fold_right matches]. rewrite Hr.
  apply flat_map_ext. exact IH.
Qed.

Lemma Forall2_same {A} (P : A -> A -> Prop) (l : list A) :
  (forall a, P a a) -> Forall2 P l l.
Proof. intros H. induction l; constructor; auto. Qed.

Lemma matches_placeholder_fold (opening : list regex) (key key' : text) :
  map ascii_lower key = map ascii_lower key' ->
  forall s, matches (placeholder_regex opening key) s
            = matches (placeholder_regex opening key') s.
Proof.
  intros E. unfold placeholder_regex. apply matches_seq_ext.
  apply Forall2_app; [now apply Forall2_same|].
  apply Forall2_app; [now apply Forall2_same|].
  apply Forall2_app; [|now apply Forall2_same].
  revert key' E. induction key as [|c key IH]; intros [|c' key'] E;
    try discriminate; [constructor|].
  injection E as Ec E. constructor; [|now apply IH].
  intros [|t s]; [reflexivity|]. cbn [matches].
  now rewrite (lit_ignore_fold c c' Ec t).
Qed.

Lemma scan_ext (r r' : regex) (tpl : list titem) :
  (forall s, matches r s = matches r' s) ->
  forall s skip, scan r tpl s skip = scan r' tpl s skip.
Proof.
  intros H s. induction s as [|c s IH]; intros skip; cbn [scan].
  - unfold match_here. now rewrite H.
  - destruct skip as [|skip]; [|apply IH]. rewrite H.
    destruct (matches r' (c :: s)) as [|rest others]; [now rewrite IH|].
    destruct (consumed (c :: s) rest); [|now rewrite IH].
    destruct (find (shorter (c :: s)) others); now rewrite IH.
Qed.

(** X15.  The letter case in which a key is written in the map does not
    matter: two maps whose keys differ in the case of ASCII letters only, and
    whose values are the same, do the same to every text. *)
Theorem key_case_does_not_matter (py : release)
    (data data' : list (text * text)) :
  Forall2 (fun kv kv' => map ascii_lower (fst kv) = map ascii_lower (fst kv')
                         /\ snd kv = snd kv') data data' ->
  forall xml, substitute py data xml = substitute py data' xml.
Proof.
  induction 1 as [|[k v] [k' v'] data data' [Ek Ev] _ IH]; intros xml;
    [reflexivity|].
  cbn [fst snd] in Ek, Ev. subst v'. cbn [substitute].
  assert (Hd : forall s, Re.sub py (pattern_double k) v s
                         = Re.sub py (pattern_double k') v s).
  { intros s. rewrite !sub_double_eq.
    destruct (parse_template py v); [reflexivity|]. cbn [on_result]. f_equal.
    apply scan_ext. now apply matches_placeholder_fold. }
  assert (Hs : forall s, Re.sub py (pattern_single k) v s
                         = Re.sub py (pattern_single k') v s).
  { intros s. rewrite !sub_single_eq.
    destruct (parse_template py v); [reflexivity|]. cbn [on_result]. f_equal.
    apply scan_ext. now apply matches_placeholder_fold. }
  rewrite Hd. destruct (Re.sub py (pattern_double k') v xml) as [e|x1];
    [reflexivity|].
  rewrite Hs. destruct (Re.sub py (pattern_single k') v x1) as [e|x2];
    [reflexivity|].
  apply IH.
Qed.

Lemma key_case_does_not_matter_witness :
  substitute Interpreter.cpython311 [(str "Name", str "MV TEST")]
    (str "{{NAME}} {name}}")
  = substitute Interpreter.cpython311 [(str "NAME", str "MV TEST")]
      (str "{{NAME}} {name}}").
Proof.
  apply key_case_does_not_matter. repeat constructor.
Defined.
